(** * xrp402: the verification and settlement pipeline of the XRPL x402 facilitator

    A shallow embedding of [src/facilitator/verify.ts], [settle.ts], [fee.ts],
    [src/types/xrpl-payload.ts], [src/xrpl/network-checks.ts],
    [src/xrpl/mpt-checks.ts] and [src/xrpl/constants.ts].

    JavaScript values that cross the boundary of the facilitator (decoded
    transactions, ledger responses, amounts) are modelled by [JsValue];
    exceptions by [Outcome]; asynchronous code that talks to the ledger client
    by the free monad [Prog], whose interpreter [run] records every call. *)

From Stdlib Require Import ZArith QArith Qreduction Lia Bool.
From Stdlib Require Import Strings.String Strings.Ascii Numbers.DecimalString.
From Stdlib Require Import Floats.SpecFloat.
From stdpp Require Import gmap strings list fin_maps.

Close Scope Q_scope.
Set Warnings "-register-all".

(** ** Exceptions *)

(** A JavaScript expression either yields a value or throws; the thrown
    value is always an [Error] here and is represented by its message. *)
Inductive Outcome (A : Type) : Type :=
| Returned (a : A)
| Thrown (msg : string).
Arguments Returned {A} a.
Arguments Thrown {A} msg.

#[global] Instance Outcome_ret : MRet Outcome := @Returned.
#[global] Instance Outcome_bind : MBind Outcome := fun A B f x =>
  match x with
  | Returned a => f a
  | Thrown msg => Thrown msg
  end.

(** [try { x } catch { h }] for a pure block. *)
Definition catch {A} (x : Outcome A) (h : string → A) : A :=
  match x with
  | Returned a => a
  | Thrown msg => h msg
  end.

(** ** JavaScript values *)

(** Numbers that occur in decoded transactions and ledger responses are
    integers (sequence numbers, flags, ledger indexes); they are modelled by
    [Z].  Floating-point numbers only arise from [parseFloat] and are modelled
    separately by [spec_float]. *)
Inductive JsValue : Type :=
| JUndefined
| JNull
| JBool (b : bool)
| JNum (n : Z)
| JStr (s : string)
| JArr (l : list JsValue)
| JObj (o : gmap string JsValue).

Variant JsType := TyUndefined | TyObject | TyBoolean | TyNumber | TyString.

Definition typeof (v : JsValue) : JsType :=
  match v with
  | JUndefined => TyUndefined
  | JNull | JArr _ | JObj _ => TyObject
  | JBool _ => TyBoolean
  | JNum _ => TyNumber
  | JStr _ => TyString
  end.

(** [a === b].  Decoded transactions and ledger responses are fresh object
    graphs, so two objects (or arrays) met in a comparison are never the
    same reference. *)
Definition strict_eq (a b : JsValue) : bool :=
  match a, b with
  | JUndefined, JUndefined => true
  | JNull, JNull => true
  | JBool x, JBool y => Bool.eqb x y
  | JNum x, JNum y => (x =? y)%Z
  | JStr x, JStr y => String.eqb x y
  | _, _ => false
  end.

Definition strict_neq (a b : JsValue) : bool := negb (strict_eq a b).

(** [typeof v === "object"] *)
Definition is_object (v : JsValue) : bool :=
  match typeof v with TyObject => true | _ => false end.

(** ToBoolean. *)
Definition truthy (v : JsValue) : bool :=
  match v with
  | JUndefined | JNull => false
  | JBool b => b
  | JNum n => negb (n =? 0)%Z
  | JStr s => negb (String.eqb s EmptyString)
  | JArr _ | JObj _ => true
  end.

(** [v === undefined || v === null]. *)
Definition nullish (v : JsValue) : bool :=
  match v with
  | JUndefined | JNull => true
  | _ => false
  end.

Definition string_of_Z (n : Z) : string := NilZero.string_of_int (Z.to_int n).

(** ToString.  Arrays join their elements with a comma, [null] and
    [undefined] elements being empty; plain objects print as
    ["[object Object]"]. *)
Fixpoint to_string (v : JsValue) : string :=
  match v with
  | JUndefined => "undefined"
  | JNull => "null"
  | JBool true => "true"
  | JBool false => "false"
  | JNum n => string_of_Z n
  | JStr s => s
  | JArr l =>
      (fix join (l : list JsValue) : string :=
         match l with
         | [] => EmptyString
         | x :: r =>
             let e := match x with
                      | JUndefined | JNull => EmptyString
                      | _ => to_string x
                      end in
             match r with
             | [] => e
             | _ => e +:+ "," +:+ join r
             end
         end) l
  | JObj _ => "[object Object]"
  end.

(** [o[k]] on a value known not to be [null] or [undefined].  None of the
    keys the facilitator reads is a built-in property of a primitive or of
    an array, so only plain objects answer. *)
Definition js_get (v : JsValue) (k : string) : JsValue :=
  match v with
  | JObj o => default JUndefined (o !! k)
  | _ => JUndefined
  end.

(** [v.k]: reading a property of [undefined] or [null] throws a TypeError. *)
Definition js_prop (v : JsValue) (k : string) : Outcome JsValue :=
  if nullish v
  then Thrown ("TypeError: Cannot read properties of " +:+ to_string v)
  else Returned (js_get v k).

(** [k in v]: throws a TypeError when [v] is not an object. *)
Definition js_in (k : string) (v : JsValue) : Outcome bool :=
  match v with
  | JObj o => Returned (bool_decide (is_Some (o !! k)))
  | JArr _ => Returned false
  | _ => Thrown "TypeError: Cannot use 'in' operator"
  end.

(** [tx[k]] on a [Record<string, unknown>]. *)
Definition record_get (tx : gmap string JsValue) (k : string) : JsValue :=
  default JUndefined (tx !! k).

(** The properties an object literal inherits from [Object.prototype]:
    [o[k]] finds one of them when [o] has no own property [k]. *)
Definition object_prototype_keys : list string :=
  [ "constructor"; "__defineGetter__"; "__defineSetter__"; "hasOwnProperty";
    "__lookupGetter__"; "__lookupSetter__"; "isPrototypeOf"; "propertyIsEnumerable";
    "toString"; "valueOf"; "__proto__"; "toLocaleString" ].

Definition inherited (k : string) : bool :=
  bool_decide (k ∈ object_prototype_keys).

(** ** Strings *)

Definition startsWith (s p : string) : bool := String.prefix p s.

(** [s.slice(n)] for a non-negative [n]. *)
Fixpoint slice (n : nat) (s : string) : string :=
  match n, s with
  | O, _ => s
  | S n', String _ r => slice n' r
  | S _, EmptyString => EmptyString
  end.

Definition ascii_code (c : ascii) : Z := Z.of_N (N_of_ascii c).

(** StrWhiteSpaceChar: WhiteSpace and LineTerminator.  A string is held as
    its UTF-8 bytes, so a white space character is one, two or three bytes:
    TAB, LF, VT, FF, CR and SP; U+00A0; U+1680, U+2000 to U+200A, U+2028,
    U+2029, U+202F, U+205F, U+3000 and U+FEFF. *)
Definition is_ws (c : ascii) : bool :=
  let n := ascii_code c in
  ((9 <=? n) && (n <=? 13) || (n =? 32))%Z.

Definition is_ws2 (c1 c2 : ascii) : bool :=
  ((ascii_code c1 =? 0xC2) && (ascii_code c2 =? 0xA0))%Z.

Definition is_ws3 (c1 c2 c3 : ascii) : bool :=
  let '(a, b, c) := (ascii_code c1, ascii_code c2, ascii_code c3) in
  ((a =? 0xE1) && (b =? 0x9A) && (c =? 0x80)
   || (a =? 0xE2) && (b =? 0x80)
      && ((0x80 <=? c) && (c <=? 0x8A) || (c =? 0xA8) || (c =? 0xA9) || (c =? 0xAF))
   || (a =? 0xE2) && (b =? 0x81) && (c =? 0x9F)
   || (a =? 0xE3) && (b =? 0x80) && (c =? 0x80)
   || (a =? 0xEF) && (b =? 0xBB) && (c =? 0xBF))%Z.

(** [s] is one white space character. *)
Definition is_ws_char (s : string) : bool :=
  match s with
  | String c1 EmptyString => is_ws c1
  | String c1 (String c2 EmptyString) => is_ws2 c1 c2
  | String c1 (String c2 (String c3 EmptyString)) => is_ws3 c1 c2 c3
  | _ => false
  end.

Definition dec_digit (c : ascii) : option Z :=
  let n := ascii_code c in
  if ((48 <=? n) && (n <=? 57))%Z then Some (n - 48)%Z else None.

Definition oct_digit (c : ascii) : option Z :=
  let n := ascii_code c in
  if ((48 <=? n) && (n <=? 55))%Z then Some (n - 48)%Z else None.

Definition bin_digit (c : ascii) : option Z :=
  let n := ascii_code c in
  if ((48 <=? n) && (n <=? 49))%Z then Some (n - 48)%Z else None.

Definition hex_digit (c : ascii) : option Z :=
  let n := ascii_code c in
  if ((48 <=? n) && (n <=? 57))%Z then Some (n - 48)%Z
  else if ((97 <=? n) && (n <=? 102))%Z then Some (n - 87)%Z
  else if ((65 <=? n) && (n <=? 70))%Z then Some (n - 55)%Z
  else None.

Fixpoint trim_start (s : string) : string :=
  match s with
  | String c1 r1 =>
      if is_ws c1 then trim_start r1
      else
        match r1 with
        | String c2 r2 =>
            if is_ws2 c1 c2 then trim_start r2
            else
              match r2 with
              | String c3 r3 => if is_ws3 c1 c2 c3 then trim_start r3 else s
              | EmptyString => s
              end
        | EmptyString => s
        end
  | EmptyString => EmptyString
  end.

Fixpoint trim_end (s : string) : string :=
  match s with
  | String c r =>
      let r' := trim_end r in
      if is_ws_char (String c r') then EmptyString else String c r'
  | EmptyString => EmptyString
  end.

Definition trim (s : string) : string := trim_end (trim_start s).

(** ** BigInt *)

(** The digits of [s] in the given base, most significant first, folded
    onto [acc]; [None] when a character is not a digit. *)
Fixpoint digits_acc (digit : ascii → option Z) (base : Z) (s : string) (acc : Z)
  : option Z :=
  match s with
  | EmptyString => Some acc
  | String c r =>
      match digit c with
      | Some d => digits_acc digit base r (acc * base + d)%Z
      | None => None
      end
  end.

(** One or more digits. *)
Definition parse_digits (digit : ascii → option Z) (base : Z) (s : string)
  : option Z :=
  match s with
  | EmptyString => None
  | _ => digits_acc digit base s 0%Z
  end.

Definition ascii_in (c : ascii) (a b : ascii) : bool :=
  Ascii.eqb c a || Ascii.eqb c b.

(** StringToBigInt: the StringIntegerLiteral grammar.  Blank is zero; a
    radix prefix admits no sign; a decimal literal admits one. *)
Definition StringToBigInt (s : string) : option Z :=
  let t := trim s in
  match t with
  | EmptyString => Some 0%Z
  | String c r =>
      if Ascii.eqb c "+" then parse_digits dec_digit 10 r
      else if Ascii.eqb c "-" then Z.opp <$> parse_digits dec_digit 10 r
      else
        match r with
        | String x r' =>
            if Ascii.eqb c "0" && ascii_in x "x" "X" then parse_digits hex_digit 16 r'
            else if Ascii.eqb c "0" && ascii_in x "o" "O" then parse_digits oct_digit 8 r'
            else if Ascii.eqb c "0" && ascii_in x "b" "B" then parse_digits bin_digit 2 r'
            else parse_digits dec_digit 10 t
        | EmptyString => parse_digits dec_digit 10 t
        end
  end.

Definition BigInt_of_string (s : string) : Outcome Z :=
  match StringToBigInt s with
  | Some z => Returned z
  | None => Thrown ("SyntaxError: Cannot convert " +:+ s +:+ " to a BigInt")
  end.

(** [BigInt(v)]. *)
Definition BigInt (v : JsValue) : Outcome Z :=
  match v with
  | JUndefined | JNull =>
      Thrown ("TypeError: Cannot convert " +:+ to_string v +:+ " to a BigInt")
  | JBool b => Returned (if b then 1 else 0)%Z
  | JNum n => Returned n
  | JStr s => BigInt_of_string s
  | JArr _ | JObj _ => BigInt_of_string (to_string v)
  end.

(** ** parseFloat *)

(** binary64 *)
Definition prec : Z := 53.
Definition emax : Z := 1024.

(** The Number value for a non-negative mathematical value [q] with sign
    [neg]: the binary64 nearest to it, ties to even.  The value is a function
    of the rational number alone, so the fraction is first put in lowest
    terms. *)
Definition float_of_Q (neg : bool) (q : Q) : spec_float :=
  let r := Qred q in
  match Qnum r with
  | Z0 => S754_zero neg
  | Zpos p => SFdiv prec emax (S754_finite neg p 0) (S754_finite false (Qden r) 0)
  | Zneg p => SFdiv prec emax (S754_finite (negb neg) p 0) (S754_finite false (Qden r) 0)
  end.

(** The longest prefix of decimal digits, and what follows it. *)
Fixpoint span_digits (s : string) : string * string :=
  match s with
  | String c r =>
      match dec_digit c with
      | Some _ => let '(d, t) := span_digits r in (String c d, t)
      | None => (EmptyString, s)
      end
  | EmptyString => (EmptyString, EmptyString)
  end.

Definition digits_value (s : string) : Z :=
  default 0%Z (digits_acc dec_digit 10 s 0).

(** ExponentPart, when one is there: [e] or [E], an optional sign, digits.
    Without digits there is no exponent part and the value is [0]. *)
Definition exponent_part (s : string) : Z :=
  match s with
  | String c r =>
      if ascii_in c "e" "E" then
        match r with
        | String sg r' =>
            if Ascii.eqb sg "+" then digits_value (span_digits r').1
            else if Ascii.eqb sg "-" then (- digits_value (span_digits r').1)%Z
            else digits_value (span_digits r).1
        | EmptyString => 0%Z
        end
      else 0%Z
  | EmptyString => 0%Z
  end.

(** The mathematical value of the longest prefix that is a
    StrUnsignedDecimalLiteral: [m] times ten to the [e]. *)
Variant Literal := LitNone | LitInfinity | LitDecimal (m e : Z).

Definition unsigned_literal (s : string) : Literal :=
  if startsWith s "Infinity" then LitInfinity
  else
    let '(ip, r1) := span_digits s in
    let '(fp, r2) :=
      match r1 with
      | String c t => if Ascii.eqb c "." then span_digits t else (EmptyString, r1)
      | EmptyString => (EmptyString, EmptyString)
      end in
    if String.eqb ip EmptyString && String.eqb fp EmptyString then LitNone
    else LitDecimal (digits_value (ip +:+ fp))
                    (exponent_part r2 - Z.of_nat (String.length fp)).

(** The rational [m] times ten to the [e]. *)
Definition scale10 (m e : Z) : Q :=
  if (0 <=? e)%Z then (m * 10 ^ e) # 1 else m # Pos.pow 10 (Z.to_pos (- e)).

(** [parseFloat(s)]: leading white space is skipped, the longest prefix that
    is a StrDecimalLiteral is read, the rest is ignored. *)
Definition parseFloat (s : string) : spec_float :=
  let t := trim_start s in
  let '(neg, u) :=
    match t with
    | String c r =>
        if Ascii.eqb c "-" then (true, r)
        else if Ascii.eqb c "+" then (false, r)
        else (false, t)
    | EmptyString => (false, EmptyString)
    end in
  match unsigned_literal u with
  | LitNone => S754_nan
  | LitInfinity => S754_infinity neg
  | LitDecimal m e => float_of_Q neg (scale10 m e)
  end.

Definition isNaN (x : spec_float) : bool :=
  match x with
  | S754_nan => true
  | _ => false
  end.

(** [x < y], [x <= y] and [x !== y] on numbers. *)
Definition num_lt (x y : spec_float) : bool := SFltb x y.
Definition num_le (x y : spec_float) : bool := SFleb x y.
Definition num_neq (x y : spec_float) : bool := negb (SFeqb x y).

Definition float_zero : spec_float := S754_zero false.

(** [x & y] on numbers: both operands go through ToInt32. *)
Definition toInt32 (n : Z) : Z := ((n + 2 ^ 31) mod 2 ^ 32 - 2 ^ 31)%Z.
Definition bit_and (x y : Z) : Z := Z.land (toInt32 x) (toInt32 y).

(** ** Protocol and payload types (src/types/x402.ts, src/types/xrpl-payload.ts) *)

(** [string | IssuedCurrencyAmount | MPTAmount] as it exists at run time: a
    string of drops, or an object whose shape the type guards sniff. *)
Inductive AmountValue : Type :=
| AmtString (s : string)
| AmtObject (o : gmap string JsValue).

Definition IssuedCurrencyAmount (currency issuer value : string) : AmountValue :=
  AmtObject {[ "currency" := JStr currency; "issuer" := JStr issuer;
               "value" := JStr value ]}.

Definition MPTAmount (mpt_issuance_id value : string) : AmountValue :=
  AmtObject {[ "mpt_issuance_id" := JStr mpt_issuance_id; "value" := JStr value ]}.

Record XrplAuthorization := {
  account : string;
  destination : string;
  amount : AmountValue;
  fee : string;
  sequence : Z;
  ticketSequence : option Z;
  lastLedgerSequence : option Z;
}.

Record FeeAuthorization := {
  feeAccount : string;
  feeDestination : string;
  feeAmount : string;
  feeSequence : Z;
  feeTicketSequence : option Z;
}.

Record ExactXrplPayload := {
  txBlob : string;
  authorization : XrplAuthorization;
  feeTxBlob : option string;
  feeAuthorization : option FeeAuthorization;
}.

Record PaymentRequirements := {
  scheme : string;
  network : string;
  payTo : string;
  maxAmountRequired : string;
  asset : string;
}.

Record VerifyResponse := {
  isValid : bool;
  invalidReason : option string;
}.

(** [{ isValid: false, invalidReason: r }] and [{ isValid: true }]. *)
Definition invalid (r : string) : VerifyResponse :=
  {| isValid := false; invalidReason := Some r |}.
Definition valid : VerifyResponse :=
  {| isValid := true; invalidReason := None |}.

(** What an [errorReason] holds at run time: a string, or, where
    [mapEngineResult] is given the name of an inherited property, that member
    of [Object.prototype]. *)
Inductive ErrorReason : Type :=
| Reason (s : string)
| InheritedMember (key : string).

(** [`${reason}`]: a built-in function prints as native code, as Node prints
    it, and [Object.prototype] itself as an object. *)
Definition reason_to_string (r : ErrorReason) : string :=
  match r with
  | Reason s => s
  | InheritedMember key =>
      if String.eqb key "__proto__" then "[object Object]"
      else "function " +:+ (if String.eqb key "constructor" then "Object" else key)
           +:+ "() { [native code] }"
  end.

Record SettleResponse := {
  success : bool;
  transaction : option JsValue;
  settledNetwork : option string;
  payer : option string;
  errorReason : option ErrorReason;
}.

(** ["xrp" | "issued" | "mpt"] *)
Variant AssetType := asset_xrp | asset_issued | asset_mpt.

(** [amount.k] for the key of an amount object. *)
Definition amount_prop (a : AmountValue) (k : string) : JsValue :=
  match a with
  | AmtObject o => default JUndefined (o !! k)
  | AmtString _ => JUndefined
  end.

Definition amount_has (a : AmountValue) (k : string) : bool :=
  match a with
  | AmtObject o => bool_decide (is_Some (o !! k))
  | AmtString _ => false
  end.

(** [typeof amount === "object"] and [typeof amount === "string"]. *)
Definition amount_is_object (a : AmountValue) : bool :=
  match a with
  | AmtObject _ => true
  | AmtString _ => false
  end.
Definition amount_is_string (a : AmountValue) : bool :=
  match a with
  | AmtString _ => true
  | AmtObject _ => false
  end.

Definition classifyAsset (asset : string) : Outcome AssetType :=
  if String.eqb asset "XRP" then Returned asset_xrp
  else if startsWith asset "r" then Returned asset_issued
  else if startsWith asset "mpt:" then Returned asset_mpt
  else Thrown ("Unknown asset format: " +:+ asset).

Definition isIssuedCurrencyAmount (amount : AmountValue) : bool :=
  amount_is_object amount && amount_has amount "currency"
  && amount_has amount "issuer" && amount_has amount "value".

Definition isMPTAmount (amount : AmountValue) : bool :=
  amount_is_object amount && amount_has amount "mpt_issuance_id"
  && amount_has amount "value" && negb (amount_has amount "currency").

(** ** Constants (src/xrpl/constants.ts) *)

Definition PARTIAL_PAYMENT_FLAG : Z := 0x00020000.

Record MptConfig := {
  issuanceId : string;
  name : string;
  issuer : string;
  assetScale : Z;
}.

(** Empty by default. *)
Definition MPT_ALLOWLIST : gmap string (list MptConfig) := ∅.

(** [MPT_ALLOWLIST[network]?.find((mpt) => mpt.issuanceId === issuanceId)];
    the identifier is the run-time value of [mptAmount.mpt_issuance_id].  The
    allowlist is an object literal: for a network that is the name of an
    inherited property the lookup finds that property, which is neither
    [null] nor [undefined] and has no [find], and the call throws. *)
Definition getMptConfig (network : string) (issuanceId' : JsValue)
  : Outcome (option MptConfig) :=
  match MPT_ALLOWLIST !! network with
  | Some l => Returned (List.find (fun mpt => strict_eq (JStr (issuanceId mpt)) issuanceId') l)
  | None =>
      if inherited network
      then Thrown "TypeError: MPT_ALLOWLIST[network]?.find is not a function"
      else Returned None
  end.

Definition tfMPTCanTransfer : Z := 0x0020.

(** ** The ledger SDK (package xrpl): pure functions on blobs *)

Record XrplLib := {
  decode : string → Outcome (gmap string JsValue);
  validate : gmap string JsValue → Outcome unit;
  verifySignature : string → Outcome bool;
}.

(** ** Offline verification steps (src/facilitator/verify.ts) *)

Section Offline.
Variable lib : XrplLib.

(** Step 1: decode txBlob. *)
Definition decodeTxBlob (txBlob : string) : gmap string JsValue + VerifyResponse :=
  match decode lib txBlob with
  | Returned tx => inl tx
  | Thrown _ => inr (invalid "invalid_tx_blob")
  end.

(** Step 2: validate the transaction structure. *)
Definition validateTransaction (tx : gmap string JsValue) : option VerifyResponse :=
  match validate lib tx with
  | Returned _ => None
  | Thrown _ => Some (invalid "invalid_transaction_structure")
  end.

(** Step 3: verify the cryptographic signature. *)
Definition verifyTxSignature (txBlob : string) : option VerifyResponse :=
  match verifySignature lib txBlob with
  | Returned ok => if negb ok then Some (invalid "invalid_signature") else None
  | Thrown _ => Some (invalid "signature_verification_failed")
  end.
End Offline.

(** Step 4: cross-check the decoded fields against the authorization. *)
Definition crossCheckAuthorization (tx : gmap string JsValue) (payload : ExactXrplPayload)
  : option VerifyResponse :=
  let auth := authorization payload in
  if strict_neq (record_get tx "Account") (JStr (account auth)) then
    Some (invalid "authorization_mismatch_account")
  else if strict_neq (record_get tx "Destination") (JStr (destination auth)) then
    Some (invalid "authorization_mismatch_destination")
  else if strict_neq (record_get tx "Fee") (JStr (fee auth)) then
    Some (invalid "authorization_mismatch_fee")
  else
    let txAmount := record_get tx "Amount" in
    let amountCheck :=
      if isIssuedCurrencyAmount (amount auth) then
        if negb (is_object txAmount) || strict_eq txAmount JNull then
          Some (invalid "authorization_mismatch_amount")
        else if strict_neq (js_get txAmount "currency") (amount_prop (amount auth) "currency")
                || strict_neq (js_get txAmount "issuer") (amount_prop (amount auth) "issuer")
                || num_neq (parseFloat (to_string (js_get txAmount "value")))
                           (parseFloat (to_string (amount_prop (amount auth) "value")))
        then Some (invalid "authorization_mismatch_amount")
        else None
      else if isMPTAmount (amount auth) then
        if negb (is_object txAmount) || strict_eq txAmount JNull then
          Some (invalid "authorization_mismatch_amount")
        else if strict_neq (js_get txAmount "mpt_issuance_id")
                           (amount_prop (amount auth) "mpt_issuance_id")
                || num_neq (parseFloat (to_string (js_get txAmount "value")))
                           (parseFloat (to_string (amount_prop (amount auth) "value")))
        then Some (invalid "authorization_mismatch_amount")
        else None
      else
        (* [txAmount !== auth.amount]: an object on the right is never the
           decoded transaction's own object. *)
        match amount auth with
        | AmtString s =>
            if strict_neq txAmount (JStr s)
            then Some (invalid "authorization_mismatch_amount") else None
        | AmtObject _ => Some (invalid "authorization_mismatch_amount")
        end in
    match amountCheck with
    | Some r => Some r
    | None =>
        let sequenceCheck :=
          match ticketSequence auth with
          | Some ticket =>
              if strict_neq (record_get tx "Sequence") (JNum 0)
                 || strict_neq (record_get tx "TicketSequence") (JNum ticket)
              then Some (invalid "authorization_mismatch_sequence") else None
          | None =>
              if strict_neq (record_get tx "Sequence") (JNum (sequence auth))
              then Some (invalid "authorization_mismatch_sequence") else None
          end in
        match sequenceCheck with
        | Some r => Some r
        | None =>
            match lastLedgerSequence auth with
            | Some lls =>
                if strict_neq (record_get tx "LastLedgerSequence") (JNum lls)
                then Some (invalid "authorization_mismatch_last_ledger_sequence")
                else None
            | None => None
            end
        end
    end.

(** Step 5: the destination matches [requirements.payTo]. *)
Definition checkDestination (payload : ExactXrplPayload) (requirements : PaymentRequirements)
  : option VerifyResponse :=
  if negb (String.eqb (destination (authorization payload)) (payTo requirements))
  then Some (invalid "destination_mismatch")
  else None.

(** [BigInt(auth.amount)]: an object is first converted to the string
    ["[object Object]"]. *)
Definition BigInt_of_amount (a : AmountValue) : Outcome Z :=
  match a with
  | AmtString s => BigInt (JStr s)
  | AmtObject o => BigInt (JObj o)
  end.

(** Step 6: the amount meets or exceeds the requirement. *)
Definition checkAmount (payload : ExactXrplPayload) (requirements : PaymentRequirements)
  : option VerifyResponse :=
  let auth := authorization payload in
  let requiredAmount := maxAmountRequired requirements in
  if isIssuedCurrencyAmount (amount auth) then
    let paymentValue := parseFloat (to_string (amount_prop (amount auth) "value")) in
    let requiredValue := parseFloat requiredAmount in
    if isNaN paymentValue || isNaN requiredValue || num_lt paymentValue requiredValue
    then Some (invalid "insufficient_amount")
    else None
  else if isMPTAmount (amount auth) then
    let paymentValue := parseFloat (to_string (amount_prop (amount auth) "value")) in
    let requiredValue := parseFloat requiredAmount in
    if isNaN paymentValue || isNaN requiredValue || num_lt paymentValue requiredValue
    then Some (invalid "insufficient_amount")
    else None
  else
    catch
      (paymentDrops ← BigInt_of_amount (amount auth);
       requiredDrops ← BigInt (JStr requiredAmount);
       mret (if (paymentDrops <? requiredDrops)%Z
             then Some (invalid "insufficient_amount")
             else None))
      (fun _ => Some (invalid "invalid_amount_format")).

(** Step 7: the asset matches the requirement.  [classifyAsset] is called
    outside any [try]. *)
Definition checkAsset (payload : ExactXrplPayload) (requirements : PaymentRequirements)
  : Outcome (option VerifyResponse) :=
  let auth := authorization payload in
  requiredAssetType ← classifyAsset (asset requirements);
  mret
    match requiredAssetType with
    | asset_xrp =>
        if negb (amount_is_string (amount auth))
        then Some (invalid "asset_mismatch")
        else None
    | asset_issued =>
        if negb (isIssuedCurrencyAmount (amount auth)) then
          Some (invalid "asset_mismatch")
        else if strict_neq (amount_prop (amount auth) "issuer") (JStr (asset requirements)) then
          Some (invalid "asset_mismatch_issuer")
        else None
    | asset_mpt =>
        if negb (isMPTAmount (amount auth)) then
          Some (invalid "asset_mismatch")
        else
          let requiredIssuanceId := slice 4 (asset requirements) in
          if strict_neq (amount_prop (amount auth) "mpt_issuance_id") (JStr requiredIssuanceId)
          then Some (invalid "asset_mismatch_issuance_id")
          else None
    end.

(** Step 8: reject partial payments. *)
Definition rejectPartialPayment (tx : gmap string JsValue) : option VerifyResponse :=
  let flags := match record_get tx "Flags" with
               | JNum n => n
               | _ => 0%Z
               end in
  if negb (bit_and flags PARTIAL_PAYMENT_FLAG =? 0)%Z
  then Some (invalid "partial_payment_not_allowed")
  else None.

(** Step 12 (src/xrpl/mpt-checks.ts): the allowlist is a local lookup,
    outside any [try]. *)
Definition checkMptAllowlist (network : string) (mptAmount : AmountValue)
  : Outcome (option VerifyResponse) :=
  config ← getMptConfig network (amount_prop mptAmount "mpt_issuance_id");
  mret match config with
       | None => Some (invalid "mpt_not_allowlisted")
       | Some _ => None
       end.

(** ** Asynchronous code over the ledger client *)

(** The connected client object handed to [verify] and [settle]. *)
Variant Client := XrplClient.

(** The three methods of the client the facilitator calls. *)
Inductive LedgerCall : Type :=
| CallRequest (req : gmap string JsValue)
| CallGetLedgerIndex
| CallSubmit (txBlob : string).

Definition Reply (c : LedgerCall) : Type :=
  match c with
  | CallGetLedgerIndex => Z
  | CallRequest _ | CallSubmit _ => JsValue
  end.

(** A computation that awaits client calls.  Each awaited call either
    resolves to a reply or rejects (a transport error); [Sleep] stands for
    the [setTimeout] between polls and [Warn] for [console.warn]. *)
Inductive Prog (A : Type) : Type :=
| Ret (a : A)
| Raise (msg : string)
| Await (c : LedgerCall) (k : Outcome (Reply c) → Prog A)
| Sleep (ms : Z) (k : Prog A)
| Warn (msg : string) (k : Prog A).
Arguments Ret {A} a.
Arguments Raise {A} msg.
Arguments Await {A} c k.
Arguments Sleep {A} ms k.
Arguments Warn {A} msg k.

Fixpoint Prog_bind {A B} (f : A → Prog B) (p : Prog A) : Prog B :=
  match p with
  | Ret a => f a
  | Raise msg => Raise msg
  | Await c k => Await c (fun r => Prog_bind f (k r))
  | Sleep ms k => Sleep ms (Prog_bind f k)
  | Warn msg k => Warn msg (Prog_bind f k)
  end.

#[global] Instance Prog_mret : MRet Prog := @Ret.
#[global] Instance Prog_mbind : MBind Prog := @Prog_bind.

(** [try { p } catch (err) { h err }]. *)
Fixpoint try_catch {A} (p : Prog A) (h : string → Prog A) : Prog A :=
  match p with
  | Ret a => Ret a
  | Raise msg => h msg
  | Await c k => Await c (fun r => try_catch (k r) h)
  | Sleep ms k => Sleep ms (try_catch k h)
  | Warn msg k => Warn msg (try_catch k h)
  end.

(** A pure expression evaluated inside asynchronous code. *)
Definition lift {A} (x : Outcome A) : Prog A :=
  match x with
  | Returned a => Ret a
  | Thrown msg => Raise msg
  end.

(** [await client.method(...)]: a rejected promise throws at the [await]. *)
Definition await (c : LedgerCall) : Prog (Reply c) := Await c lift.

Definition request (client : Client) (req : gmap string JsValue) : Prog JsValue :=
  await (CallRequest req).
Definition getLedgerIndex (client : Client) : Prog Z :=
  await CallGetLedgerIndex.
Definition submit (client : Client) (txBlob : string) : Prog JsValue :=
  await (CallSubmit txBlob).

(** A ledger node as the client sees it: some state, and for each call a
    reply or a transport error, and the state afterwards. *)
Record Ledger := {
  ledger_state : Type;
  respond : ∀ c : LedgerCall, ledger_state → Outcome (Reply c) * ledger_state;
}.

(** What [run] records: each client call with whether it rejected, each
    sleep and each warning. *)
Inductive Event : Type :=
| EvCall (c : LedgerCall) (rejected : bool)
| EvSleep (ms : Z)
| EvWarn (msg : string).

Definition rejected {A} (r : Outcome A) : bool :=
  match r with
  | Returned _ => false
  | Thrown _ => true
  end.

Fixpoint run {A} (L : Ledger) (p : Prog A) (s : ledger_state L)
  : Outcome A * ledger_state L * list Event :=
  match p with
  | Ret a => (Returned a, s, [])
  | Raise msg => (Thrown msg, s, [])
  | Await c k =>
      let '(r, s1) := respond L c s in
      let '(o, s2, tr) := run L (k r) s1 in
      (o, s2, EvCall c (rejected r) :: tr)
  | Sleep ms k =>
      let '(o, s1, tr) := run L k s in (o, s1, EvSleep ms :: tr)
  | Warn msg k =>
      let '(o, s1, tr) := run L k s in (o, s1, EvWarn msg :: tr)
  end.

(** The blobs submitted to the ledger, in order. *)
Definition submitted (tr : list Event) : list string :=
  omap (fun e => match e with
                 | EvCall (CallSubmit b) _ => Some b
                 | _ => None
                 end) tr.

(** Some awaited call of the trace rejected. *)
Definition some_call_rejected (tr : list Event) : bool :=
  existsb (fun e => match e with
                    | EvCall _ r => r
                    | _ => false
                    end) tr.

(** ** Array methods with a callback *)

(** [v.some(cb)]: a TypeError when [v] has no such method. *)
Definition js_some (v : JsValue) (cb : JsValue → Outcome bool) : Outcome bool :=
  match v with
  | JArr l =>
      (fix go (l : list JsValue) : Outcome bool :=
         match l with
         | [] => Returned false
         | x :: r => b ← cb x; if b : bool then Returned true else go r
         end) l
  | _ =>
      if nullish v
      then Thrown ("TypeError: Cannot read properties of " +:+ to_string v)
      else Thrown "TypeError: some is not a function"
  end.

(** [v.find(cb)]. *)
Definition js_find (v : JsValue) (cb : JsValue → Outcome bool) : Outcome JsValue :=
  match v with
  | JArr l =>
      (fix go (l : list JsValue) : Outcome JsValue :=
         match l with
         | [] => Returned JUndefined
         | x :: r => b ← cb x; if b : bool then Returned x else go r
         end) l
  | _ =>
      if nullish v
      then Thrown ("TypeError: Cannot read properties of " +:+ to_string v)
      else Thrown "TypeError: find is not a function"
  end.

(** [v.startsWith(p)]. *)
Definition js_startsWith (v : JsValue) (p : string) : Outcome bool :=
  match v with
  | JStr s => Returned (startsWith s p)
  | _ =>
      if nullish v
      then Thrown ("TypeError: Cannot read properties of " +:+ to_string v)
      else Thrown "TypeError: startsWith is not a function"
  end.

(** ** Network verification steps 9-11 (src/xrpl/network-checks.ts) *)

(** Step 9: source account balance and sequence or ticket validity. *)
Definition checkAccountBalance (client : Client) (account' : string)
    (amount' : AmountValue) (fee' : string) (sequence' : Z)
    (ticketSequence' : option Z) : Prog (option VerifyResponse) :=
  try_catch
    (info ← request client {[ "command" := JStr "account_info";
                              "account" := JStr account';
                              "ledger_index" := JStr "current" ]};
     balance ← lift (result ← js_prop info "result";
                     account_data ← js_prop result "account_data";
                     Balance ← js_prop account_data "Balance";
                     BigInt Balance);
     feeDrops ← lift (BigInt (JStr fee'));
     let reserve := 10000000%Z in
     funds ← lift
       (if negb (isIssuedCurrencyAmount amount') then
          amountDrops ← BigInt_of_amount amount';
          mret (if (balance <? amountDrops + feeDrops + reserve)%Z
                then Some (invalid "insufficient_balance") else None)
        else
          mret (if (balance <? feeDrops + reserve)%Z
                then Some (invalid "insufficient_balance_for_fees") else None));
     match funds with
     | Some r => Ret (Some r)
     | None =>
         match ticketSequence' with
         | Some ticket =>
             try_catch
               (objects ← request client {[ "command" := JStr "account_objects";
                                            "account" := JStr account';
                                            "type" := JStr "ticket";
                                            "ledger_index" := JStr "current" ]};
                ticketExists ← lift
                  (result ← js_prop objects "result";
                   account_objects ← js_prop result "account_objects";
                   js_some account_objects
                     (fun obj =>
                        present ← js_in "TicketSequence" obj;
                        mret (present
                              && strict_eq (js_get obj "TicketSequence") (JNum ticket))));
                Ret (if negb ticketExists
                     then Some (invalid "ticket_not_found") else None))
               (fun _ => Ret None)
         | None =>
             accountSequence ← lift (result ← js_prop info "result";
                                     account_data ← js_prop result "account_data";
                                     js_prop account_data "Sequence");
             Ret (if strict_neq (JNum sequence') accountSequence
                  then Some (invalid "invalid_sequence") else None)
         end
     end)
    (fun _ => Ret None).

(** Step 10: [LastLedgerSequence] is at least four ledgers ahead. *)
Definition checkLedgerExpiry (client : Client) (lastLedgerSequence' : option Z)
  : Prog (option VerifyResponse) :=
  match lastLedgerSequence' with
  | None => Ret None
  | Some lls =>
      try_catch
        (currentLedger ← getLedgerIndex client;
         let buffer := 4%Z in
         Ret (if (lls <? currentLedger + buffer)%Z
              then Some (invalid "transaction_will_expire_too_soon") else None))
        (fun _ => Ret None)
  end.

(** Step 11: the destination holds a trust line to the issuer, with a
    positive limit and not frozen. *)
Definition checkTrustLine (client : Client) (destination' : string)
    (amount' : AmountValue) : Prog (option VerifyResponse) :=
  try_catch
    (lines ← request client {[ "command" := JStr "account_lines";
                               "account" := JStr destination';
                               "peer" := amount_prop amount' "issuer";
                               "ledger_index" := JStr "current" ]};
     trustLine ← lift
       (result ← js_prop lines "result";
        lines' ← js_prop result "lines";
        js_find lines'
          (fun line =>
             currency ← js_prop line "currency";
             mret (strict_eq currency (amount_prop amount' "currency"))));
     if negb (truthy trustLine) then
       Ret (Some (invalid "no_trust_line"))
     else if num_le (parseFloat (to_string (js_get trustLine "limit"))) float_zero then
       Ret (Some (invalid "trust_line_limit_zero"))
     else if truthy (js_get trustLine "freeze_peer") then
       Ret (Some (invalid "trust_line_frozen"))
     else Ret None)
    (fun _ => Ret None).

(** ** MPT network checks, steps 13-15 (src/xrpl/mpt-checks.ts) *)

(** [(result.result as Record<string, unknown>)["node"]]. *)
Definition ledger_entry_node (result : JsValue) : Outcome JsValue :=
  r ← js_prop result "result"; js_prop r "node".

Definition flags_of (node : JsValue) : Z :=
  match js_get node "Flags" with
  | JNum n => n
  | _ => 0%Z
  end.

(** Step 13: the issuance exists and is transferable. *)
Definition checkMptIssuance (client : Client) (issuanceId' : JsValue)
  : Prog (option VerifyResponse) :=
  try_catch
    (result ← request client {[ "command" := JStr "ledger_entry";
                                "mpt_issuance" := issuanceId' ]};
     node ← lift (ledger_entry_node result);
     if negb (truthy node) then
       Ret (Some (invalid "mpt_issuance_not_found"))
     else
       let flags := flags_of node in
       if (bit_and flags tfMPTCanTransfer =? 0)%Z then
         Ret (Some (invalid "mpt_not_transferable"))
       else Ret None)
    (fun _ => Ret None).

(** Step 14: the sender holds the token, unlocked, with enough balance. *)
Definition checkMptHolder (client : Client) (account' : string)
    (mptAmount : AmountValue) : Prog (option VerifyResponse) :=
  try_catch
    (result ← request client
       {[ "command" := JStr "ledger_entry";
          "mptoken" := JObj {[ "mpt_issuance_id" := amount_prop mptAmount "mpt_issuance_id";
                               "account" := JStr account' ]} ]};
     node ← lift (ledger_entry_node result);
     if negb (truthy node) then
       Ret (Some (invalid "mpt_holder_not_authorized"))
     else
       let flags := flags_of node in
       if negb (bit_and flags 0x0001 =? 0)%Z then
         Ret (Some (invalid "mpt_holder_locked"))
       else
         let balance := match js_get node "MPTAmount" with
                        | JStr s => parseFloat s
                        | _ => float_zero
                        end in
         let required := parseFloat (to_string (amount_prop mptAmount "value")) in
         if num_lt balance required then
           Ret (Some (invalid "mpt_insufficient_balance"))
         else Ret None)
    (fun _ => Ret None).

(** Step 15: the destination can receive the token. *)
Definition checkMptDestination (client : Client) (destination' : string)
    (issuanceId' : JsValue) : Prog (option VerifyResponse) :=
  try_catch
    (result ← request client
       {[ "command" := JStr "ledger_entry";
          "mptoken" := JObj {[ "mpt_issuance_id" := issuanceId';
                               "account" := JStr destination' ]} ]};
     node ← lift (ledger_entry_node result);
     if negb (truthy node) then
       Ret (Some (invalid "mpt_destination_not_authorized"))
     else
       let flags := flags_of node in
       if negb (bit_and flags 0x0001 =? 0)%Z then
         Ret (Some (invalid "mpt_destination_locked"))
       else Ret None)
    (fun _ => Ret None).

(** ** The verification pipeline (src/facilitator/verify.ts) *)

(** [if (step) return step;] *)
Definition or_else {A} (step : option A) (rest : Prog A) : Prog A :=
  match step with
  | Some r => Ret r
  | None => rest
  end.

Notation "'check!' step ; rest" := (or_else step rest)
  (at level 20, step at level 100, rest at level 200, only parsing).

(** Run the full pipeline.  The client is optional: without it only the
    offline steps run. *)
Definition verify (lib : XrplLib) (payload : ExactXrplPayload)
    (requirements : PaymentRequirements) (client : option Client)
  : Prog VerifyResponse :=
  let auth := authorization payload in
  (* Step 1: decode *)
  match decodeTxBlob lib (txBlob payload) with
  | inr decodeResult => Ret decodeResult
  | inl tx =>
      (* Step 2: validate *)
      check! validateTransaction lib tx;
      (* Step 3: signature *)
      check! verifyTxSignature lib (txBlob payload);
      (* Step 4: cross-check *)
      check! crossCheckAuthorization tx payload;
      (* Step 5: destination *)
      check! checkDestination payload requirements;
      (* Step 6: amount *)
      check! checkAmount payload requirements;
      (* Step 7: asset *)
      step7 ← lift (checkAsset payload requirements);
      check! step7;
      (* Step 8: partial payment *)
      check! rejectPartialPayment tx;
      (* Step 12: MPT allowlist, a local check *)
      step12 ← lift (if isMPTAmount (amount auth)
                     then checkMptAllowlist (network requirements) (amount auth)
                     else Returned None);
      check! step12;
      (* Network steps, only if a client is provided *)
      match client with
      | Some client =>
          (* Step 9: balance and sequence or ticket *)
          step9 ← checkAccountBalance client (account auth) (amount auth)
                     (fee auth) (sequence auth) (ticketSequence auth);
          check! step9;
          (* Step 10: ledger expiry *)
          step10 ← checkLedgerExpiry client (lastLedgerSequence auth);
          check! step10;
          (* Step 11: trust line, issued currency only *)
          step11 ← (if isIssuedCurrencyAmount (amount auth)
                    then checkTrustLine client (destination auth) (amount auth)
                    else Ret None);
          check! step11;
          (* Steps 13-15: MPT-specific network checks *)
          if isMPTAmount (amount auth) then
            let mptAmount := amount auth in
            let issuanceId' := amount_prop mptAmount "mpt_issuance_id" in
            step13 ← checkMptIssuance client issuanceId';
            check! step13;
            step14 ← checkMptHolder client (account auth) mptAmount;
            check! step14;
            step15 ← checkMptDestination client (destination auth) issuanceId';
            check! step15;
            Ret valid
          else Ret valid
      | None => Ret valid
      end
  end.

(** ** Settlement (src/facilitator/settle.ts) *)

(** Map XRPL engine result codes to error reasons.  The key is the run-time
    value converted to a property name; the map is an object literal, so a
    key that is the name of an inherited property finds that property, which
    is not [null] or [undefined] and is returned as it is. *)
Definition mapEngineResult (engineResult : JsValue) : ErrorReason :=
  let map : gmap string string :=
    list_to_map [ ("tecPATH_DRY", "destination_cannot_receive_asset");
       ("tecUNFUNDED_PAYMENT", "insufficient_funds");
       ("tecNO_DST", "destination_account_not_found");
       ("tecNO_DST_INSUF_XRP", "destination_below_reserve");
       ("tecFROZEN", "asset_frozen");
       ("tefPAST_SEQ", "transaction_expired_sequence");
       ("tefMAX_LEDGER", "transaction_expired_ledger");
       ("tefALREADY", "transaction_already_applied");
       ("temBAD_AMOUNT", "invalid_amount");
       ("temBAD_FEE", "invalid_fee");
       ("temDST_IS_SRC", "destination_is_source");
       ("tecMPTOKEN_NOT_AUTHORIZED", "mpt_not_authorized");
       ("tecMPT_NOT_ENABLED", "mpt_not_enabled");
       ("tecMPT_LOCKED", "mpt_locked");
       ("tecMPT_MAX_AMOUNT_EXCEEDED", "mpt_max_amount_exceeded") ] in
  match map !! to_string engineResult with
  | Some reason => Reason reason
  | None =>
      if inherited (to_string engineResult)
      then InheritedMember (to_string engineResult)
      else Reason ("settlement_failed: " +:+ to_string engineResult)
  end.

(** [v ?? d] *)
Definition nullish_or (v d : JsValue) : JsValue := if nullish v then d else v.

(** One polling attempt on a reply of the [tx] command: [Some] result when
    the ledger reports the transaction validated, [None] to keep polling. *)
Definition inspect_tx (txHash txResult : JsValue) : Outcome (option SettleResponse) :=
  result ← js_prop txResult "result";
  validated ← js_prop result "validated";
  if truthy validated then
    meta ← js_prop result "meta";
    present ← (if is_object meta && negb (strict_eq meta JNull)
               then js_in "TransactionResult" meta else Returned false);
    let finalResult := if present : bool then js_get meta "TransactionResult"
                       else JUndefined in
    if strict_eq finalResult (JStr "tesSUCCESS") then
      let txJson := js_get result "tx_json" in
      let Account := if nullish txJson then JUndefined else js_get txJson "Account" in
      mret (Some {| success := true;
                    transaction := Some txHash;
                    settledNetwork := Some EmptyString;
                    payer := match Account with JStr a => Some a | _ => None end;
                    errorReason := None |})
    else
      mret (Some {| success := false;
                    errorReason := Some (if truthy finalResult
                                         then mapEngineResult finalResult
                                         else Reason "settlement_failed");
                    transaction := Some txHash;
                    settledNetwork := Some EmptyString;
                    payer := None |})
  else mret None.

(** The polling loop, with [attempts] attempts left. *)
Fixpoint poll (client : Client) (txHash : JsValue) (pollIntervalMs : Z)
    (attempts : nat) : Prog SettleResponse :=
  match attempts with
  | O =>
      Ret {| success := false;
             errorReason := Some (Reason "settlement_timeout");
             transaction := Some txHash;
             settledNetwork := Some EmptyString;
             payer := None |}
  | S attempts' =>
      found ← try_catch
        (txResult ← request client {[ "command" := JStr "tx";
                                      "transaction" := txHash ]};
         lift (inspect_tx txHash txResult))
        (fun _ => Ret None);
      match found with
      | Some r => Ret r
      | None => Sleep pollIntervalMs (poll client txHash pollIntervalMs attempts')
      end
  end.

(** Submit a signed txBlob and wait for the validated result. *)
Definition submitAndWait (client : Client) (txBlob' : string)
    (maxAttempts : nat) (pollIntervalMs : Z) : Prog SettleResponse :=
  submitResult ← submit client txBlob';
  engineResult ← lift (result ← js_prop submitResult "result";
                       js_prop result "engine_result");
  txHash ← lift (result ← js_prop submitResult "result";
                 tx_json ← js_prop result "tx_json";
                 js_prop tx_json "hash");
  (* Permanent failures *)
  permanent ← lift (tef ← js_startsWith engineResult "tef";
                    if tef : bool then Returned true
                    else js_startsWith engineResult "tem");
  if permanent : bool then
    Ret {| success := false;
           errorReason := Some (mapEngineResult engineResult);
           transaction := Some (nullish_or txHash (JStr EmptyString));
           settledNetwork := Some EmptyString;
           payer := None |}
  else
    (* tec codes are also final *)
    tec ← lift (js_startsWith engineResult "tec");
    if tec : bool then
      Ret {| success := false;
             errorReason := Some (mapEngineResult engineResult);
             transaction := Some (nullish_or txHash (JStr EmptyString));
             settledNetwork := Some EmptyString;
             payer := None |}
    else if negb (truthy txHash) then
      Ret {| success := false;
             errorReason := Some (Reason "no_transaction_hash");
             settledNetwork := Some EmptyString;
             transaction := None;
             payer := None |}
    else poll client txHash pollIntervalMs maxAttempts.

(** The default arguments of [submitAndWait]. *)
Definition defaultMaxAttempts : nat := 10.
Definition defaultPollIntervalMs : Z := 1000.

(** ** Fees (src/facilitator/fee.ts) *)

(** Fee schedule: amounts in drops; [None] is free, ["0"] is no charge. *)
Record FeeSchedule := {
  standard : option string;
  mpt : option string;
  crossCurrency : option string;
}.

Definition FEE_SCHEDULE : FeeSchedule :=
  {| standard := None; mpt := Some "0"; crossCurrency := Some "0" |}.

(** The process environment. *)
Record Env := {
  FACILITATOR_ADDRESS : option string;
}.

Definition getFacilitatorAddress (env : Env) : option string :=
  FACILITATOR_ADDRESS env.

(** Truthiness of an optional string: absent and empty are falsy. *)
Definition present (o : option string) : bool :=
  match o with
  | Some s => negb (String.eqb s EmptyString)
  | None => false
  end.

(** The string of a truthy optional string. *)
Definition truthy_string (o : option string) : option string :=
  match o with
  | Some s => if String.eqb s EmptyString then None else Some s
  | None => None
  end.

(** Verify the fee transaction payload. *)
Definition verifyFeePayload (lib : XrplLib) (env : Env) (payload : ExactXrplPayload)
    (expectedFeeAmount : option string) : option VerifyResponse :=
  match expectedFeeAmount with
  | None => None
  | Some expected =>
      if String.eqb expected "0" then None
      else
        let facilitatorAddress := getFacilitatorAddress env in
        if negb (present facilitatorAddress) then
          if negb (present (feeTxBlob payload)) && negb (bool_decide (is_Some (feeAuthorization payload)))
          then None
          else Some (invalid "fee_facilitator_not_configured")
        else
          match feeTxBlob payload, feeAuthorization payload with
          | Some blob, Some feeAuth =>
              if negb (present (Some blob)) then Some (invalid "fee_payment_required")
              else
                match decode lib blob with
                | Thrown _ => Some (invalid "fee_invalid_tx_blob")
                | Returned feeTx =>
                    match verifySignature lib blob with
                    | Thrown _ => Some (invalid "fee_signature_verification_failed")
                    | Returned false => Some (invalid "fee_invalid_signature")
                    | Returned true =>
                        if strict_neq (record_get feeTx "Account") (JStr (feeAccount feeAuth)) then
                          Some (invalid "fee_authorization_mismatch_account")
                        else if strict_neq (record_get feeTx "Destination")
                                           (JStr (feeDestination feeAuth)) then
                          Some (invalid "fee_authorization_mismatch_destination")
                        else if strict_neq (record_get feeTx "Amount")
                                           (JStr (feeAmount feeAuth)) then
                          Some (invalid "fee_authorization_mismatch_amount")
                        else if negb (bool_decide (Some (feeDestination feeAuth)
                                                   = facilitatorAddress)) then
                          Some (invalid "fee_wrong_destination")
                        else if negb (String.eqb (feeAmount feeAuth) expected) then
                          Some (invalid "fee_wrong_amount")
                        else if negb (String.eqb (feeAccount feeAuth)
                                                 (account (authorization payload))) then
                          Some (invalid "fee_payer_mismatch")
                        else None
                    end
                end
          | _, _ => Some (invalid "fee_payment_required")
          end
  end.

(** [`${v}`] for an optional field. *)
Definition show {A} (f : A → string) (o : option A) : string :=
  match o with
  | Some a => f a
  | None => "undefined"
  end.

(** Two-phase settlement: submit the fee transaction after the merchant
    transaction succeeded.  A fee failure is logged and does not affect the
    merchant result. *)
Definition settleWithFee (client : Client) (merchantResult : SettleResponse)
    (feeTxBlob' : string) (network' : string) : Prog SettleResponse :=
  if negb (success merchantResult) then Ret merchantResult
  else
    _ ← try_catch
      (feeResult ← submitAndWait client feeTxBlob' defaultMaxAttempts defaultPollIntervalMs;
       if negb (success feeResult) then
         Warn ("[fee] Fee settlement failed (merchant tx "
               +:+ show to_string (transaction merchantResult) +:+ "): "
               +:+ show reason_to_string (errorReason feeResult)) (Ret tt)
       else Ret tt)
      (fun err =>
         Warn ("[fee] Fee settlement error (merchant tx "
               +:+ show to_string (transaction merchantResult) +:+ "): " +:+ err) (Ret tt));
    Ret merchantResult.

(** [merchantResult.network = network] *)
Definition set_network (r : SettleResponse) (network' : string) : SettleResponse :=
  {| success := success r;
     transaction := transaction r;
     settledNetwork := Some network';
     payer := payer r;
     errorReason := errorReason r |}.

(** Full settlement: re-verify, submit, wait.  The fee schedule is the
    module constant [FEE_SCHEDULE] in the source; [settle_with] takes it as
    an argument and [settle] fixes it. *)
Definition settle_with (schedule : FeeSchedule) (lib : XrplLib) (env : Env)
    (payload : ExactXrplPayload) (requirements : PaymentRequirements)
    (client : Client) (network' : string) : Prog SettleResponse :=
  (* Re-verify with network checks *)
  verifyResult ← verify lib payload requirements (Some client);
  if negb (isValid verifyResult) then
    Ret {| success := false;
           errorReason := Some (Reason (default "verification_failed"
                                          (invalidReason verifyResult)));
           settledNetwork := Some network';
           transaction := None;
           payer := None |}
  else
    (* Fee verification for paid-tier assets (MPT) *)
    let feeCheck := if isMPTAmount (amount (authorization payload))
                    then verifyFeePayload lib env payload (mpt schedule)
                    else None in
    match feeCheck with
    | Some feeCheck =>
        Ret {| success := false;
               errorReason := Reason <$> invalidReason feeCheck;
               settledNetwork := Some network';
               transaction := None;
               payer := None |}
    | None =>
        (* The promise of [settleWithFee] is returned from inside the [try]
           without being awaited, so it is outside the reach of the [catch]. *)
        next ← try_catch
          (merchantResult ← submitAndWait client (txBlob payload)
                              defaultMaxAttempts defaultPollIntervalMs;
           let merchantResult := set_network merchantResult network' in
           match truthy_string (feeTxBlob payload) with
           | Some feeTxBlob' =>
               if success merchantResult
               then Ret (inl (merchantResult, feeTxBlob'))
               else Ret (inr merchantResult)
           | None => Ret (inr merchantResult)
           end)
          (fun err =>
             Ret (inr {| success := false;
                         errorReason := Some (Reason ("settlement_error: " +:+ err));
                         settledNetwork := Some network';
                         transaction := None;
                         payer := None |}));
        match next with
        | inl (merchantResult, feeTxBlob') =>
            settleWithFee client merchantResult feeTxBlob' network'
        | inr result => Ret result
        end
    end.

Definition settle : XrplLib → Env → ExactXrplPayload → PaymentRequirements →
                    Client → string → Prog SettleResponse :=
  settle_with FEE_SCHEDULE.

(** ** Notions used to state the properties *)

Fixpoint string_forall (P : ascii → bool) (s : string) : bool :=
  match s with
  | EmptyString => true
  | String c r => P c && string_forall P r
  end.

Definition is_dec_digit (c : ascii) : bool :=
  match dec_digit c with
  | Some _ => true
  | None => false
  end.

(** One or more decimal digits. *)
Definition digit_string (s : string) : bool :=
  negb (String.eqb s EmptyString) && string_forall is_dec_digit s.

(** The integer a digit string denotes, by the weight of each position. *)
Fixpoint positional_value (s : string) : Z :=
  match s with
  | EmptyString => 0
  | String c r =>
      default 0 (dec_digit c) * 10 ^ Z.of_nat (String.length r) + positional_value r
  end%Z.

(** [IntegerString s z]: [s] is an integer string, an optional sign and one
    or more decimal digits, and denotes [z]. *)
Inductive IntegerString : string → Z → Prop :=
| IntegerString_plain d :
    digit_string d = true → IntegerString d (positional_value d)
| IntegerString_plus d :
    digit_string d = true → IntegerString (String "+" d) (positional_value d)
| IntegerString_minus d :
    digit_string d = true → IntegerString (String "-" d) (- positional_value d).

(** [n] characters ["0"]. *)
Fixpoint zeros (n : nat) : string :=
  match n with
  | O => EmptyString
  | S n' => String "0" (zeros n')
  end.

(** A plain decimal literal: an optional sign, one or more integer digits,
    a point, and fraction digits. *)
Definition is_sign (s : string) : bool :=
  String.eqb s EmptyString || String.eqb s "+" || String.eqb s "-".

Definition decimal_literal (sign ip fp : string) : string :=
  sign +:+ ip +:+ String "." fp.

(** The rational number an unsigned plain decimal denotes: its digits read
    as an integer, over ten to the number of fraction digits. *)
Definition decimal_value (ip fp : string) : Q :=
  positional_value (ip +:+ fp) # Z.to_pos (10 ^ Z.of_nat (String.length fp)).

(** The binary64 value of a whole number from 0 to 2^53 - 1, which is
    exact: the mantissa is the number shifted left to 53 bits, the exponent
    is lowered by as much. *)
Definition normal53 (p : positive) : spec_float :=
  let d := Zpos (digits2_pos p) in
  S754_finite false (Z.to_pos (Zpos p * 2 ^ (53 - d))) (d - 53).

Definition whole53 (n : Z) : spec_float :=
  match n with
  | Z0 => S754_zero false
  | Zpos p => normal53 p
  | Zneg _ => S754_nan
  end.

(** The payload with another amount, the amount object with another
    [value], the decoded transaction with another [Amount.value], and the
    requirements with another required amount. *)
Definition with_amount (payload : ExactXrplPayload) (a : AmountValue) : ExactXrplPayload :=
  let auth := authorization payload in
  {| txBlob := txBlob payload;
     authorization := {| account := account auth;
                         destination := destination auth;
                         amount := a;
                         fee := fee auth;
                         sequence := sequence auth;
                         ticketSequence := ticketSequence auth;
                         lastLedgerSequence := lastLedgerSequence auth |};
     feeTxBlob := feeTxBlob payload;
     feeAuthorization := feeAuthorization payload |}.

Definition set_value (o : gmap string JsValue) (v : string) : gmap string JsValue :=
  <["value" := JStr v]> o.

Definition with_tx_amount (tx : gmap string JsValue) (a : gmap string JsValue)
  : gmap string JsValue :=
  <["Amount" := JObj a]> tx.

Definition with_required (requirements : PaymentRequirements) (m : string)
  : PaymentRequirements :=
  {| scheme := scheme requirements;
     network := network requirements;
     payTo := payTo requirements;
     maxAmountRequired := m;
     asset := asset requirements |}.

(** The offline steps as standalone functions of the payload and the
    requirements, numbered as in the pipeline.  A step that works on the
    decoded transaction has nothing to check when the blob does not decode. *)
Definition offline_step (lib : XrplLib) (payload : ExactXrplPayload)
    (requirements : PaymentRequirements) (n : nat) : Outcome (option VerifyResponse) :=
  let on_tx (f : gmap string JsValue → option VerifyResponse) :=
    match decodeTxBlob lib (txBlob payload) with
    | inl tx => f tx
    | inr _ => None
    end in
  match n with
  | 1 => Returned match decodeTxBlob lib (txBlob payload) with
                  | inl _ => None
                  | inr r => Some r
                  end
  | 2 => Returned (on_tx (validateTransaction lib))
  | 3 => Returned (verifyTxSignature lib (txBlob payload))
  | 4 => Returned (on_tx (fun tx => crossCheckAuthorization tx payload))
  | 5 => Returned (checkDestination payload requirements)
  | 6 => Returned (checkAmount payload requirements)
  | 7 => checkAsset payload requirements
  | 8 => Returned (on_tx rejectPartialPayment)
  | _ => Returned None
  end%nat.

(** The program awaits no [submit]. *)
Fixpoint no_submit {A} (p : Prog A) : Prop :=
  match p with
  | Ret _ | Raise _ => True
  | Await c k =>
      match c with CallSubmit _ => False | _ => True end ∧ ∀ r, no_submit (k r)
  | Sleep _ k | Warn _ k => no_submit k
  end.

(** The program first awaits [submit(blob)] and no other [submit] after. *)
Definition submits_once {A} (blob : string) (p : Prog A) : Prop :=
  match p with
  | Await (CallSubmit b) k => b = blob ∧ ∀ r, no_submit (k r)
  | _ => False
  end.

(** ** Sample data: a table-driven SDK, ledgers and payloads *)

Definition sample_tx (amount' : JsValue) (signature : string) : gmap string JsValue :=
  list_to_map [ ("TransactionType", JStr "Payment"); ("Account", JStr "rSender");
                ("Destination", JStr "rMerchant"); ("Fee", JStr "12");
                ("Sequence", JNum 7); ("Amount", amount');
                ("TxnSignature", JStr signature) ].

(** Blobs are the names of the transactions of this table. *)
Definition sample_blobs : gmap string (gmap string JsValue) :=
  list_to_map
    [ ("PAY_XRP", sample_tx (JStr "1000000") "good");
      ("PAY_XRP_LOW", sample_tx (JStr "999999") "good");
      ("PAY_XRP_LOW_FORGED", sample_tx (JStr "999999") "forged");
      ("PAY_USD", sample_tx (JObj {[ "currency" := JStr "USD"; "issuer" := JStr "rIssuer";
                                     "value" := JStr "25.5" ]}) "good");
      ("FEE", sample_tx (JStr "1000") "good") ].

Definition sample_lib : XrplLib :=
  {| decode blob := match sample_blobs !! blob with
                    | Some tx => Returned tx
                    | None => Thrown "Invalid blob"
                    end;
     validate tx := if strict_eq (record_get tx "TransactionType") (JStr "Payment")
                    then Returned tt else Thrown "Invalid transaction";
     verifySignature blob := match sample_blobs !! blob with
                             | Some tx => Returned (strict_eq (record_get tx "TxnSignature")
                                                              (JStr "good"))
                             | None => Thrown "Invalid blob"
                             end |}.

Definition sample_payload (blob : string) (a : AmountValue) (feeBlob : option string)
  : ExactXrplPayload :=
  {| txBlob := blob;
     authorization := {| account := "rSender"; destination := "rMerchant"; amount := a;
                         fee := "12"; sequence := 7; ticketSequence := None;
                         lastLedgerSequence := None |};
     feeTxBlob := feeBlob;
     feeAuthorization := None |}.

Definition sample_requirements (required asset' : string) : PaymentRequirements :=
  {| scheme := "exact"; network := "xrpl:1"; payTo := "rMerchant";
     maxAmountRequired := required; asset := asset' |}.

(** A ledger whose every call is a transport error. *)
Definition unreachable_ledger : Ledger :=
  {| ledger_state := unit;
     respond c s := (Thrown "timeout", s) |}.

(** A scripted ledger: [account_info] reports the given account sequence
    (or is unreachable), [tx] reports every transaction validated with
    success, [submit] answers as told; the other calls are unreachable. *)
Definition scripted_ledger (accountSequence : option Z)
    (on_submit : string → Outcome JsValue) : Ledger :=
  {| ledger_state := unit;
     respond c s :=
       (match c return Outcome (Reply c) with
        | CallRequest req =>
            match req !! "command" with
            | Some (JStr "tx") =>
                Returned (JObj {[ "result" := JObj
                  {[ "validated" := JBool true;
                     "meta" := JObj {[ "TransactionResult" := JStr "tesSUCCESS" ]};
                     "tx_json" := JObj {[ "Account" := JStr "rSender" ]} ]} ]})
            | Some (JStr "account_info") =>
                match accountSequence with
                | Some n =>
                    Returned (JObj {[ "result" := JObj
                      {[ "account_data" := JObj {[ "Balance" := JStr "100000000";
                                                   "Sequence" := JNum n ]} ]} ]})
                | None => Thrown "timeout"
                end
            | _ => Thrown "timeout"
            end
        | CallGetLedgerIndex => Thrown "timeout"
        | CallSubmit blob => on_submit blob
        end, s) |}.

(** The reply of [submit] with the given engine result and hash. *)
Definition submit_reply (engine_result hash : string) : JsValue :=
  JObj {[ "result" := JObj {[ "engine_result" := JStr engine_result;
                              "tx_json" := JObj {[ "hash" := JStr hash ]} ]} ]}.

(** [{ success: false, errorReason: reason, network }] *)
Definition settle_failure (reason : option string) (network' : string) : SettleResponse :=
  {| success := false;
     errorReason := Reason <$> reason;
     settledNetwork := Some network';
     transaction := None;
     payer := None |}.

(** The fee check [settle] performs before submitting. *)
Definition fee_check (schedule : FeeSchedule) (lib : XrplLib) (env : Env)
    (payload : ExactXrplPayload) : option VerifyResponse :=
  if isMPTAmount (amount (authorization payload))
  then verifyFeePayload lib env payload (mpt schedule)
  else None.

(** Sample payloads and requirements. *)

(** A blob that is not a transaction, with too small an amount. *)
Definition garbage_payload : ExactXrplPayload :=
  sample_payload "zz" (AmtString "999999") None.

(** A well-formed payment of 999999 drops whose signature does not verify. *)
Definition forged_low_payload : ExactXrplPayload :=
  sample_payload "PAY_XRP_LOW_FORGED" (AmtString "999999") None.

(** A valid payment of 1000000 drops. *)
Definition xrp_payload : ExactXrplPayload :=
  sample_payload "PAY_XRP" (AmtString "1000000") None.

(** The same payment carrying a fee blob. *)
Definition xrp_payload_with_fee : ExactXrplPayload :=
  sample_payload "PAY_XRP" (AmtString "1000000") (Some "FEE").

Definition xrp_requirements : PaymentRequirements :=
  sample_requirements "1000000" "XRP".

(** Requirements whose asset is neither ["XRP"], nor an address, nor
    ["mpt:..."]. *)
Definition usd_requirements : PaymentRequirements :=
  sample_requirements "1000000" "USD".

(** An amount object with the fields of both object variants. *)
Definition mixed_amount : AmountValue :=
  AmtObject {[ "currency" := JStr "USD"; "issuer" := JStr "rIssuer";
               "value" := JStr "25.5"; "mpt_issuance_id" := JStr "abc" ]}.

Definition mixed_payload : ExactXrplPayload :=
  sample_payload "PAY_USD" mixed_amount None.

Definition issuer_requirements : PaymentRequirements :=
  sample_requirements "25.5" "rIssuer".

Definition no_facilitator : Env := {| FACILITATOR_ADDRESS := None |}.

(** A decoded payment of 25.5 units of an issued currency, and of an MPT. *)
Definition usd_tx : gmap string JsValue :=
  sample_tx (JObj {[ "currency" := JStr "USD"; "issuer" := JStr "rIssuer";
                     "value" := JStr "25.5" ]}) "good".

Definition mpt_tx : gmap string JsValue :=
  sample_tx (JObj {[ "mpt_issuance_id" := JStr "00000001A407AF58";
                     "value" := JStr "25.5" ]}) "good".

(** Ledgers for the settlement scenarios: every submission is accepted;
    the fee submission is a transport error; every submission is refused
    as unfunded. *)
Definition accepting_ledger (accountSequence : Z) : Ledger :=
  scripted_ledger (Some accountSequence)
    (fun _ => Returned (submit_reply "tesSUCCESS" "HASH")).

Definition fee_failing_ledger : Ledger :=
  scripted_ledger (Some 7%Z)
    (fun blob => if String.eqb blob "FEE" then Thrown "fee submission failed"
                 else Returned (submit_reply "tesSUCCESS" "HASH")).

Definition unfunded_ledger : Ledger :=
  scripted_ledger (Some 7%Z)
    (fun _ => Returned (submit_reply "tecUNFUNDED_PAYMENT" "HASH")).

(** A schedule that charges MPT payments. *)
Definition charging_schedule : FeeSchedule :=
  {| standard := None; mpt := Some "1000"; crossCurrency := Some "0" |}.

(** ** The two stages of [verify] *)

(** The offline stage of [verify], steps 1 to 8 and 12, as one pure
    function: the first failure, or [None] when every step passes; it throws
    when [checkAsset] or [checkMptAllowlist] does. *)
Definition offline_verdict (lib : XrplLib) (payload : ExactXrplPayload)
    (requirements : PaymentRequirements) : Outcome (option VerifyResponse) :=
  match decodeTxBlob lib (txBlob payload) with
  | inr decodeResult => Returned (Some decodeResult)
  | inl tx =>
      match validateTransaction lib tx with
      | Some r => Returned (Some r)
      | None =>
      match verifyTxSignature lib (txBlob payload) with
      | Some r => Returned (Some r)
      | None =>
      match crossCheckAuthorization tx payload with
      | Some r => Returned (Some r)
      | None =>
      match checkDestination payload requirements with
      | Some r => Returned (Some r)
      | None =>
      match checkAmount payload requirements with
      | Some r => Returned (Some r)
      | None =>
      match checkAsset payload requirements with
      | Thrown msg => Thrown msg
      | Returned (Some r) => Returned (Some r)
      | Returned None =>
      match rejectPartialPayment tx with
      | Some r => Returned (Some r)
      | None =>
          if isMPTAmount (amount (authorization payload))
          then checkMptAllowlist (network requirements) (amount (authorization payload))
          else Returned None
      end end end end end end end
  end.

(** The network stage of [verify], steps 9 to 11 and 13 to 15. *)
Definition network_stage (payload : ExactXrplPayload) (client : Client)
  : Prog VerifyResponse :=
  let auth := authorization payload in
  step9 ← checkAccountBalance client (account auth) (amount auth)
             (fee auth) (sequence auth) (ticketSequence auth);
  check! step9;
  step10 ← checkLedgerExpiry client (lastLedgerSequence auth);
  check! step10;
  step11 ← (if isIssuedCurrencyAmount (amount auth)
            then checkTrustLine client (destination auth) (amount auth)
            else Ret None);
  check! step11;
  if isMPTAmount (amount auth) then
    let mptAmount := amount auth in
    let issuanceId' := amount_prop mptAmount "mpt_issuance_id" in
    step13 ← checkMptIssuance client issuanceId';
    check! step13;
    step14 ← checkMptHolder client (account auth) mptAmount;
    check! step14;
    step15 ← checkMptDestination client (destination auth) issuanceId';
    check! step15;
    Ret valid
  else Ret valid.

(** Every call of the ledger is a transport error. *)
Definition unreachable (L : Ledger) : Prop :=
  ∀ c s, rejected (respond L c s).1 = true.

(** The number of client calls of a trace, and the number of sleeps. *)
Definition is_call (e : Event) : bool :=
  match e with
  | EvCall _ _ => true
  | _ => false
  end.

Definition is_sleep (e : Event) : bool :=
  match e with
  | EvSleep _ => true
  | _ => false
  end.

Definition calls (tr : list Event) : nat := length (List.filter is_call tr).
Definition sleeps (tr : list Event) : nat := length (List.filter is_sleep tr).

(** ** More sample data *)

(** The sample SDK extended with a signed MPT payment. *)
Definition mpt_sample_lib : XrplLib :=
  {| decode blob := if String.eqb blob "PAY_MPT" then Returned mpt_tx
                    else decode sample_lib blob;
     validate := validate sample_lib;
     verifySignature blob := if String.eqb blob "PAY_MPT" then Returned true
                             else verifySignature sample_lib blob |}.

Definition mpt_payload : ExactXrplPayload :=
  sample_payload "PAY_MPT" (MPTAmount "00000001A407AF58" "25.5") None.

Definition mpt_requirements : PaymentRequirements :=
  sample_requirements "25.5" "mpt:00000001A407AF58".

(** The same requirements on a network named after an inherited property. *)
Definition inherited_network_requirements : PaymentRequirements :=
  {| scheme := "exact"; network := "constructor"; payTo := "rMerchant";
     maxAmountRequired := "25.5"; asset := "mpt:00000001A407AF58" |}.

(** An SDK that decodes every blob to a signed payment of 1000000 drops
    carrying [tfPartialPayment]. *)
Definition flagged_lib : XrplLib :=
  {| decode _ := Returned (<["Flags" := JNum 0x00020000]> (sample_tx (JStr "1000000") "good"));
     validate := validate sample_lib;
     verifySignature _ := Returned true |}.

(** The entry [getSupported] advertises for an allowlisted issuance
    (src/facilitator/fee.ts, the [supportedMpts] of a kind). *)
Record SupportedMpt := {
  supported_issuanceId : string;
  supported_name : string;
  supported_issuer : string;
  supported_asset : string;
}.

Definition supportedMpt (mpt : MptConfig) : SupportedMpt :=
  {| supported_issuanceId := issuanceId mpt;
     supported_name := name mpt;
     supported_issuer := issuer mpt;
     supported_asset := "mpt:" +:+ issuanceId mpt |}.

(** Some character of [s] satisfies [P]. *)
Fixpoint string_exists (P : ascii → bool) (s : string) : bool :=
  match s with
  | EmptyString => false
  | String c r => P c || string_exists P r
  end.

(** [s] has a decimal point. *)
Definition has_point (s : string) : bool := string_exists (Ascii.eqb ".") s.

(** A read-only ledger at the given index that answers every request with
    the reply the table gives for its command. *)
Definition replying_ledger (currentLedger : Z) (reply : string → JsValue) : Ledger :=
  {| ledger_state := unit;
     respond c s :=
       (match c return Outcome (Reply c) with
        | CallRequest req => Returned (reply (to_string (record_get req "command")))
        | CallGetLedgerIndex => Returned currentLedger
        | CallSubmit _ => Thrown "read only"
        end, s) |}.

(** The reply of [ledger_entry] with the given node. *)
Definition ledger_entry_reply (node : JsValue) : JsValue :=
  JObj {[ "result" := JObj {[ "node" := node ]} ]}.

(** The reply of [account_lines] with the given lines. *)
Definition account_lines_reply (lines : list JsValue) : JsValue :=
  JObj {[ "result" := JObj {[ "lines" := JArr lines ]} ]}.

(** A trust line. *)
Definition trust_line (currency limit : string) (freeze_peer : bool) : JsValue :=
  JObj {[ "currency" := JStr currency; "limit" := JStr limit;
          "freeze_peer" := JBool freeze_peer ]}.

(** A ledger that accepts every submission with the hash ["HASH"] and
    reports the transaction validated, with the given result, from the
    poll that finds no polls left to wait; its state is that number. *)
Definition validating_ledger (finalResult : string) : Ledger :=
  {| ledger_state := nat;
     respond c s :=
       match c return Outcome (Reply c) * nat with
       | CallRequest req =>
           match s with
           | O => (Returned (JObj {[ "result" := JObj
                     {[ "validated" := JBool true;
                        "meta" := JObj {[ "TransactionResult" := JStr finalResult ]};
                        "tx_json" := JObj {[ "Account" := JStr "rSender" ]} ]} ]}), O)
           | S n => (Returned (JObj {[ "result" := JObj {[ "validated" := JBool false ]} ]}),
                     n)
           end
       | CallGetLedgerIndex => (Thrown "timeout", s)
       | CallSubmit _ => (Returned (submit_reply "tesSUCCESS" "HASH"), s)
       end |}.

(** The request of one poll. *)
Definition tx_request (txHash : JsValue) : LedgerCall :=
  CallRequest {[ "command" := JStr "tx"; "transaction" := txHash ]}.

(** A payment of an MPT that carries a fee transaction, the SDK of the
    samples extended with it, and an environment naming the facilitator. *)
Definition fee_authorization : FeeAuthorization :=
  {| feeAccount := "rSender"; feeDestination := "rMerchant"; feeAmount := "1000";
     feeSequence := 8; feeTicketSequence := None |}.

Definition mpt_payload_with_fee : ExactXrplPayload :=
  {| txBlob := "PAY_MPT";
     authorization := authorization mpt_payload;
     feeTxBlob := Some "FEE";
     feeAuthorization := Some fee_authorization |}.

Definition facilitator_env : Env := {| FACILITATOR_ADDRESS := Some "rMerchant" |}.

(** * Properties *)

(** ** Integer strings and [BigInt] *)

Lemma digits_acc_positional s acc :
  string_forall is_dec_digit s = true →
  digits_acc dec_digit 10 s acc
  = Some (acc * 10 ^ Z.of_nat (String.length s) + positional_value s)%Z.
Proof.
  revert acc.
  induction s as [|c r IH]; intros acc H;
    cbn [digits_acc positional_value String.length].
  - f_equal. cbn. lia.
  - cbn [string_forall] in H. apply andb_prop in H as [Hc Hr].
    unfold is_dec_digit in Hc. destruct (dec_digit c) as [d|]; [|done].
    rewrite IH by done. f_equal. cbn [default].
    rewrite Nat2Z.inj_succ, Z.pow_succ_r by lia. unfold id. ring.
Qed.

Lemma parse_digits_positional d :
  digit_string d = true → parse_digits dec_digit 10 d = Some (positional_value d).
Proof.
  unfold digit_string, parse_digits. intros [Hne Hd]%andb_prop.
  destruct d as [|c r]; [done|].
  rewrite digits_acc_positional by done. f_equal; lia.
Qed.

Lemma digit_not_ws c : is_dec_digit c = true → is_ws c = false.
Proof.
  unfold is_dec_digit, dec_digit, is_ws.
  destruct (48 <=? ascii_code c)%Z eqn:H1; [|done]. intros _.
  apply Z.leb_le in H1.
  apply orb_false_intro; [apply andb_false_intro2|]; lia.
Qed.

Lemma digit_ascii c : is_dec_digit c = true → (ascii_code c < 128)%Z.
Proof.
  unfold is_dec_digit, dec_digit.
  destruct (48 <=? ascii_code c)%Z; [|done].
  destruct (Z.leb_spec (ascii_code c) 57); [lia|done].
Qed.

(** A character below 128 that is not white space starts no white space
    character. *)
Lemma is_ws2_ascii c1 c2 : (ascii_code c1 < 128)%Z → is_ws2 c1 c2 = false.
Proof.
  intros H. unfold is_ws2. destruct (Z.eqb_spec (ascii_code c1) 0xC2); [lia|done].
Qed.

Lemma is_ws3_ascii c1 c2 c3 : (ascii_code c1 < 128)%Z → is_ws3 c1 c2 c3 = false.
Proof.
  intros H. unfold is_ws3.
  destruct (Z.eqb_spec (ascii_code c1) 0xE1); [lia|].
  destruct (Z.eqb_spec (ascii_code c1) 0xE2); [lia|].
  destruct (Z.eqb_spec (ascii_code c1) 0xE3); [lia|].
  destruct (Z.eqb_spec (ascii_code c1) 0xEF); [lia|done].
Qed.

Lemma is_ws_char_ascii c r :
  is_ws c = false → (ascii_code c < 128)%Z → is_ws_char (String c r) = false.
Proof.
  intros Hws Hc. destruct r as [|c2 [|c3 [|c4 r]]]; cbn [is_ws_char]; try done.
  - by apply is_ws2_ascii.
  - by apply is_ws3_ascii.
Qed.

Lemma trim_start_id c r :
  is_ws c = false → (ascii_code c < 128)%Z → trim_start (String c r) = String c r.
Proof.
  intros Hws Hc. cbn [trim_start]. rewrite Hws.
  destruct r as [|c2 r2]; [done|]. rewrite is_ws2_ascii by done.
  destruct r2 as [|c3 r3]; [done|]. by rewrite is_ws3_ascii.
Qed.

Lemma trim_end_id s :
  string_forall (fun c => negb (is_ws c) && (ascii_code c <? 128)%Z) s = true →
  trim_end s = s.
Proof.
  induction s as [|c r IH]; [done|]. cbn [trim_end string_forall].
  intros [[Hc Ha]%andb_prop Hr]%andb_prop.
  rewrite IH by done. apply negb_true_iff in Hc. apply Z.ltb_lt in Ha.
  by rewrite is_ws_char_ascii.
Qed.

Lemma string_forall_impl (P Q : ascii → bool) s :
  (∀ c, P c = true → Q c = true) →
  string_forall P s = true → string_forall Q s = true.
Proof.
  intros HPQ. induction s as [|c r IH]; [done|]. cbn.
  intros [Hc Hr]%andb_prop. rewrite HPQ, IH; done.
Qed.

Lemma digits_no_ws d :
  string_forall is_dec_digit d = true →
  string_forall (fun c => negb (is_ws c) && (ascii_code c <? 128)%Z) d = true.
Proof.
  apply string_forall_impl. intros c H. rewrite digit_not_ws by done.
  apply Z.ltb_lt. by apply digit_ascii.
Qed.

Lemma digit_not_char c (x : ascii) :
  is_dec_digit x = false → is_dec_digit c = true → Ascii.eqb c x = false.
Proof.
  intros Hx Hc. destruct (Ascii.eqb_spec c x) as [->|]; [congruence|done].
Qed.

(** [BigInt] reads an integer string as the integer it denotes. *)
Lemma StringToBigInt_integer s z : IntegerString s z → StringToBigInt s = Some z.
Proof.
  destruct 1 as [d Hd|d Hd|d Hd]; unfold StringToBigInt, trim.
  - pose proof Hd as [Hne Hall]%andb_prop.
    destruct d as [|c r]; [done|].
    pose proof Hall as [Hc Hr]%andb_prop. fold string_forall in *.
    rewrite trim_start_id by (by apply digit_not_ws || by apply digit_ascii).
    rewrite trim_end_id by by apply digits_no_ws.
    rewrite !(digit_not_char c) by done.
    destruct r as [|x r'].
    + by apply parse_digits_positional.
    + pose proof Hr as [Hx _]%andb_prop.
      unfold ascii_in. rewrite !(digit_not_char x) by done.
      rewrite !andb_false_r. by apply parse_digits_positional.
  - pose proof Hd as [Hne Hall]%andb_prop.
    rewrite trim_start_id by done.
    rewrite trim_end_id by (cbn; by rewrite digits_no_ws).
    cbn. by apply parse_digits_positional.
  - pose proof Hd as [Hne Hall]%andb_prop.
    rewrite trim_start_id by done.
    rewrite trim_end_id by (cbn; by rewrite digits_no_ws).
    cbn -[parse_digits]. by rewrite parse_digits_positional.
Qed.
(** ** Decimal literals and [parseFloat] *)

Lemma append_nil_l t : EmptyString +:+ t = t.
Proof. reflexivity. Qed.
Lemma append_cons c s t : String c s +:+ t = String c (s +:+ t).
Proof. reflexivity. Qed.
Lemma append_nil_r s : s +:+ EmptyString = s.
Proof. induction s; rewrite ?append_nil_l, ?append_cons; congruence. Qed.
Lemma append_assoc s t u : (s +:+ t) +:+ u = s +:+ (t +:+ u).
Proof. induction s; rewrite ?append_nil_l, ?append_cons; congruence. Qed.
Lemma length_append s t : String.length (s +:+ t) = (String.length s + String.length t)%nat.
Proof. induction s; rewrite ?append_nil_l, ?append_cons; cbn; congruence. Qed.

Lemma positional_value_app s t :
  positional_value (s +:+ t)
  = (positional_value s * 10 ^ Z.of_nat (String.length t) + positional_value t)%Z.
Proof.
  induction s as [|c r IH]; rewrite ?append_nil_l, ?append_cons; cbn [positional_value].
  - lia.
  - rewrite IH. rewrite length_append, Nat2Z.inj_add, Z.pow_add_r by lia. ring.
Qed.

Lemma zeros_digits n : string_forall is_dec_digit (zeros n) = true.
Proof. induction n; [done|]. cbn [zeros string_forall]. by rewrite IHn. Qed.

Lemma zeros_length n : String.length (zeros n) = n.
Proof. induction n; cbn; congruence. Qed.

Lemma zeros_value n : positional_value (zeros n) = 0%Z.
Proof. induction n; [done|]. cbn [zeros positional_value]. rewrite IHn. done. Qed.

Lemma string_forall_app P s t :
  string_forall P (s +:+ t) = string_forall P s && string_forall P t.
Proof.
  induction s as [|c r IH]; rewrite ?append_nil_l, ?append_cons; cbn; [done|].
  by rewrite IH, andb_assoc.
Qed.

Lemma digits_value_positional s :
  string_forall is_dec_digit s = true → digits_value s = positional_value s.
Proof.
  intros H. unfold digits_value. rewrite digits_acc_positional by done.
  cbn [default]. unfold id. lia.
Qed.

Lemma span_digits_app d t :
  string_forall is_dec_digit d = true →
  span_digits (d +:+ t) = ((d +:+ (span_digits t).1), (span_digits t).2).
Proof.
  induction d as [|c r IH]; rewrite ?append_nil_l, ?append_cons; cbn [string_forall].
  - intros _. by destruct (span_digits t).
  - intros [Hc Hr]%andb_prop. cbn [span_digits].
    unfold is_dec_digit in Hc. destruct (dec_digit c); [|done].
    rewrite IH by done. done.
Qed.

Lemma span_digits_all d :
  string_forall is_dec_digit d = true → span_digits d = (d, EmptyString).
Proof.
  induction d as [|c r IH]; [done|]. cbn [string_forall span_digits].
  intros [Hc Hr]%andb_prop.
  unfold is_dec_digit in Hc. destruct (dec_digit c); [|done].
  by rewrite IH.
Qed.

Lemma digit_head_not_Infinity c r :
  is_dec_digit c = true → startsWith (String c r) "Infinity" = false.
Proof.
  intros Hc. unfold startsWith.
  assert (∀ a s1 b s2, String.prefix (String a s1) (String b s2)
                       = if ascii_dec a b then String.prefix s1 s2 else false) as ->
    by reflexivity.
  destruct (ascii_dec "I" c) as [<-|]; [vm_compute in Hc; discriminate | done].
Qed.

(** The literal read from an unsigned plain decimal. *)
Lemma unsigned_literal_decimal ip fp :
  digit_string ip = true → string_forall is_dec_digit fp = true →
  unsigned_literal (ip +:+ String "." fp)
  = LitDecimal (positional_value (ip +:+ fp)) (- Z.of_nat (String.length fp)).
Proof.
  intros [Hne Hip]%andb_prop Hfp. unfold unsigned_literal.
  destruct ip as [|c r]; [done|].
  pose proof Hip as [Hc _]%andb_prop.
  assert (startsWith (String c r +:+ String "." fp) "Infinity" = false) as ->
    by (rewrite append_cons; by apply digit_head_not_Infinity).
  rewrite span_digits_app by done. cbn [span_digits fst snd].
  replace (dec_digit ".") with (@None Z) by done. cbn [fst snd].
  rewrite append_nil_r. 
  replace (Ascii.eqb "." ".") with true by done.
  rewrite span_digits_all by done.
  replace (String.eqb (String c r) EmptyString) with false by done. cbn [andb].
  rewrite digits_value_positional by (rewrite string_forall_app; by rewrite Hip, Hfp).
  f_equal.
Qed.
Lemma is_sign_cases sign :
  is_sign sign = true → sign = EmptyString ∨ sign = "+" ∨ sign = "-".
Proof.
  unfold is_sign. intros H.
  apply orb_prop in H as [H|H]; [apply orb_prop in H as [H|H]|];
    apply String.eqb_eq in H; auto.
Qed.

Lemma parseFloat_decimal sign ip fp :
  is_sign sign = true → digit_string ip = true →
  string_forall is_dec_digit fp = true →
  parseFloat (decimal_literal sign ip fp)
  = float_of_Q (String.eqb sign "-")
      (scale10 (positional_value (ip +:+ fp)) (- Z.of_nat (String.length fp))).
Proof.
  intros Hs Hip Hfp. unfold parseFloat, decimal_literal.
  destruct (is_sign_cases _ Hs) as [->| [->| ->]].
  - rewrite append_nil_l.
    pose proof Hip as [Hne Hall]%andb_prop.
    destruct ip as [|c r]; [done|]. pose proof Hall as [Hc _]%andb_prop.
    rewrite append_cons. rewrite trim_start_id by (by apply digit_not_ws || by apply digit_ascii).
    rewrite !(digit_not_char c) by done.
    rewrite <- append_cons. by rewrite unsigned_literal_decimal.
  - rewrite append_cons, append_nil_l. rewrite trim_start_id by done.
    replace (Ascii.eqb "+" "-") with false by done.
    replace (Ascii.eqb "+" "+") with true by done.
    by rewrite unsigned_literal_decimal.
  - rewrite append_cons, append_nil_l. rewrite trim_start_id by done.
    replace (Ascii.eqb "-" "-") with true by done.
    by rewrite unsigned_literal_decimal.
Qed.

Lemma Zpos_pow10 n : (0 < n)%Z → Zpos (Pos.pow 10 (Z.to_pos n)) = (10 ^ n)%Z.
Proof.
  intros Hn. rewrite Pos2Z.inj_pow. by rewrite Z2Pos.id.
Qed.

Lemma scale10_zeros m k n :
  (scale10 (m * 10 ^ Z.of_nat n) (- Z.of_nat (k + n)) == scale10 m (- Z.of_nat k))%Q.
Proof.
  unfold scale10, Qeq.
  destruct (0 <=? - Z.of_nat (k + n))%Z eqn:E1; destruct (0 <=? - Z.of_nat k)%Z eqn:E2;
    cbn [Qnum Qden].
  - apply Z.leb_le in E1, E2.
    assert (k = 0%nat) as -> by lia. assert (n = 0%nat) as -> by lia. cbn. lia.
  - apply Z.leb_le in E1. apply Z.leb_gt in E2. lia.
  - apply Z.leb_gt in E1. apply Z.leb_le in E2.
    assert (k = 0%nat) as -> by lia. 
    rewrite Zpos_pow10 by lia. cbn [Nat.add Z.of_nat Z.opp Z.pow].
    rewrite Z.opp_involutive. nia.
  - apply Z.leb_gt in E1, E2. rewrite !Zpos_pow10 by lia.
    rewrite !Z.opp_involutive, Nat2Z.inj_add.
    rewrite Z.pow_add_r by lia. ring.
Qed.

Lemma float_of_Q_proper neg (p q : Q) : (p == q)%Q → float_of_Q neg p = float_of_Q neg q.
Proof. intros H. unfold float_of_Q. by rewrite (Qred_complete _ _ H). Qed.

Lemma decimal_literal_zeros sign ip fp n :
  decimal_literal sign ip fp +:+ zeros n = decimal_literal sign ip (fp +:+ zeros n).
Proof. unfold decimal_literal. by rewrite !append_assoc, append_cons. Qed.

(** Trailing zeros of the fraction do not change the parsed number. *)
Lemma parseFloat_trailing_zeros sign ip fp n :
  is_sign sign = true → digit_string ip = true →
  string_forall is_dec_digit fp = true →
  parseFloat (decimal_literal sign ip fp +:+ zeros n)
  = parseFloat (decimal_literal sign ip fp).
Proof.
  intros Hs Hip Hfp. rewrite decimal_literal_zeros.
  rewrite !parseFloat_decimal
    by (try done; rewrite string_forall_app; by rewrite Hfp, zeros_digits).
  apply float_of_Q_proper.
  rewrite <- append_assoc, positional_value_app, zeros_value, zeros_length.
  rewrite length_append, zeros_length, Z.add_0_r.
  apply scale10_zeros.
Qed.
(** Two plain decimals that denote the same rational parse to the same
    number. *)
Lemma scale10_decimal_value ip fp :
  (scale10 (positional_value (ip +:+ fp)) (- Z.of_nat (String.length fp))
   == decimal_value ip fp)%Q.
Proof.
  unfold scale10, decimal_value, Qeq.
  destruct (0 <=? - Z.of_nat (String.length fp))%Z eqn:E; cbn [Qnum Qden].
  - apply Z.leb_le in E. assert (String.length fp = 0%nat) as -> by lia. cbn. lia.
  - apply Z.leb_gt in E. rewrite Zpos_pow10 by lia.
    rewrite Z.opp_involutive, Z2Pos.id by (apply Z.pow_pos_nonneg; lia). done.
Qed.

Lemma parseFloat_decimal_value sign ip fp :
  is_sign sign = true → digit_string ip = true →
  string_forall is_dec_digit fp = true →
  parseFloat (decimal_literal sign ip fp)
  = float_of_Q (String.eqb sign "-") (decimal_value ip fp).
Proof.
  intros Hs Hip Hfp. rewrite parseFloat_decimal by done.
  apply float_of_Q_proper, scale10_decimal_value.
Qed.

Lemma parseFloat_same_value sign ip1 fp1 ip2 fp2 :
  is_sign sign = true →
  digit_string ip1 = true → string_forall is_dec_digit fp1 = true →
  digit_string ip2 = true → string_forall is_dec_digit fp2 = true →
  (decimal_value ip1 fp1 == decimal_value ip2 fp2)%Q →
  parseFloat (decimal_literal sign ip1 fp1) = parseFloat (decimal_literal sign ip2 fp2).
Proof.
  intros Hs H1 H2 H3 H4 Heq. rewrite !parseFloat_decimal_value by done.
  by apply float_of_Q_proper.
Qed.

(** ** Strict equality *)

Lemma strict_eq_true a b : strict_eq a b = true → a = b.
Proof.
  destruct a, b; cbn; try done.
  - intros H. f_equal. by apply Bool.eqb_prop.
  - intros H. f_equal. by apply Z.eqb_eq.
  - intros H. f_equal. by apply String.eqb_eq.
Qed.

Lemma strict_neq_false a b : strict_neq a b = false → a = b.
Proof. unfold strict_neq. intros H%negb_false_iff. by apply strict_eq_true. Qed.

Lemma strict_neq_str_false v s : strict_neq v (JStr s) = false ↔ v = JStr s.
Proof.
  split; [apply strict_neq_false|].
  intros ->. unfold strict_neq. cbn. by rewrite String.eqb_refl.
Qed.

(** ** Padding a decimal value with zeros *)

Lemma amount_has_set_value o v x k :
  o !! "value" = Some x →
  amount_has (AmtObject (set_value o v)) k = amount_has (AmtObject o) k.
Proof.
  intros Hx. unfold amount_has, set_value.
  destruct (decide (k = "value")) as [->|Hne].
  - rewrite lookup_insert_eq, Hx. done.
  - by rewrite lookup_insert_ne.
Qed.

Lemma isIssuedCurrencyAmount_set_value o v x :
  o !! "value" = Some x →
  isIssuedCurrencyAmount (AmtObject (set_value o v)) = isIssuedCurrencyAmount (AmtObject o).
Proof.
  intros Hx. unfold isIssuedCurrencyAmount.
  by rewrite !(amount_has_set_value _ _ _ _ Hx).
Qed.

Lemma isMPTAmount_set_value o v x :
  o !! "value" = Some x →
  isMPTAmount (AmtObject (set_value o v)) = isMPTAmount (AmtObject o).
Proof.
  intros Hx. unfold isMPTAmount.
  by rewrite !(amount_has_set_value _ _ _ _ Hx).
Qed.

Lemma amount_prop_set_value_ne o v k :
  k ≠ "value" → amount_prop (AmtObject (set_value o v)) k = amount_prop (AmtObject o) k.
Proof. intros H. unfold amount_prop, set_value. by rewrite lookup_insert_ne. Qed.

Lemma amount_prop_set_value o v :
  amount_prop (AmtObject (set_value o v)) "value" = JStr v.
Proof. unfold amount_prop, set_value. by rewrite lookup_insert_eq. Qed.

Lemma record_get_with_tx_amount_ne tx a k :
  k ≠ "Amount" → record_get (with_tx_amount tx a) k = record_get tx k.
Proof. intros H. unfold record_get, with_tx_amount. by rewrite lookup_insert_ne. Qed.

Lemma record_get_with_tx_amount tx a :
  record_get (with_tx_amount tx a) "Amount" = JObj a.
Proof. unfold record_get, with_tx_amount. by rewrite lookup_insert_eq. Qed.

Lemma js_get_set_value_ne t v k :
  k ≠ "value" → js_get (JObj (set_value t v)) k = js_get (JObj t) k.
Proof. intros H. unfold js_get, set_value. by rewrite lookup_insert_ne. Qed.

Lemma js_get_set_value t v : js_get (JObj (set_value t v)) "value" = JStr v.
Proof. unfold js_get, set_value. by rewrite lookup_insert_eq. Qed.

Section Padding.
Context (sign ip fp : string) (n : nat).
Hypothesis Hsign : is_sign sign = true.
Hypothesis Hip : digit_string ip = true.
Hypothesis Hfp : string_forall is_dec_digit fp = true.

Lemma crossCheck_auth_padding tx payload o :
  amount (authorization payload) = AmtObject o →
  o !! "value" = Some (JStr (decimal_literal sign ip fp)) →
  crossCheckAuthorization tx (with_amount payload (AmtObject (set_value o ((decimal_literal sign ip fp) +:+ zeros n))))
  = crossCheckAuthorization tx payload.
Proof.
  intros Ha Hv. unfold crossCheckAuthorization, with_amount.
  cbn [authorization account destination amount fee sequence ticketSequence lastLedgerSequence].
  rewrite Ha.
  rewrite (isIssuedCurrencyAmount_set_value _ _ _ Hv), (isMPTAmount_set_value _ _ _ Hv).
  rewrite !(amount_prop_set_value_ne _ _ "currency"),
    !(amount_prop_set_value_ne _ _ "issuer"),
    !(amount_prop_set_value_ne _ _ "mpt_issuance_id") by done.
  rewrite amount_prop_set_value.
  assert (amount_prop (AmtObject o) "value" = JStr (decimal_literal sign ip fp)) as ->
    by (unfold amount_prop; by rewrite Hv).
  cbn [to_string]. rewrite parseFloat_trailing_zeros by done.
  done.
Qed.

Lemma checkAmount_auth_padding payload requirements o :
  amount (authorization payload) = AmtObject o →
  o !! "value" = Some (JStr (decimal_literal sign ip fp)) →
  checkAmount (with_amount payload (AmtObject (set_value o ((decimal_literal sign ip fp) +:+ zeros n)))) requirements
  = checkAmount payload requirements.
Proof.
  intros Ha Hv. unfold checkAmount, with_amount.
  cbn [authorization amount]. rewrite Ha.
  rewrite (isIssuedCurrencyAmount_set_value _ _ _ Hv), (isMPTAmount_set_value _ _ _ Hv).
  rewrite amount_prop_set_value.
  assert (amount_prop (AmtObject o) "value" = JStr (decimal_literal sign ip fp)) as ->
    by (unfold amount_prop; by rewrite Hv).
  cbn [to_string]. rewrite parseFloat_trailing_zeros by done.
  done.
Qed.

Lemma checkAmount_required_padding payload requirements :
  amount_is_object (amount (authorization payload)) = true →
  maxAmountRequired requirements = (decimal_literal sign ip fp) →
  checkAmount payload (with_required requirements ((decimal_literal sign ip fp) +:+ zeros n))
  = checkAmount payload requirements.
Proof.
  intros Ho Hr. unfold checkAmount, with_required. cbn [maxAmountRequired].
  rewrite Hr. rewrite parseFloat_trailing_zeros by done.
  destruct (isIssuedCurrencyAmount _); [done|]. destruct (isMPTAmount _); [done|].
  destruct (amount (authorization payload)) as [s|o']; [done|]. done.
Qed.

Lemma crossCheck_tx_padding tx payload t :
  tx !! "Amount" = Some (JObj t) →
  t !! "value" = Some (JStr (decimal_literal sign ip fp)) →
  crossCheckAuthorization (with_tx_amount tx (set_value t ((decimal_literal sign ip fp) +:+ zeros n))) payload
  = crossCheckAuthorization tx payload.
Proof.
  intros Ht Hv. unfold crossCheckAuthorization.
  rewrite !(record_get_with_tx_amount_ne _ _ "Account"),
    !(record_get_with_tx_amount_ne _ _ "Destination"),
    !(record_get_with_tx_amount_ne _ _ "Fee"),
    !(record_get_with_tx_amount_ne _ _ "Sequence"),
    !(record_get_with_tx_amount_ne _ _ "TicketSequence"),
    !(record_get_with_tx_amount_ne _ _ "LastLedgerSequence") by done.
  rewrite !record_get_with_tx_amount.
  assert (record_get tx "Amount" = JObj t) as -> by (unfold record_get; by rewrite Ht).
  rewrite !(js_get_set_value_ne _ _ "currency"),
    !(js_get_set_value_ne _ _ "issuer"),
    !(js_get_set_value_ne _ _ "mpt_issuance_id") by done.
  rewrite !js_get_set_value.
  assert (js_get (JObj t) "value" = JStr (decimal_literal sign ip fp)) as -> by (cbn; by rewrite Hv).
  cbn [to_string]. rewrite parseFloat_trailing_zeros by done.
  done.
Qed.
End Padding.

(** ** Running programs *)

Section Runs.
Context (L : Ledger).

Lemma run_bind {A B} (p : Prog A) (f : A → Prog B) (s : ledger_state L) :
  run L (p ≫= f) s =
  match run L p s with
  | (Returned a, s1, t1) => let '(o, s2, t2) := run L (f a) s1 in (o, s2, t1 ++ t2)
  | (Thrown m, s1, t1) => (Thrown m, s1, t1)
  end.
Proof.
  revert s. induction p as [a|m|c k IH|ms k IH|msg k IH]; intros s; cbn.
  - by destruct (run L (f a) s) as [[o s2] t2].
  - done.
  - destruct (respond L c s) as [r s1].
    change (Prog_bind f (k r)) with (k r ≫= f). rewrite IH.
    destruct (run L (k r) s1) as [[[a|m] s2] t2]; [|done].
    by destruct (run L (f a) s2) as [[o s3] t3].
  - change (Prog_bind f k) with (k ≫= f). rewrite IH.
    destruct (run L k s) as [[[a|m] s2] t2]; [|done].
    by destruct (run L (f a) s2) as [[o s3] t3].
  - change (Prog_bind f k) with (k ≫= f). rewrite IH.
    destruct (run L k s) as [[[a|m] s2] t2]; [|done].
    by destruct (run L (f a) s2) as [[o s3] t3].
Qed.

Lemma run_try_catch {A} (p : Prog A) (h : string → Prog A) (s : ledger_state L) :
  run L (try_catch p h) s =
  match run L p s with
  | (Returned a, s1, t1) => (Returned a, s1, t1)
  | (Thrown m, s1, t1) => let '(o, s2, t2) := run L (h m) s1 in (o, s2, t1 ++ t2)
  end.
Proof.
  revert s. induction p as [a|m|c k IH|ms k IH|msg k IH]; intros s; cbn.
  - done.
  - by destruct (run L (h m) s) as [[o s2] t2].
  - destruct (respond L c s) as [r s1]. rewrite IH.
    destruct (run L (k r) s1) as [[[a|m] s2] t2]; [done|].
    by destruct (run L (h m) s2) as [[o s3] t3].
  - rewrite IH. destruct (run L k s) as [[[a|m] s2] t2]; [done|].
    by destruct (run L (h m) s2) as [[o s3] t3].
  - rewrite IH. destruct (run L k s) as [[[a|m] s2] t2]; [done|].
    by destruct (run L (h m) s2) as [[o s3] t3].
Qed.

Lemma submitted_app t1 t2 : submitted (t1 ++ t2) = submitted t1 ++ submitted t2.
Proof. unfold submitted. apply omap_app. Qed.

Lemma run_no_submit {A} (p : Prog A) s o s' tr :
  no_submit p → run L p s = (o, s', tr) → submitted tr = [].
Proof.
  revert s o s' tr.
  induction p as [a|m|c k IH|ms k IH|msg k IH]; intros s o s' tr Hp; cbn.
  - by intros [= <- <- <-].
  - by intros [= <- <- <-].
  - destruct Hp as [Hc Hk]. destruct (respond L c s) as [r s1].
    destruct (run L (k r) s1) as [[o2 s2] t2] eqn:E.
    intros [= <- <- <-]. apply (IH r) in E; [|done].
    destruct c; cbn; done.
  - destruct (run L k s) as [[o2 s2] t2] eqn:E.
    intros [= <- <- <-]. apply IH in E; done.
  - destruct (run L k s) as [[o2 s2] t2] eqn:E.
    intros [= <- <- <-]. apply IH in E; done.
Qed.

Lemma run_submits_once {A} (p : Prog A) blob s o s' tr :
  submits_once blob p → run L p s = (o, s', tr) → submitted tr = [blob].
Proof.
  destruct p as [a|m|c k|ms k|msg k]; try done.
  destruct c as [req| |b]; try done. intros [-> Hk]. cbn.
  destruct (respond L (CallSubmit blob) s) as [r s1].
  destruct (run L (k r) s1) as [[o2 s2] t2] eqn:E.
  intros [= <- <- <-]. cbn. f_equal. by eapply run_no_submit.
Qed.
End Runs.

(** ** Programs that do not submit *)

Lemma no_submit_bind {A B} (p : Prog A) (f : A → Prog B) :
  no_submit p → (∀ a, no_submit (f a)) → no_submit (p ≫= f).
Proof.
  intros Hp Hf. induction p as [a|m|c k IH|ms k IH|msg k IH]; cbn in *.
  - apply Hf.
  - exact I.
  - destruct Hp as [Hc Hk]. split; [done|]. intros r. by apply IH.
  - by apply IH.
  - by apply IH.
Qed.

Lemma no_submit_try_catch {A} (p : Prog A) (h : string → Prog A) :
  no_submit p → (∀ m, no_submit (h m)) → no_submit (try_catch p h).
Proof.
  intros Hp Hf. induction p as [a|m|c k IH|ms k IH|msg k IH]; cbn in *.
  - exact I.
  - apply Hf.
  - destruct Hp as [Hc Hk]. split; [done|]. intros r. by apply IH.
  - by apply IH.
  - by apply IH.
Qed.

Lemma no_submit_lift {A} (x : Outcome A) : no_submit (lift x).
Proof. by destruct x. Qed.

Lemma no_submit_request client req : no_submit (request client req).
Proof. split; [done|]. apply no_submit_lift. Qed.

Lemma no_submit_getLedgerIndex client : no_submit (getLedgerIndex client).
Proof. split; [done|]. apply no_submit_lift. Qed.

Lemma no_submit_or_else {A} (step : option A) (rest : Prog A) :
  no_submit rest → no_submit (or_else step rest).
Proof. by destruct step. Qed.

Create HintDb no_submit.
#[local] Hint Resolve no_submit_lift no_submit_request no_submit_getLedgerIndex : no_submit.

(** Decompose a goal [no_submit p] along the structure of [p]. *)
Ltac no_submit_step :=
  match goal with
  | |- no_submit (Ret _) => exact I
  | |- no_submit (_ ≫= _) => apply no_submit_bind; [|intros ?]
  | |- no_submit (try_catch _ _) => apply no_submit_try_catch; [|intros ?]
  | |- no_submit (or_else _ _) => apply no_submit_or_else
  | |- no_submit (match ?x with _ => _ end) => destruct x
  | |- no_submit _ => solve [eauto with no_submit]
  end.
Ltac no_submit_tac := repeat no_submit_step.

Lemma checkAccountBalance_no_submit client a m f sq t :
  no_submit (checkAccountBalance client a m f sq t).
Proof. unfold checkAccountBalance. no_submit_tac. Qed.

Lemma checkLedgerExpiry_no_submit client lls : no_submit (checkLedgerExpiry client lls).
Proof. unfold checkLedgerExpiry. no_submit_tac. Qed.

Lemma checkTrustLine_no_submit client d a : no_submit (checkTrustLine client d a).
Proof. unfold checkTrustLine. no_submit_tac. Qed.

Lemma checkMptIssuance_no_submit client i : no_submit (checkMptIssuance client i).
Proof. unfold checkMptIssuance. no_submit_tac. Qed.

Lemma checkMptHolder_no_submit client a m : no_submit (checkMptHolder client a m).
Proof. unfold checkMptHolder. no_submit_tac. Qed.

Lemma checkMptDestination_no_submit client d i : no_submit (checkMptDestination client d i).
Proof. unfold checkMptDestination. no_submit_tac. Qed.

#[local] Hint Resolve checkAccountBalance_no_submit checkLedgerExpiry_no_submit
  checkTrustLine_no_submit checkMptIssuance_no_submit checkMptHolder_no_submit
  checkMptDestination_no_submit : no_submit.

(** Verification never submits anything. *)
Lemma verify_no_submit lib payload requirements client :
  no_submit (verify lib payload requirements client).
Proof. unfold verify. no_submit_tac. Qed.

Lemma poll_no_submit client txHash ms n : no_submit (poll client txHash ms n).
Proof.
  induction n as [|n IH]; [exact I|]. cbn [poll]. no_submit_tac.
Qed.
#[local] Hint Resolve poll_no_submit : no_submit.

Lemma submits_once_bind {A} client blob (f : JsValue → Prog A) :
  (∀ a, no_submit (f a)) → submits_once blob (submit client blob ≫= f).
Proof.
  intros Hf. split; [done|]. intros r.
  apply (no_submit_bind (lift r)); [apply no_submit_lift|done].
Qed.

Lemma submitAndWait_submits_once client blob n ms :
  submits_once blob (submitAndWait client blob n ms).
Proof.
  unfold submitAndWait. apply submits_once_bind. intros submitResult. no_submit_tac.
Qed.

(** ** The parts of [settle] *)

Section Settle.
Context (L : Ledger).

(** What [settleWithFee] does on a successful merchant result: it runs the
    fee submission, logs a failure, and returns the merchant result. *)
Lemma run_settleWithFee client m blob net (s : ledger_state L) :
  success m = true →
  ∃ s' tr, run L (settleWithFee client m blob net) s = (Returned m, s', tr)
           ∧ submitted tr = [blob].
Proof.
  intros Hm. unfold settleWithFee. rewrite Hm. cbn [negb].
  rewrite run_bind, run_try_catch, run_bind.
  destruct (run L (submitAndWait _ _ _ _) s) as [[[feeResult|err] s1] t1] eqn:E;
    apply run_submits_once with (blob := blob) in E as Hsub;
    try apply submitAndWait_submits_once.
  - destruct (negb (success feeResult)); cbn;
      eexists _, _; (split; [reflexivity|]);
      rewrite ?submitted_app, Hsub; done.
  - cbn. eexists _, _. split; [reflexivity|].
    rewrite ?submitted_app, Hsub. done.
Qed.

(** [settle] unfolded along the runs of its parts. *)
Lemma run_settle_with schedule lib env payload requirements client net
    (s : ledger_state L) :
  run L (settle_with schedule lib env payload requirements client net) s =
  match run L (verify lib payload requirements (Some client)) s with
  | (Thrown m, s1, t1) => (Thrown m, s1, t1)
  | (Returned v, s1, t1) =>
      if negb (isValid v) then
        (Returned (settle_failure
                     (Some (default "verification_failed" (invalidReason v))) net),
         s1, t1)
      else
        match fee_check schedule lib env payload with
        | Some feeCheck =>
            (Returned (settle_failure (invalidReason feeCheck) net), s1, t1)
        | None =>
            match run L (submitAndWait client (txBlob payload)
                           defaultMaxAttempts defaultPollIntervalMs) s1 with
            | (Thrown err, s2, t2) =>
                (Returned (settle_failure (Some ("settlement_error: " +:+ err)) net),
                 s2, t1 ++ t2)
            | (Returned m, s2, t2) =>
                match truthy_string (feeTxBlob payload) with
                | Some blob =>
                    if success m then
                      let '(o3, s3, t3) :=
                        run L (settleWithFee client (set_network m net) blob net) s2 in
                      (o3, s3, t1 ++ t2 ++ t3)
                    else (Returned (set_network m net), s2, t1 ++ t2)
                | None => (Returned (set_network m net), s2, t1 ++ t2)
                end
            end
        end
  end.
Proof.
  unfold settle_with. rewrite run_bind.
  destruct (run L (verify _ _ _ _) s) as [[[v|m] s1] t1]; [|done].
  destruct (negb (isValid v)); [cbn; by rewrite app_nil_r|].
  fold (fee_check schedule lib env payload).
  destruct (fee_check schedule lib env payload) as [feeCheck|];
    [cbn; by rewrite app_nil_r|].
  rewrite run_bind, run_try_catch, run_bind.
  destruct (run L (submitAndWait _ _ _ _) s1) as [[[m|err] s2] t2].
  - destruct (truthy_string (feeTxBlob payload)) as [blob|].
    + change (success (set_network m net)) with (success m).
      destruct (success m) eqn:Hm.
      * cbn [run]. rewrite !app_nil_r.
        destruct (run L (settleWithFee _ _ _ _) s2) as [[o3 s3] t3].
        by rewrite app_assoc.
      * cbn. by rewrite !app_nil_r.
    + cbn. by rewrite !app_nil_r.
  - cbn. by rewrite !app_nil_r.
Qed.
End Settle.

(** ** Soft failure of the network checks *)

(** Case analysis on the next thing a run depends on: a lifted pure
    expression, a branch, or the reply of the ledger. *)
Ltac run_case :=
  match goal with
  | |- context [lift ?x] => destruct x eqn:?; cbn
  | |- context [run _ (try_catch (match ?x with _ => _ end) _) _] =>
      destruct x eqn:?; cbn
  | |- context [run _ (match ?x with _ => _ end) _] => destruct x eqn:?; cbn
  | |- context [respond ?L ?c ?s] =>
      destruct (respond L c s) as [[?|?] ?] eqn:?; cbn
  end.
Ltac run_cases := cbn; repeat run_case.
Ltac soft_done := intros [= <- <- <-]; cbn; done.

Section SoftFail.
Context (L : Ledger).

Lemma checkAccountBalance_soft client a m f sq t (s : ledger_state L) o s' tr :
  run L (checkAccountBalance client a m f sq t) s = (o, s', tr) →
  some_call_rejected tr = true → o = Returned None.
Proof. unfold checkAccountBalance. run_cases; soft_done. Qed.

Lemma checkLedgerExpiry_soft client lls (s : ledger_state L) o s' tr :
  run L (checkLedgerExpiry client lls) s = (o, s', tr) →
  some_call_rejected tr = true → o = Returned None.
Proof. unfold checkLedgerExpiry. run_cases; soft_done. Qed.

Lemma checkTrustLine_soft client d a (s : ledger_state L) o s' tr :
  run L (checkTrustLine client d a) s = (o, s', tr) →
  some_call_rejected tr = true → o = Returned None.
Proof. unfold checkTrustLine. run_cases; soft_done. Qed.

Lemma checkMptIssuance_soft client i (s : ledger_state L) o s' tr :
  run L (checkMptIssuance client i) s = (o, s', tr) →
  some_call_rejected tr = true → o = Returned None.
Proof. unfold checkMptIssuance. run_cases; soft_done. Qed.

Lemma checkMptHolder_soft client a m (s : ledger_state L) o s' tr :
  run L (checkMptHolder client a m) s = (o, s', tr) →
  some_call_rejected tr = true → o = Returned None.
Proof. unfold checkMptHolder. run_cases; soft_done. Qed.

Lemma checkMptDestination_soft client d i (s : ledger_state L) o s' tr :
  run L (checkMptDestination client d i) s = (o, s', tr) →
  some_call_rejected tr = true → o = Returned None.
Proof. unfold checkMptDestination. run_cases; soft_done. Qed.
End SoftFail.
(** ** The order of the offline steps *)

Lemma verifyTxSignature_reasons lib blob r :
  verifyTxSignature lib blob = Some r →
  r = invalid "invalid_signature" ∨ r = invalid "signature_verification_failed".
Proof.
  unfold verifyTxSignature. destruct (verifySignature lib blob) as [[]|]; cbn; naive_solver.
Qed.

Section OfflineOrder.
Context (L : Ledger) (lib : XrplLib) (payload : ExactXrplPayload)
        (requirements : PaymentRequirements) (client : option Client).

(** The first failing offline step decides the result. *)
Lemma run_verify_first_failure (s : ledger_state L) n r :
  (1 ≤ n ≤ 8)%nat →
  (∀ m, (1 ≤ m < n)%nat → offline_step lib payload requirements m = Returned None) →
  offline_step lib payload requirements n = Returned (Some r) →
  run L (verify lib payload requirements client) s = (Returned r, s, []).
Proof.
  intros Hn Hpass Hfail.
  assert (∀ m, (1 ≤ m < n)%nat → (m ≤ 8)%nat →
               offline_step lib payload requirements m = Returned None) as Hp
    by (intros; by apply Hpass).
  unfold verify. unfold offline_step in *.
  destruct (decodeTxBlob lib (txBlob payload)) as [tx|r1] eqn:E1.
  2:{ destruct (decide (n = 1)) as [->|]; [by injection Hfail as ->|].
      specialize (Hp 1%nat). cbn in Hp. discriminate Hp; lia. }
  destruct n as [|[|[|[|[|[|[|[|[|n]]]]]]]]]; try lia; try discriminate Hfail.
  all: repeat match goal with
       | H : ∀ m, _ → _ → _ = Returned None |- _ =>
           pose proof (H 2%nat); pose proof (H 3%nat); pose proof (H 4%nat);
           pose proof (H 5%nat); pose proof (H 6%nat); pose proof (H 7%nat);
           clear H
       end.
  all: cbn in *.
  all: repeat match goal with
       | H : (?a ≤ ?m < ?n)%nat → _ |- _ =>
           first [ specialize (H ltac:(lia) ltac:(lia)) | clear H ]
       end.
  all: repeat match goal with
       | H : Returned _ = Returned _ |- _ => injection H as H
       end.
  all: repeat match goal with H : _ = None |- _ => rewrite H end; cbn.
  all: repeat match goal with H : _ = Some _ |- _ => rewrite H end; cbn.
  all: try done.
  all: repeat match goal with H : checkAsset _ _ = _ |- _ => rewrite H end; cbn; done.
Qed.
End OfflineOrder.

(** ** Runs of [settle] *)

Lemma fee_check_FEE_SCHEDULE lib env payload :
  fee_check FEE_SCHEDULE lib env payload = None.
Proof. unfold fee_check. by destruct (isMPTAmount _). Qed.

Lemma fee_check_not_mpt schedule lib env payload :
  isMPTAmount (amount (authorization payload)) = false →
  fee_check schedule lib env payload = None.
Proof. unfold fee_check. by intros ->. Qed.

Section SettleRuns.
Context (L : Ledger) (schedule : FeeSchedule) (lib : XrplLib) (env : Env)
        (payload : ExactXrplPayload) (requirements : PaymentRequirements)
        (client : Client) (net : string).

Lemma run_verify_submitted (s : ledger_state L) c o s1 t1 :
  run L (verify lib payload requirements c) s = (o, s1, t1) → submitted t1 = [].
Proof. apply run_no_submit, verify_no_submit. Qed.

Lemma run_submitAndWait_submitted (s : ledger_state L) blob n ms o s1 t1 :
  run L (submitAndWait client blob n ms) s = (o, s1, t1) → submitted t1 = [blob].
Proof. apply run_submits_once, submitAndWait_submits_once. Qed.

(** When verification does not pass, nothing is submitted. *)
Lemma run_settle_verify_failed (s : ledger_state L) v s1 t1 :
  run L (verify lib payload requirements (Some client)) s = (Returned v, s1, t1) →
  isValid v = false →
  run L (settle_with schedule lib env payload requirements client net) s
  = (Returned (settle_failure (Some (default "verification_failed" (invalidReason v))) net),
     s1, t1).
Proof. intros Hv Hf. rewrite run_settle_with, Hv, Hf. done. Qed.

(** The submissions of a run of [settle], by cases. *)
Lemma run_settle_cases (s : ledger_state L) o s' tr :
  run L (settle_with schedule lib env payload requirements client net) s = (o, s', tr) →
  (submitted tr = [] ∧
     ((∃ m, o = Thrown m) ∨ ∃ r, o = Returned r ∧ success r = false))
  ∨ (∃ v s1 t1 o2 s2 t2 t3,
       run L (verify lib payload requirements (Some client)) s = (Returned v, s1, t1)
       ∧ isValid v = true
       ∧ fee_check schedule lib env payload = None
       ∧ run L (submitAndWait client (txBlob payload)
                  defaultMaxAttempts defaultPollIntervalMs) s1 = (o2, s2, t2)
       ∧ tr = t1 ++ t2 ++ t3
       ∧ ((submitted t3 = []
           ∧ ((∃ err, o2 = Thrown err ∧ ∃ r, o = Returned r ∧ success r = false)
              ∨ (∃ m, o2 = Returned m ∧ o = Returned (set_network m net)
                      ∧ (success m = false ∨ truthy_string (feeTxBlob payload) = None))))
          ∨ (∃ m blob, o2 = Returned m ∧ success m = true
                       ∧ truthy_string (feeTxBlob payload) = Some blob
                       ∧ o = Returned (set_network m net)
                       ∧ submitted t3 = [blob]))).
Proof.
  rewrite run_settle_with.
  destruct (run L (verify _ _ _ _) s) as [[[v|m] s1] t1] eqn:Ev.
  2:{ intros [= <- <- <-]. left. split; [by eapply run_verify_submitted|]. eauto. }
  pose proof (run_verify_submitted _ _ _ _ _ Ev) as Ht1.
  destruct (isValid v) eqn:Hv; cbn [negb].
  2:{ intros [= <- <- <-]. left. split; [done|]. right. eauto. }
  destruct (fee_check schedule lib env payload) as [fc|] eqn:Hfc.
  { intros [= <- <- <-]. left. split; [done|]. right. eauto. }
  destruct (run L (submitAndWait _ _ _ _) s1) as [[[m|err] s2] t2] eqn:Es.
  - destruct (truthy_string (feeTxBlob payload)) as [blob|] eqn:Hb.
    + destruct (success m) eqn:Hm.
      * destruct (run_settleWithFee L client (set_network m net) blob net s2 Hm)
          as (s3 & t3 & -> & Ht3).
        intros [= <- <- <-]. right.
        exists v, s1, t1, (Returned m), s2, t2, t3. repeat (split; [done|]).
        right. exists m, blob. done.
      * intros [= <- <- <-]. right.
        exists v, s1, t1, (Returned m), s2, t2, []. rewrite app_nil_r.
        repeat (split; [done|]). left. split; [done|]. right. exists m. auto.
    + intros [= <- <- <-]. right.
      exists v, s1, t1, (Returned m), s2, t2, []. rewrite app_nil_r.
      repeat (split; [done|]). left. split; [done|]. right. exists m. auto.
  - intros [= <- <- <-]. right.
    exists v, s1, t1, (Thrown err), s2, t2, []. rewrite app_nil_r.
    repeat (split; [done|]). left. split; [done|]. left. eauto.
Qed.
End SettleRuns.

(** ** The verdicts on an amount object *)

Lemma strict_neq_refl_str s : strict_neq (JStr s) (JStr s) = false.
Proof. by apply strict_neq_str_false. Qed.

(** The sufficiency verdict on an issued-currency or MPT amount. *)
Lemma checkAmount_object_verdict payload requirements :
  let a := amount (authorization payload) in
  isIssuedCurrencyAmount a = true ∨ isMPTAmount a = true →
  checkAmount payload requirements
  = if isNaN (parseFloat (to_string (amount_prop a "value")))
       || isNaN (parseFloat (maxAmountRequired requirements))
       || num_lt (parseFloat (to_string (amount_prop a "value")))
                 (parseFloat (maxAmountRequired requirements))
    then Some (invalid "insufficient_amount")
    else None.
Proof.
  intros a Ha. unfold checkAmount. fold a.
  destruct (isIssuedCurrencyAmount a); [done|].
  destruct Ha as [Ha|Ha]; [done|]. by rewrite Ha.
Qed.

(** The verdict of the cross-check on the amount, when the account, the
    destination, the fee and the identifying fields of the amount agree. *)
Lemma crossCheck_value_verdict tx payload t :
  let a := amount (authorization payload) in
  record_get tx "Account" = JStr (account (authorization payload)) →
  record_get tx "Destination" = JStr (destination (authorization payload)) →
  record_get tx "Fee" = JStr (fee (authorization payload)) →
  tx !! "Amount" = Some (JObj t) →
  (isIssuedCurrencyAmount a = true
   ∧ strict_neq (js_get (JObj t) "currency") (amount_prop a "currency") = false
   ∧ strict_neq (js_get (JObj t) "issuer") (amount_prop a "issuer") = false)
  ∨ (isIssuedCurrencyAmount a = false ∧ isMPTAmount a = true
     ∧ strict_neq (js_get (JObj t) "mpt_issuance_id") (amount_prop a "mpt_issuance_id")
       = false) →
  crossCheckAuthorization tx payload = Some (invalid "authorization_mismatch_amount")
  ↔ num_neq (parseFloat (to_string (js_get (JObj t) "value")))
            (parseFloat (to_string (amount_prop a "value"))) = true.
Proof.
  intros a Hacc Hdst Hfee Hamt Hfields. unfold crossCheckAuthorization. fold a.
  rewrite Hacc, Hdst, Hfee, !strict_neq_refl_str.
  assert (record_get tx "Amount" = JObj t) as -> by (unfold record_get; by rewrite Hamt).
  assert (negb (is_object (JObj t)) || strict_eq (JObj t) JNull = false) as -> by done.
  assert (∀ c : option VerifyResponse,
            (match c with Some r => Some r | None =>
               match
                 match ticketSequence (authorization payload) with
                 | Some ticket =>
                     if strict_neq (record_get tx "Sequence") (JNum 0)
                        || strict_neq (record_get tx "TicketSequence") (JNum ticket)
                     then Some (invalid "authorization_mismatch_sequence") else None
                 | None =>
                     if strict_neq (record_get tx "Sequence")
                          (JNum (sequence (authorization payload)))
                     then Some (invalid "authorization_mismatch_sequence") else None
                 end
               with
               | Some r => Some r
               | None =>
                   match lastLedgerSequence (authorization payload) with
                   | Some lls =>
                       if strict_neq (record_get tx "LastLedgerSequence") (JNum lls)
                       then Some (invalid "authorization_mismatch_last_ledger_sequence")
                       else None
                   | None => None
                   end
               end
             end = Some (invalid "authorization_mismatch_amount"))
            ↔ c = Some (invalid "authorization_mismatch_amount")) as Hrest.
  { intros [r|]; [split; by intros [= ->]|]. split; [|done].
    destruct (ticketSequence (authorization payload)) as [ticket|];
      [destruct (strict_neq (record_get tx "Sequence") (JNum 0)),
                (strict_neq (record_get tx "TicketSequence") (JNum ticket)); cbn [orb];
         try done
      |destruct (strict_neq (record_get tx "Sequence") _); try done];
      (destruct (lastLedgerSequence (authorization payload)) as [lls|]; [|done]);
      by destruct (strict_neq (record_get tx "LastLedgerSequence") _). }
  rewrite Hrest.
  destruct Hfields as [(-> & -> & ->)|(-> & -> & ->)]; cbn [orb];
    by destruct (num_neq _ _).
Qed.

(** ** The binary64 value of a whole number below 2^53 *)

Lemma digits2_pos_bounds p :
  (2 ^ (Zpos (digits2_pos p) - 1) ≤ Zpos p < 2 ^ Zpos (digits2_pos p))%Z.
Proof.
  induction p as [p IH|p IH|]; cbn [digits2_pos]; [| |cbn; lia].
  all: rewrite Pos2Z.inj_succ.
  all: replace (Z.succ (Z.pos (digits2_pos p)) - 1)%Z
         with (Z.succ (Z.pos (digits2_pos p) - 1))%Z by lia.
  all: rewrite !Z.pow_succ_r by lia; lia.
Qed.

Lemma div_eucl_1 a : Z.div_eucl a 1 = (a, 0%Z).
Proof.
  pose proof (Z.div_1_r a) as Hq. pose proof (Z.mod_1_r a) as Hr.
  unfold Z.div, Z.modulo in Hq, Hr. destruct (Z.div_eucl a 1) as [q r].
  cbn in Hq, Hr. congruence.
Qed.

Lemma Zdigits2_unique q d :
  (2 ^ (d - 1) ≤ Zpos q < 2 ^ d)%Z → Zdigits2 (Zpos q) = d.
Proof.
  intros [Hlo Hhi]. cbn [Zdigits2].
  pose proof (digits2_pos_bounds q) as [Hlo' Hhi'].
  assert (0 < d)%Z.
  { destruct d as [|d|d]; [cbn in Hhi; lia|lia|].
    change (2 ^ Z.neg d)%Z with 0%Z in Hhi. lia. }
  destruct (Z.lt_trichotomy (Zpos (digits2_pos q)) d) as [Hlt|[Heq|Hgt]]; [|done|].
  - assert (2 ^ Zpos (digits2_pos q) ≤ 2 ^ (d - 1))%Z by (apply Z.pow_le_mono_r; lia). lia.
  - assert (2 ^ d ≤ 2 ^ (Zpos (digits2_pos q) - 1))%Z by (apply Z.pow_le_mono_r; lia). lia.
Qed.

Lemma SFdiv_whole p :
  (Zpos p < 2 ^ 53)%Z →
  SFdiv prec emax (S754_finite false p 0) (S754_finite false 1 0) = normal53 p.
Proof.
  intros Hp. unfold normal53.
  pose proof (digits2_pos_bounds p) as [Hlo Hhi].
  set (d := Zpos (digits2_pos p)) in *.
  assert (1 ≤ d ≤ 53)%Z as Hd.
  { split; [subst d; lia|].
    destruct (Z.le_gt_cases d 53) as [|Hgt]; [done|].
    assert (2 ^ 53 ≤ 2 ^ (d - 1))%Z by (apply Z.pow_le_mono_r; lia). lia. }
  set (q := Z.to_pos (Zpos p * 2 ^ (53 - d))).
  assert (Zpos q = Zpos p * 2 ^ (53 - d))%Z as Hq.
  { subst q. rewrite Z2Pos.id; [done|].
    apply Z.mul_pos_pos; [done|]. apply Z.pow_pos_nonneg; lia. }
  assert (2 ^ 52 ≤ Zpos q < 2 ^ 53)%Z as Hqb.
  { rewrite Hq.
    assert (2 ^ 52 = 2 ^ (d - 1) * 2 ^ (53 - d))%Z as ->
      by (rewrite <- Z.pow_add_r by lia; f_equal; lia).
    assert (2 ^ 53 = 2 ^ d * 2 ^ (53 - d))%Z as ->
      by (rewrite <- Z.pow_add_r by lia; f_equal; lia).
    assert (0 < 2 ^ (53 - d))%Z by (apply Z.pow_pos_nonneg; lia). nia. }
  unfold SFdiv, SFdiv_core_binary. cbn [Zdigits2 digits2_pos xorb]. fold d.
  replace (Z.min (fexp prec emax (d + 0 - (1 + 0))) (0 - 0)) with (d - 54)%Z
    by (unfold fexp, emin, prec, emax; lia).
  replace (0 - 0 - (d - 54))%Z with (Zpos (Z.to_pos (54 - d))) by (rewrite Z2Pos.id; lia).
  cbv iota.
  replace (Z.shiftl (Zpos p) (Zpos (Z.to_pos (54 - d)))) with (Zpos q~0).
  2:{ rewrite Z.shiftl_mul_pow2 by done. rewrite Z2Pos.id by lia.
      rewrite Pos2Z.inj_xO, Hq.
      replace (54 - d)%Z with (Z.succ (53 - d)) by lia.
      rewrite Z.pow_succ_r by lia. ring. }
  rewrite div_eucl_1. cbv iota beta.
  change (new_location 1 0) with loc_Exact.
  unfold binary_round_aux, shr_fexp. cbn [shr_record_of_loc].
  rewrite (Zdigits2_unique q~0 54) by (rewrite Pos2Z.inj_xO; lia).
  replace (fexp prec emax (54 + (d - 54)) - (d - 54))%Z with 1%Z
    by (unfold fexp, emin, prec, emax; lia).
  cbn [shr SpecFloat.iter_pos shr_1 orb shr_m loc_of_shr_record round_nearest_even
       shr_record_of_loc].
  rewrite (Zdigits2_unique q 53) by lia.
  replace (fexp prec emax (53 + (d - 54 + 1)) - (d - 54 + 1))%Z with 0%Z
    by (unfold fexp, emin, prec, emax; lia).
  cbn [shr shr_m].
  replace (d - 54 + 1 <=? emax - prec)%Z with true
    by (symmetry; apply Z.leb_le; unfold emax, prec; lia).
  f_equal. lia.
Qed.

Lemma Qred_whole n : Qred (n # 1)%Q = (n # 1)%Q.
Proof.
  unfold Qred.
  pose proof (Z.ggcd_correct_divisors n 1) as Hdiv.
  pose proof (Z.ggcd_gcd n 1) as Hgcd. rewrite Z.gcd_1_r in Hgcd.
  destruct (Z.ggcd n 1) as [g [aa bb]]. cbn in Hgcd. subst g.
  destruct Hdiv as [-> Hbb]. assert (bb = 1%Z) as -> by lia.
  cbn. f_equal. lia.
Qed.

Lemma float_of_Q_whole n :
  (0 ≤ n < 2 ^ 53)%Z → float_of_Q false (n # 1)%Q = whole53 n.
Proof.
  intros Hn. unfold float_of_Q. rewrite Qred_whole. cbn [Qnum Qden].
  destruct n as [|p|p]; [done| |lia]. apply SFdiv_whole. lia.
Qed.

(** Normalised whole numbers compare as the integers they are. *)
Lemma SFcompare_normal53 p1 p2 :
  (Zpos p1 < 2 ^ 53)%Z → (Zpos p2 < 2 ^ 53)%Z →
  SFcompare (normal53 p1) (normal53 p2) = Some (Zpos p1 ?= Zpos p2)%Z.
Proof.
  intros Hp1 Hp2. unfold normal53. cbn [SFcompare]. f_equal.
  pose proof (digits2_pos_bounds p1) as [Hlo1 Hhi1].
  pose proof (digits2_pos_bounds p2) as [Hlo2 Hhi2].
  set (d1 := Zpos (digits2_pos p1)) in *. set (d2 := Zpos (digits2_pos p2)) in *.
  assert (0 < d1)%Z by (subst d1; lia). assert (0 < d2)%Z by (subst d2; lia).
  assert (d1 ≤ 53)%Z.
  { destruct (Z.le_gt_cases d1 53) as [|Hgt]; [done|].
    assert (2 ^ 53 ≤ 2 ^ (d1 - 1))%Z by (apply Z.pow_le_mono_r; lia). lia. }
  destruct (Z.compare_spec (d1 - 53) (d2 - 53)) as [Heq|Hlt|Hgt].
  - assert (d1 = d2) as Hd by lia. rewrite <- Hd.
    change (Pos.compare_cont Eq ?a ?b) with (Zpos a ?= Zpos b)%Z.
    assert (0 < 2 ^ (53 - d1))%Z by (apply Z.pow_pos_nonneg; lia).
    rewrite !Z2Pos.id by (apply Z.mul_pos_pos; lia).
    symmetry. apply Zmult_compare_compat_r. lia.
  - symmetry. apply Z.compare_lt_iff.
    assert (2 ^ d1 ≤ 2 ^ (d2 - 1))%Z by (apply Z.pow_le_mono_r; lia). lia.
  - symmetry. apply Z.compare_gt_iff.
    assert (2 ^ d2 ≤ 2 ^ (d1 - 1))%Z by (apply Z.pow_le_mono_r; lia). lia.
Qed.

Lemma SFcompare_whole53 n1 n2 :
  (0 ≤ n1 < 2 ^ 53)%Z → (0 ≤ n2 < 2 ^ 53)%Z →
  SFcompare (whole53 n1) (whole53 n2) = Some (n1 ?= n2)%Z.
Proof.
  intros H1 H2. destruct n1 as [|p1|p1], n2 as [|p2|p2]; try lia; try done.
  apply SFcompare_normal53; lia.
Qed.

Lemma whole53_comparisons n1 n2 :
  (0 ≤ n1 < 2 ^ 53)%Z → (0 ≤ n2 < 2 ^ 53)%Z →
  isNaN (whole53 n1) = false
  ∧ num_lt (whole53 n1) (whole53 n2) = (n1 <? n2)%Z
  ∧ num_neq (whole53 n1) (whole53 n2) = negb (n1 =? n2)%Z.
Proof.
  intros H1 H2. split.
  { destruct n1 as [|p|p]; [reflexivity|reflexivity|lia]. }
  unfold num_lt, num_neq, SFltb, SFeqb. rewrite SFcompare_whole53 by done.
  destruct (Z.compare_spec n1 n2) as [H|H|H].
  - subst. by rewrite Z.ltb_irrefl, Z.eqb_refl.
  - by rewrite (proj2 (Z.ltb_lt _ _)), (proj2 (Z.eqb_neq _ _)) by lia.
  - by rewrite (proj2 (Z.ltb_ge _ _)), (proj2 (Z.eqb_neq _ _)) by lia.
Qed.

Lemma positional_value_nonneg s : (0 ≤ positional_value s)%Z.
Proof.
  induction s as [|c r IH]; cbn [positional_value]; [done|].
  assert (0 ≤ default 0 (dec_digit c))%Z.
  { unfold dec_digit. destruct (48 <=? ascii_code c)%Z eqn:E; cbn; [|done].
    destruct (ascii_code c <=? 57)%Z; cbn; [|done]. apply Z.leb_le in E. unfold id. lia. }
  nia.
Qed.

(** A string of digits parses to the whole number it denotes. *)
Lemma parseFloat_digits d :
  digit_string d = true → (positional_value d < 2 ^ 53)%Z →
  parseFloat d = whole53 (positional_value d).
Proof.
  intros Hd Hlt. pose proof Hd as [Hne Hall]%andb_prop.
  destruct d as [|c r]; [done|]. pose proof Hall as [Hc Hr]%andb_prop.
  fold string_forall in Hr. unfold parseFloat.
  rewrite trim_start_id by (by apply digit_not_ws || by apply digit_ascii).
  rewrite !(digit_not_char c) by done.
  unfold unsigned_literal. rewrite digit_head_not_Infinity by done.
  rewrite span_digits_all by done.
  replace (String.eqb (String c r) EmptyString) with false by done. cbn [andb].
  rewrite append_nil_r, digits_value_positional by done.
  cbn [exponent_part String.length Z.of_nat Z.sub]. unfold scale10. cbn [Z.leb Z.compare].
  rewrite <- float_of_Q_whole by (split; [apply positional_value_nonneg|done]).
  apply float_of_Q_proper. unfold Qeq.
  change (0 <=? 0 - Z.of_nat 0)%Z with true. cbv iota. cbn [Qnum Qden].
  change (10 ^ (0 - Z.of_nat 0))%Z with 1%Z. lia.
Qed.

(** The verdicts on whole-number values. *)
Lemma checkAmount_whole payload requirements p r :
  let a := amount (authorization payload) in
  isIssuedCurrencyAmount a = true ∨ isMPTAmount a = true →
  amount_prop a "value" = JStr p →
  maxAmountRequired requirements = r →
  digit_string p = true → (positional_value p < 2 ^ 53)%Z →
  digit_string r = true → (positional_value r < 2 ^ 53)%Z →
  checkAmount payload requirements
  = if (positional_value p <? positional_value r)%Z
    then Some (invalid "insufficient_amount")
    else None.
Proof.
  intros a Ha Hp Hr Hdp Hlp Hdr Hlr.
  rewrite checkAmount_object_verdict by done. fold a. rewrite Hp, Hr. cbn [to_string].
  rewrite !parseFloat_digits by done.
  pose proof (positional_value_nonneg p). pose proof (positional_value_nonneg r).
  destruct (whole53_comparisons (positional_value p) (positional_value r))
    as (Hn1 & Hlt & _); [lia|lia|].
  destruct (whole53_comparisons (positional_value r) (positional_value r))
    as (Hn2 & _ & _); [lia|lia|].
  by rewrite Hn1, Hn2, Hlt.
Qed.

Lemma crossCheck_whole tx payload t v1 v2 :
  let a := amount (authorization payload) in
  record_get tx "Account" = JStr (account (authorization payload)) →
  record_get tx "Destination" = JStr (destination (authorization payload)) →
  record_get tx "Fee" = JStr (fee (authorization payload)) →
  tx !! "Amount" = Some (JObj t) →
  (isIssuedCurrencyAmount a = true
   ∧ strict_neq (js_get (JObj t) "currency") (amount_prop a "currency") = false
   ∧ strict_neq (js_get (JObj t) "issuer") (amount_prop a "issuer") = false)
  ∨ (isIssuedCurrencyAmount a = false ∧ isMPTAmount a = true
     ∧ strict_neq (js_get (JObj t) "mpt_issuance_id") (amount_prop a "mpt_issuance_id")
       = false) →
  js_get (JObj t) "value" = JStr v1 →
  amount_prop a "value" = JStr v2 →
  digit_string v1 = true → (positional_value v1 < 2 ^ 53)%Z →
  digit_string v2 = true → (positional_value v2 < 2 ^ 53)%Z →
  crossCheckAuthorization tx payload = Some (invalid "authorization_mismatch_amount")
  ↔ positional_value v1 ≠ positional_value v2.
Proof.
  intros a Hacc Hdst Hfee Hamt Hfields Hv1 Hv2 Hd1 Hl1 Hd2 Hl2.
  rewrite (crossCheck_value_verdict tx payload t) by done. fold a.
  rewrite Hv1, Hv2. cbn [to_string]. rewrite !parseFloat_digits by done.
  pose proof (positional_value_nonneg v1). pose proof (positional_value_nonneg v2).
  destruct (whole53_comparisons (positional_value v1) (positional_value v2))
    as (_ & _ & ->); [lia|lia|].
  rewrite negb_true_iff. apply Z.eqb_neq.
Qed.

(** * The claims *)

(** ** C1: order of the offline steps *)

(** C1, counterexample.  A blob that is not a transaction fails signature
    verification (step 3) and, paying 999999 drops where 1000000 are
    required, amount sufficiency (step 6); yet [verify] returns neither
    step-3 reason: it returns the reason of step 1, [invalid_tx_blob]. *)
Lemma verify_reports_step_before_signature :
  verifyTxSignature sample_lib (txBlob garbage_payload)
  = Some (invalid "signature_verification_failed")
  ∧ checkAmount garbage_payload xrp_requirements = Some (invalid "insufficient_amount")
  ∧ (run unreachable_ledger (verify sample_lib garbage_payload xrp_requirements None) tt).1.1
    = Returned (invalid "invalid_tx_blob").
Proof. vm_compute. done. Qed.

(** C1, amended.  The offline steps run in a fixed order and [verify]
    returns, without any ledger call, the failure reason of the first
    failing step.  In particular a payload that passes steps 1 and 2 and
    fails both step 3 (signature) and step 6 (amount) gets the step-3
    reason, [invalid_signature] or [signature_verification_failed]; and a
    payload that fails step 3 never gets [insufficient_amount], whatever
    steps 1 and 2 do. *)
Theorem verify_first_failing_step (L : Ledger) (s : ledger_state L) lib payload
    requirements client :
  (∀ n r,
     (1 ≤ n ≤ 8)%nat →
     (∀ m, (1 ≤ m < n)%nat → offline_step lib payload requirements m = Returned None) →
     offline_step lib payload requirements n = Returned (Some r) →
     run L (verify lib payload requirements client) s = (Returned r, s, []))
  ∧ (∀ tx r3 r6,
       decodeTxBlob lib (txBlob payload) = inl tx →
       validateTransaction lib tx = None →
       verifyTxSignature lib (txBlob payload) = Some r3 →
       checkAmount payload requirements = Some r6 →
       run L (verify lib payload requirements client) s = (Returned r3, s, [])
       ∧ (r3 = invalid "invalid_signature"
          ∨ r3 = invalid "signature_verification_failed"))
  ∧ (∀ r3,
       verifyTxSignature lib (txBlob payload) = Some r3 →
       (run L (verify lib payload requirements client) s).1.1
       ≠ Returned (invalid "insufficient_amount")).
Proof.
  split; [|split].
  - intros n r. apply run_verify_first_failure.
  - intros tx r3 r6 H1 H2 H3 _. split; [|by eapply verifyTxSignature_reasons].
    apply (run_verify_first_failure L lib payload requirements client s 3); [lia| |].
    + intros m Hm. assert (m = 1 ∨ m = 2)%nat as [-> | ->] by lia;
        unfold offline_step; by rewrite H1, ?H2.
    + unfold offline_step. by rewrite H3.
  - intros r3 H3. unfold verify.
    destruct (decodeTxBlob lib (txBlob payload)) as [tx|r1] eqn:E1.
    + destruct (validateTransaction lib tx) as [r2|] eqn:E2; cbn.
      * unfold validateTransaction in E2. destruct (validate lib tx); [done|].
        by injection E2 as <-.
      * rewrite H3. cbn. by destruct (verifyTxSignature_reasons _ _ _ H3) as [-> | ->].
    + unfold decodeTxBlob in E1. destruct (decode lib (txBlob payload)); [done|].
      by injection E1 as <-.
Qed.

Lemma verify_first_failing_step_witness :
  run unreachable_ledger (verify sample_lib forged_low_payload xrp_requirements None) tt
  = (Returned (invalid "invalid_signature"), tt, []).
Proof.
  destruct (verify_first_failing_step unreachable_ledger tt sample_lib
              forged_low_payload xrp_requirements None) as (_ & H & _).
  eapply H; vm_compute; reflexivity.
Defined.

(** ** C2: the asset-match step on an unknown asset format *)

(** C2.  With [requirements.asset = "USD"], which is not ["XRP"] and starts
    neither with ["r"] nor with ["mpt:"], [checkAsset] throws instead of
    returning an invalid result, and so does [verify] for a payload that
    passes steps 1 to 6. *)
Theorem checkAsset_throws_on_unknown_asset :
  checkAsset xrp_payload usd_requirements = Thrown "Unknown asset format: USD"
  ∧ (run unreachable_ledger (verify sample_lib xrp_payload usd_requirements None) tt).1.1
    = Thrown "Unknown asset format: USD".
Proof. vm_compute. done. Qed.

(** ** C3: classification of amounts *)

(** C3, counterexample.  An object carrying [currency], [issuer], [value]
    and also [mpt_issuance_id] is classified as an issued-currency amount
    and accepted: the whole offline pipeline returns valid. *)
Lemma mixed_amount_is_accepted :
  isIssuedCurrencyAmount mixed_amount = true
  ∧ checkAmount mixed_payload issuer_requirements = None
  ∧ checkAsset mixed_payload issuer_requirements = Returned None
  ∧ (run unreachable_ledger (verify sample_lib mixed_payload issuer_requirements None) tt).1.1
    = Returned valid.
Proof. vm_compute. done. Qed.

Lemma amount_has_delete_ne o k k' :
  k ≠ k' → amount_has (AmtObject (delete k' o)) k = amount_has (AmtObject o) k.
Proof. intros H. unfold amount_has. by rewrite lookup_delete_ne. Qed.

Lemma amount_prop_delete_ne o k k' :
  k ≠ k' → amount_prop (AmtObject (delete k' o)) k = amount_prop (AmtObject o) k.
Proof. intros H. unfold amount_prop. by rewrite lookup_delete_ne. Qed.

Lemma amount_has_delete o k : amount_has (AmtObject (delete k o)) k = false.
Proof. unfold amount_has. by rewrite lookup_delete_eq. Qed.

(** C3, amended.  Classification is unambiguous: no amount satisfies both
    type guards, and a string satisfies neither.  An object carrying
    [currency], [issuer] and [value] together with [mpt_issuance_id] is
    classified as an issued-currency amount, never as MPT, and the
    cross-check, the amount check and the asset check treat it exactly as
    the same object without [mpt_issuance_id]; it is not rejected for the
    extra field.  An object that satisfies neither guard is rejected by the
    amount check with [invalid_amount_format]. *)
Theorem amount_classification (payload : ExactXrplPayload)
    (requirements : PaymentRequirements) (tx : gmap string JsValue) :
  (∀ a, isIssuedCurrencyAmount a && isMPTAmount a = false)
  ∧ (∀ s, isIssuedCurrencyAmount (AmtString s) = false
          ∧ isMPTAmount (AmtString s) = false)
  ∧ (∀ o,
       amount (authorization payload) = AmtObject o →
       amount_has (AmtObject o) "currency" = true →
       amount_has (AmtObject o) "issuer" = true →
       amount_has (AmtObject o) "value" = true →
       amount_has (AmtObject o) "mpt_issuance_id" = true →
       let stripped := with_amount payload (AmtObject (delete "mpt_issuance_id" o)) in
       isIssuedCurrencyAmount (AmtObject o) = true
       ∧ isMPTAmount (AmtObject o) = false
       ∧ crossCheckAuthorization tx payload = crossCheckAuthorization tx stripped
       ∧ checkAmount payload requirements = checkAmount stripped requirements
       ∧ checkAsset payload requirements = checkAsset stripped requirements)
  ∧ (∀ o,
       amount (authorization payload) = AmtObject o →
       isIssuedCurrencyAmount (AmtObject o) = false →
       isMPTAmount (AmtObject o) = false →
       checkAmount payload requirements = Some (invalid "invalid_amount_format")).
Proof.
  split; [|split; [|split]].
  - intros a. unfold isIssuedCurrencyAmount, isMPTAmount.
    destruct (amount_has a "currency"); [|by rewrite !andb_false_r].
    by rewrite !andb_false_r.
  - done.
  - intros o Ha Hc Hi Hv Hm stripped.
    assert (isIssuedCurrencyAmount (AmtObject o) = true) as Hiss.
    { unfold isIssuedCurrencyAmount. by rewrite Hc, Hi, Hv. }
    assert (isMPTAmount (AmtObject o) = false) as Hmpt.
    { unfold isMPTAmount. rewrite Hc. by rewrite !andb_false_r. }
    assert (isIssuedCurrencyAmount (AmtObject (delete "mpt_issuance_id" o)) = true) as Hiss'.
    { unfold isIssuedCurrencyAmount. rewrite !amount_has_delete_ne by done. exact Hiss. }
    assert (isMPTAmount (AmtObject (delete "mpt_issuance_id" o)) = false) as Hmpt'.
    { unfold isMPTAmount. by rewrite amount_has_delete. }
    split; [done|]. split; [done|].
    unfold stripped, crossCheckAuthorization, checkAmount, checkAsset, with_amount.
    cbn [authorization account destination amount fee sequence ticketSequence
         lastLedgerSequence].
    rewrite Ha, Hiss, Hiss', Hmpt, Hmpt'.
    rewrite !(amount_prop_delete_ne _ "currency"), !(amount_prop_delete_ne _ "issuer"),
      !(amount_prop_delete_ne _ "value") by done.
    done.
  - intros o Ha Hiss Hmpt. unfold checkAmount. rewrite Ha, Hiss, Hmpt. done.
Qed.

Lemma amount_classification_witness :
  isIssuedCurrencyAmount mixed_amount = true
  ∧ isMPTAmount mixed_amount = false
  ∧ checkAmount mixed_payload issuer_requirements
    = checkAmount (sample_payload "PAY_USD" (IssuedCurrencyAmount "USD" "rIssuer" "25.5") None)
        issuer_requirements.
Proof.
  destruct (amount_classification mixed_payload issuer_requirements ∅) as (_ & _ & H & _).
  destruct (H _ eq_refl) as (H1 & H2 & _ & H4 & _); [vm_compute; reflexivity..|].
  split; [exact H1|]. split; [exact H2|].
  etrans; [exact H4|]. by vm_compute.
Defined.

(** ** C4: native amounts are compared as integers *)

(** C4.  For a native amount, when the payment and the required amount are
    integer strings, [checkAmount] fails with [insufficient_amount] exactly
    when the payment is smaller as an integer, and passes otherwise.  In
    particular 999999 against 1000000 fails, 1000000 against 1000000
    passes, and 2^53 against 2^53 + 1, which no binary64 tells apart,
    fails. *)
Theorem checkAmount_native_exact :
  (∀ payload requirements p zp zr,
     amount (authorization payload) = AmtString p →
     IntegerString p zp →
     IntegerString (maxAmountRequired requirements) zr →
     checkAmount payload requirements
     = if (zp <? zr)%Z then Some (invalid "insufficient_amount") else None)
  ∧ checkAmount (sample_payload "PAY_XRP_LOW" (AmtString "999999") None)
      (sample_requirements "1000000" "XRP") = Some (invalid "insufficient_amount")
  ∧ checkAmount (sample_payload "PAY_XRP" (AmtString "1000000") None)
      (sample_requirements "1000000" "XRP") = None
  ∧ checkAmount (sample_payload "PAY_XRP" (AmtString "9007199254740992") None)
      (sample_requirements "9007199254740993" "XRP") = Some (invalid "insufficient_amount").
Proof.
  split; [|by vm_compute].
  intros payload requirements p zp zr Ha Hp Hr. unfold checkAmount. rewrite Ha. cbn.
  unfold BigInt_of_string.
  by rewrite (StringToBigInt_integer _ _ Hp), (StringToBigInt_integer _ _ Hr).
Qed.

Lemma checkAmount_native_exact_witness :
  checkAmount (sample_payload "PAY_XRP" (AmtString "18446744073709551615") None)
    (sample_requirements "18446744073709551616" "XRP")
  = Some (invalid "insufficient_amount").
Proof.
  destruct checkAmount_native_exact as (H & _).
  rewrite (H _ _ "18446744073709551615" 18446744073709551615%Z 18446744073709551616%Z).
  - reflexivity.
  - reflexivity.
  - by apply (IntegerString_plain "18446744073709551615").
  - by apply (IntegerString_plain "18446744073709551616").
Defined.

(** ** C5: issued and MPT values are compared as numbers *)

(** C5.  For an amount object, the value comparisons of the cross-check
    and of the sufficiency check are on the parsed number.  The sufficiency
    check on an issued-currency or MPT amount rejects, with
    [insufficient_amount], exactly when the claimed value or the required
    minimum does not parse to a number or the claimed number is below the
    required one.  The cross-check, where the account, the destination, the
    fee and the identifying fields of the amount agree, reports
    [authorization_mismatch_amount] exactly when the decoded and the claimed
    value parse to different numbers.  The number parsed from a plain
    decimal is the binary64 value of the rational it denotes, so two
    decimals denoting the same rational parse to the same number, and on
    whole numbers below 2^53 the two checks are exactly the comparison of
    the integers: the sufficiency check rejects exactly when the claimed
    integer is below the required one, and the cross-check rejects exactly
    when the two integers differ, whatever the lengths of the strings.  In
    particular padding the fraction of a decimal value with zeros, in the
    claimed amount, in the decoded amount or in the required minimum,
    changes the result of neither check.  So ["25.50"] and ["25.5"] parse to
    the same number, a claimed ["25.50"] passes the cross-check against a
    decoded ["25.5"] and satisfies a required minimum of ["25.5"], for
    issued-currency and for MPT amounts; while a claimed ["25.51"] does not
    pass the cross-check, ["25.49"] does not satisfy the minimum, and
    ["9.5"] does not satisfy a minimum of ["10.5"]. *)
Theorem decimal_values_compare_numerically :
  (∀ sign ip fp n payload requirements tx o,
     is_sign sign = true → digit_string ip = true →
     string_forall is_dec_digit fp = true →
     amount (authorization payload) = AmtObject o →
     o !! "value" = Some (JStr (decimal_literal sign ip fp)) →
     let padded := with_amount payload
                     (AmtObject (set_value o (decimal_literal sign ip fp +:+ zeros n))) in
     crossCheckAuthorization tx padded = crossCheckAuthorization tx payload
     ∧ checkAmount padded requirements = checkAmount payload requirements)
  ∧ (∀ sign ip fp n payload tx t,
       is_sign sign = true → digit_string ip = true →
       string_forall is_dec_digit fp = true →
       tx !! "Amount" = Some (JObj t) →
       t !! "value" = Some (JStr (decimal_literal sign ip fp)) →
       crossCheckAuthorization
         (with_tx_amount tx (set_value t (decimal_literal sign ip fp +:+ zeros n))) payload
       = crossCheckAuthorization tx payload)
  ∧ (∀ sign ip fp n payload requirements,
       is_sign sign = true → digit_string ip = true →
       string_forall is_dec_digit fp = true →
       amount_is_object (amount (authorization payload)) = true →
       maxAmountRequired requirements = decimal_literal sign ip fp →
       checkAmount payload
         (with_required requirements (decimal_literal sign ip fp +:+ zeros n))
       = checkAmount payload requirements)
  ∧ num_neq (parseFloat "25.50") (parseFloat "25.5") = false
  ∧ crossCheckAuthorization usd_tx
      (sample_payload "PAY_USD" (IssuedCurrencyAmount "USD" "rIssuer" "25.50") None) = None
  ∧ crossCheckAuthorization mpt_tx
      (sample_payload "PAY_MPT" (MPTAmount "00000001A407AF58" "25.50") None) = None
  ∧ checkAmount (sample_payload "PAY_USD" (IssuedCurrencyAmount "USD" "rIssuer" "25.50") None)
      (sample_requirements "25.5" "rIssuer") = None
  ∧ checkAmount (sample_payload "PAY_MPT" (MPTAmount "00000001A407AF58" "25.50") None)
      (sample_requirements "25.5" "mpt:00000001A407AF58") = None
  ∧ (∀ payload requirements,
       let a := amount (authorization payload) in
       isIssuedCurrencyAmount a = true ∨ isMPTAmount a = true →
       checkAmount payload requirements
       = if isNaN (parseFloat (to_string (amount_prop a "value")))
            || isNaN (parseFloat (maxAmountRequired requirements))
            || num_lt (parseFloat (to_string (amount_prop a "value")))
                      (parseFloat (maxAmountRequired requirements))
         then Some (invalid "insufficient_amount")
         else None)
  ∧ (∀ tx payload t,
       let a := amount (authorization payload) in
       record_get tx "Account" = JStr (account (authorization payload)) →
       record_get tx "Destination" = JStr (destination (authorization payload)) →
       record_get tx "Fee" = JStr (fee (authorization payload)) →
       tx !! "Amount" = Some (JObj t) →
       (isIssuedCurrencyAmount a = true
        ∧ strict_neq (js_get (JObj t) "currency") (amount_prop a "currency") = false
        ∧ strict_neq (js_get (JObj t) "issuer") (amount_prop a "issuer") = false)
       ∨ (isIssuedCurrencyAmount a = false ∧ isMPTAmount a = true
          ∧ strict_neq (js_get (JObj t) "mpt_issuance_id")
                       (amount_prop a "mpt_issuance_id") = false) →
       crossCheckAuthorization tx payload = Some (invalid "authorization_mismatch_amount")
       ↔ num_neq (parseFloat (to_string (js_get (JObj t) "value")))
                 (parseFloat (to_string (amount_prop a "value"))) = true)
  ∧ (∀ sign ip fp,
       is_sign sign = true → digit_string ip = true →
       string_forall is_dec_digit fp = true →
       parseFloat (decimal_literal sign ip fp)
       = float_of_Q (String.eqb sign "-") (decimal_value ip fp))
  ∧ (∀ sign ip1 fp1 ip2 fp2,
       is_sign sign = true →
       digit_string ip1 = true → string_forall is_dec_digit fp1 = true →
       digit_string ip2 = true → string_forall is_dec_digit fp2 = true →
       (decimal_value ip1 fp1 == decimal_value ip2 fp2)%Q →
       parseFloat (decimal_literal sign ip1 fp1) = parseFloat (decimal_literal sign ip2 fp2))
  ∧ (∀ payload requirements p r,
       let a := amount (authorization payload) in
       isIssuedCurrencyAmount a = true ∨ isMPTAmount a = true →
       amount_prop a "value" = JStr p →
       maxAmountRequired requirements = r →
       digit_string p = true → (positional_value p < 2 ^ 53)%Z →
       digit_string r = true → (positional_value r < 2 ^ 53)%Z →
       checkAmount payload requirements
       = if (positional_value p <? positional_value r)%Z
         then Some (invalid "insufficient_amount")
         else None)
  ∧ (∀ tx payload t v1 v2,
       let a := amount (authorization payload) in
       record_get tx "Account" = JStr (account (authorization payload)) →
       record_get tx "Destination" = JStr (destination (authorization payload)) →
       record_get tx "Fee" = JStr (fee (authorization payload)) →
       tx !! "Amount" = Some (JObj t) →
       (isIssuedCurrencyAmount a = true
        ∧ strict_neq (js_get (JObj t) "currency") (amount_prop a "currency") = false
        ∧ strict_neq (js_get (JObj t) "issuer") (amount_prop a "issuer") = false)
       ∨ (isIssuedCurrencyAmount a = false ∧ isMPTAmount a = true
          ∧ strict_neq (js_get (JObj t) "mpt_issuance_id")
                       (amount_prop a "mpt_issuance_id") = false) →
       js_get (JObj t) "value" = JStr v1 →
       amount_prop a "value" = JStr v2 →
       digit_string v1 = true → (positional_value v1 < 2 ^ 53)%Z →
       digit_string v2 = true → (positional_value v2 < 2 ^ 53)%Z →
       crossCheckAuthorization tx payload = Some (invalid "authorization_mismatch_amount")
       ↔ positional_value v1 ≠ positional_value v2)
  ∧ crossCheckAuthorization usd_tx
      (sample_payload "PAY_USD" (IssuedCurrencyAmount "USD" "rIssuer" "25.51") None)
    = Some (invalid "authorization_mismatch_amount")
  ∧ crossCheckAuthorization mpt_tx
      (sample_payload "PAY_MPT" (MPTAmount "00000001A407AF58" "25.51") None)
    = Some (invalid "authorization_mismatch_amount")
  ∧ checkAmount (sample_payload "PAY_USD" (IssuedCurrencyAmount "USD" "rIssuer" "25.49") None)
      (sample_requirements "25.5" "rIssuer") = Some (invalid "insufficient_amount")
  ∧ checkAmount (sample_payload "PAY_MPT" (MPTAmount "00000001A407AF58" "25.49") None)
      (sample_requirements "25.5" "mpt:00000001A407AF58")
    = Some (invalid "insufficient_amount")
  ∧ checkAmount (sample_payload "PAY_USD" (IssuedCurrencyAmount "USD" "rIssuer" "9.5") None)
      (sample_requirements "10.5" "rIssuer") = Some (invalid "insufficient_amount")
  ∧ checkAmount (sample_payload "PAY_USD" (IssuedCurrencyAmount "USD" "rIssuer" "abc") None)
      (sample_requirements "10.5" "rIssuer") = Some (invalid "insufficient_amount").
Proof.
  split; [|split; [|split]].
  - intros sign ip fp n payload requirements tx o Hs Hip Hfp Ha Hv padded.
    split; [by apply crossCheck_auth_padding|by apply checkAmount_auth_padding].
  - intros. by apply crossCheck_tx_padding.
  - intros. by apply checkAmount_required_padding.
  - do 5 (split; [by vm_compute|]).
    split; [intros; by apply checkAmount_object_verdict|].
    split; [intros; by apply crossCheck_value_verdict|].
    split; [intros; by apply parseFloat_decimal_value|].
    split; [intros; by apply parseFloat_same_value|].
    split; [intros; by apply checkAmount_whole|].
    split; [intros; by eapply crossCheck_whole|].
    repeat split; by vm_compute.
Qed.

Lemma decimal_values_compare_numerically_witness :
  checkAmount (sample_payload "PAY_USD" (IssuedCurrencyAmount "USD" "rIssuer" "25.5000") None)
    (sample_requirements "25.5" "rIssuer")
  = checkAmount (sample_payload "PAY_USD" (IssuedCurrencyAmount "USD" "rIssuer" "25.5") None)
      (sample_requirements "25.5" "rIssuer")
  ∧ checkAmount (sample_payload "PAY_MPT" (MPTAmount "00000001A407AF58" "9") None)
      (sample_requirements "10" "mpt:00000001A407AF58")
    = Some (invalid "insufficient_amount").
Proof.
  destruct decimal_values_compare_numerically
    as (H & _ & _ & _ & _ & _ & _ & _ & _ & _ & _ & _ & Hwhole & _).
  split.
  - destruct (H EmptyString "25" "5" 3%nat
                (sample_payload "PAY_USD" (IssuedCurrencyAmount "USD" "rIssuer" "25.5") None)
                (sample_requirements "25.5" "rIssuer") usd_tx
                {[ "currency" := JStr "USD"; "issuer" := JStr "rIssuer";
                   "value" := JStr "25.5" ]}) as [_ H2];
      [reflexivity | reflexivity | reflexivity | reflexivity | vm_compute; reflexivity |].
    etrans; [|exact H2]. vm_compute. reflexivity.
  - rewrite (Hwhole (sample_payload "PAY_MPT" (MPTAmount "00000001A407AF58" "9") None)
               (sample_requirements "10" "mpt:00000001A407AF58") "9" "10");
      [reflexivity | by right | reflexivity | reflexivity | reflexivity | reflexivity
      | reflexivity | reflexivity].
Defined.

(** ** C6: the network checks fail softly *)

(** C6.  For each network check, if a ledger request it awaits raises a
    transport error, the check returns pass ([null]), never a rejection. *)
Theorem network_checks_soft_fail (L : Ledger) (s : ledger_state L) (client : Client)
    (account' destination' fee' : string) (amount' : AmountValue)
    (sequence' : Z) (ticket lastLedger : option Z) (issuanceId' : JsValue) :
  (∀ o s' tr,
     run L (checkAccountBalance client account' amount' fee' sequence' ticket) s
     = (o, s', tr) →
     some_call_rejected tr = true → o = Returned None)
  ∧ (∀ o s' tr,
       run L (checkLedgerExpiry client lastLedger) s = (o, s', tr) →
       some_call_rejected tr = true → o = Returned None)
  ∧ (∀ o s' tr,
       run L (checkTrustLine client destination' amount') s = (o, s', tr) →
       some_call_rejected tr = true → o = Returned None)
  ∧ (∀ o s' tr,
       run L (checkMptIssuance client issuanceId') s = (o, s', tr) →
       some_call_rejected tr = true → o = Returned None)
  ∧ (∀ o s' tr,
       run L (checkMptHolder client account' amount') s = (o, s', tr) →
       some_call_rejected tr = true → o = Returned None)
  ∧ (∀ o s' tr,
       run L (checkMptDestination client destination' issuanceId') s = (o, s', tr) →
       some_call_rejected tr = true → o = Returned None).
Proof.
  repeat split; intros o s' tr.
  - apply checkAccountBalance_soft.
  - apply checkLedgerExpiry_soft.
  - apply checkTrustLine_soft.
  - apply checkMptIssuance_soft.
  - apply checkMptHolder_soft.
  - apply checkMptDestination_soft.
Qed.

Lemma network_checks_soft_fail_witness :
  (run unreachable_ledger
     (checkAccountBalance XrplClient "rSender" (AmtString "1000000") "12" 7 (Some 3%Z)) tt).1.1
  = Returned None
  ∧ (run unreachable_ledger (checkLedgerExpiry XrplClient (Some 100%Z)) tt).1.1
    = Returned None
  ∧ (run unreachable_ledger
       (checkTrustLine XrplClient "rMerchant"
          (IssuedCurrencyAmount "USD" "rIssuer" "25.5")) tt).1.1
    = Returned None
  ∧ (run unreachable_ledger (checkMptIssuance XrplClient (JStr "00000001A407AF58")) tt).1.1
    = Returned None
  ∧ (run unreachable_ledger
       (checkMptHolder XrplClient "rSender" (MPTAmount "00000001A407AF58" "25.5")) tt).1.1
    = Returned None
  ∧ (run unreachable_ledger
       (checkMptDestination XrplClient "rMerchant" (JStr "00000001A407AF58")) tt).1.1
    = Returned None.
Proof.
  destruct (network_checks_soft_fail unreachable_ledger tt XrplClient "rSender" "rMerchant"
              "12" (AmtString "1000000") 7 (Some 3%Z) (Some 100%Z) (JStr "00000001A407AF58"))
    as (H1 & H2 & _).
  destruct (network_checks_soft_fail unreachable_ledger tt XrplClient "rSender" "rMerchant"
              "12" (IssuedCurrencyAmount "USD" "rIssuer" "25.5") 7 None None
              (JStr "00000001A407AF58"))
    as (_ & _ & H3 & H4 & _).
  destruct (network_checks_soft_fail unreachable_ledger tt XrplClient "rSender" "rMerchant"
              "12" (MPTAmount "00000001A407AF58" "25.5") 7 None None
              (JStr "00000001A407AF58"))
    as (_ & _ & _ & _ & H5 & H6).
  split; [eapply H1|split; [eapply H2|split; [eapply H3|split;
    [eapply H4|split; [eapply H5|eapply H6]]]]];
    vm_compute; reflexivity.
Defined.

(** ** C7: nothing is submitted unless re-verification passes *)

(** C7.  [settle] first re-runs the full verification pipeline against
    the current ledger state.  If it fails, [settle] returns a failure
    carrying the verification reason and performs exactly the calls of the
    verification, none of which is a submit.  Whenever a run of [settle]
    submits anything, the verification had run first and passed, and the
    first blob submitted is the payment blob. *)
Theorem settle_submits_only_after_verification (L : Ledger) (s : ledger_state L)
    lib env payload requirements client net :
  (∀ v s1 t1,
     run L (verify lib payload requirements (Some client)) s = (Returned v, s1, t1) →
     isValid v = false →
     run L (settle lib env payload requirements client net) s
     = (Returned (settle_failure
                    (Some (default "verification_failed" (invalidReason v))) net),
        s1, t1)
     ∧ submitted t1 = [])
  ∧ (∀ o s' tr,
       run L (settle lib env payload requirements client net) s = (o, s', tr) →
       submitted tr ≠ [] →
       ∃ v s1 t1 t2 rest,
         run L (verify lib payload requirements (Some client)) s = (Returned v, s1, t1)
         ∧ isValid v = true
         ∧ submitted t1 = []
         ∧ tr = t1 ++ t2
         ∧ submitted t2 = txBlob payload :: rest).
Proof.
  split.
  - intros v s1 t1 Hv Hf. split; [by apply run_settle_verify_failed|].
    by eapply run_verify_submitted.
  - intros o s' tr Hrun Hsub. unfold settle in Hrun.
    apply run_settle_cases in Hrun as [[Hnil _]|Hrun]; [done|].
    destruct Hrun as (v & s1 & t1 & o2 & s2 & t2 & t3 & Hv & Hok & _ & Hs & -> & Ht3).
    apply run_submitAndWait_submitted in Hs.
    exists v, s1, t1, (t2 ++ t3), (submitted t3).
    split; [done|]. split; [done|]. split; [by eapply run_verify_submitted|].
    split; [done|]. by rewrite submitted_app, Hs.
Qed.

Lemma settle_submits_only_after_verification_witness :
  run (accepting_ledger 8) (settle sample_lib no_facilitator xrp_payload xrp_requirements
                              XrplClient "xrpl:1") tt
  = (Returned (settle_failure (Some "invalid_sequence") "xrpl:1"), tt,
     (run (accepting_ledger 8)
        (verify sample_lib xrp_payload xrp_requirements (Some XrplClient)) tt).2)
  ∧ submitted (run (accepting_ledger 8)
                 (verify sample_lib xrp_payload xrp_requirements (Some XrplClient)) tt).2
    = [].
Proof.
  destruct (settle_submits_only_after_verification (accepting_ledger 8) tt sample_lib
              no_facilitator xrp_payload xrp_requirements XrplClient "xrpl:1") as [H _].
  apply (H (invalid "invalid_sequence")); vm_compute; reflexivity.
Defined.

(** ** C8: a fee failure is not propagated *)

(** C8.  When the verification passes and the primary settlement succeeds,
    [settle] returns the primary success record, with the primary
    transaction id, whatever the ledger does with the fee submission; and
    [settleWithFee] returns the successful merchant result it was given,
    never throwing. *)
Theorem fee_failure_not_propagated (L : Ledger) (s : ledger_state L)
    lib env payload requirements client net :
  (∀ v s1 t1 m s2 t2 blob,
     run L (verify lib payload requirements (Some client)) s = (Returned v, s1, t1) →
     isValid v = true →
     run L (submitAndWait client (txBlob payload)
              defaultMaxAttempts defaultPollIntervalMs) s1 = (Returned m, s2, t2) →
     success m = true →
     truthy_string (feeTxBlob payload) = Some blob →
     ∃ s3 t3,
       run L (settle lib env payload requirements client net) s
       = (Returned (set_network m net), s3, t1 ++ t2 ++ t3)
       ∧ success (set_network m net) = true
       ∧ transaction (set_network m net) = transaction m)
  ∧ (∀ m blob,
       success m = true →
       ∃ s' tr, run L (settleWithFee client m blob net) s = (Returned m, s', tr)).
Proof.
  split.
  - intros v s1 t1 m s2 t2 blob Hv Hok Hs Hm Hb.
    unfold settle. rewrite run_settle_with, Hv, Hok, fee_check_FEE_SCHEDULE, Hs, Hb, Hm.
    cbn [negb].
    destruct (run_settleWithFee L client (set_network m net) blob net s2 Hm)
      as (s3 & t3 & -> & _).
    by exists s3, t3.
  - intros m blob Hm.
    destruct (run_settleWithFee L client m blob net s Hm) as (s' & tr & -> & _).
    by exists s', tr.
Qed.

Lemma fee_failure_not_propagated_witness :
  (run fee_failing_ledger
     (settle sample_lib no_facilitator xrp_payload_with_fee xrp_requirements
        XrplClient "xrpl:1") tt).1.1
  = Returned {| success := true; transaction := Some (JStr "HASH");
                settledNetwork := Some "xrpl:1"; payer := Some "rSender";
                errorReason := None |}
  ∧ last (run fee_failing_ledger
            (settle sample_lib no_facilitator xrp_payload_with_fee xrp_requirements
               XrplClient "xrpl:1") tt).2
    = Some (EvWarn "[fee] Fee settlement error (merchant tx HASH): fee submission failed").
Proof.
  split; [|vm_compute; reflexivity].
  destruct (fee_failure_not_propagated fee_failing_ledger tt sample_lib no_facilitator
              xrp_payload_with_fee xrp_requirements XrplClient "xrpl:1") as [H _].
  edestruct H as (s3 & t3 & Hrun & _); [vm_compute; reflexivity..|].
  rewrite Hrun. reflexivity.
Defined.

(** ** C9: no fee submission after a failed primary settlement *)

(** C9.  If the primary settlement fails, whether the submission returns a
    failure or throws, [settle] returns a failure and the only blob
    submitted is the payment blob: the fee blob is not submitted.  More
    generally a run of [settle] that does not end in a success submitted
    nothing or the payment blob alone; and [settleWithFee], given a failed
    merchant result, returns it without any call. *)
Theorem no_fee_submission_after_primary_failure (L : Ledger) (s : ledger_state L)
    lib env payload requirements client net :
  (∀ v s1 t1 o2 s2 t2,
     run L (verify lib payload requirements (Some client)) s = (Returned v, s1, t1) →
     isValid v = true →
     run L (submitAndWait client (txBlob payload)
              defaultMaxAttempts defaultPollIntervalMs) s1 = (o2, s2, t2) →
     (∀ m, o2 = Returned m → success m = false) →
     ∃ r, run L (settle lib env payload requirements client net) s
          = (Returned r, s2, t1 ++ t2)
          ∧ success r = false
          ∧ submitted (t1 ++ t2) = [txBlob payload])
  ∧ (∀ o s' tr,
       run L (settle lib env payload requirements client net) s = (o, s', tr) →
       (∀ r, o = Returned r → success r = false) →
       submitted tr = [] ∨ submitted tr = [txBlob payload])
  ∧ (∀ m blob,
       success m = false →
       run L (settleWithFee client m blob net) s = (Returned m, s, [])).
Proof.
  split; [|split].
  - intros v s1 t1 o2 s2 t2 Hv Hok Hs Hfail.
    pose proof (run_verify_submitted _ _ _ _ _ _ _ _ _ Hv) as Ht1.
    pose proof (run_submitAndWait_submitted _ _ _ _ _ _ _ _ _ Hs) as Ht2.
    unfold settle. rewrite run_settle_with, Hv, Hok, fee_check_FEE_SCHEDULE, Hs.
    cbn [negb]. rewrite submitted_app, Ht1, Ht2.
    destruct o2 as [m|err].
    + rewrite (Hfail m eq_refl).
      exists (set_network m net).
      destruct (truthy_string (feeTxBlob payload)).
      all: split; [done|]; split; [exact (Hfail m eq_refl)|done].
    + eexists. split; [done|]. done.
  - intros o s' tr Hrun Hfail. unfold settle in Hrun.
    apply run_settle_cases in Hrun as [[Hnil _]|Hrun]; [by left|]. right.
    destruct Hrun as (v & s1 & t1 & o2 & s2 & t2 & t3 & Hv & Hok & _ & Hs & -> & Ht3).
    apply run_verify_submitted in Hv. apply run_submitAndWait_submitted in Hs.
    rewrite !submitted_app, Hv, Hs.
    destruct Ht3 as [[-> _]|(m & blob & -> & Hm & _ & -> & _)]; [done|].
    specialize (Hfail _ eq_refl). cbn in Hfail. congruence.
  - intros m blob Hm. unfold settleWithFee. by rewrite Hm.
Qed.

Lemma no_fee_submission_after_primary_failure_witness :
  submitted (run unfunded_ledger
               (settle sample_lib no_facilitator xrp_payload_with_fee xrp_requirements
                  XrplClient "xrpl:1") tt).2
  = ["PAY_XRP"]
  ∧ (run unfunded_ledger
       (settle sample_lib no_facilitator xrp_payload_with_fee xrp_requirements
          XrplClient "xrpl:1") tt).1.1
    = Returned {| success := false; transaction := Some (JStr "HASH");
                  settledNetwork := Some "xrpl:1"; payer := None;
                  errorReason := Some (Reason "insufficient_funds") |}.
Proof.
  destruct (no_fee_submission_after_primary_failure unfunded_ledger tt sample_lib
              no_facilitator xrp_payload_with_fee xrp_requirements XrplClient "xrpl:1")
    as [H _].
  edestruct H as (r & Hrun & Hr & Hsub);
    [vm_compute; reflexivity | reflexivity | vm_compute; reflexivity
    | intros m [= <-]; reflexivity |].
  split; [rewrite Hrun; exact Hsub|]. vm_compute. reflexivity.
Defined.

(** ** C10: the fee blob is submitted without having been verified *)

(** C10.  In [settle] the fee verification only runs for an MPT amount.
    For a native or issued-currency payment the run of [settle] is the same
    under every fee schedule and every facilitator address, so nothing of
    the fee verification takes part in it; and when such a payment carries
    a fee blob, the verification passes and the primary settlement
    succeeds, the fee blob is submitted right after the payment blob, even
    if [verifyFeePayload] would have rejected the payload. *)
Theorem fee_blob_submitted_unverified (L : Ledger) (s : ledger_state L)
    schedule lib env payload requirements client net :
  isMPTAmount (amount (authorization payload)) = false →
  (∀ schedule' env',
     run L (settle_with schedule lib env payload requirements client net) s
     = run L (settle_with schedule' lib env' payload requirements client net) s)
  ∧ (∀ v s1 t1 m s2 t2 blob,
       run L (verify lib payload requirements (Some client)) s = (Returned v, s1, t1) →
       isValid v = true →
       run L (submitAndWait client (txBlob payload)
                defaultMaxAttempts defaultPollIntervalMs) s1 = (Returned m, s2, t2) →
       success m = true →
       truthy_string (feeTxBlob payload) = Some blob →
       ∃ s3 tr,
         run L (settle_with schedule lib env payload requirements client net) s
         = (Returned (set_network m net), s3, tr)
         ∧ submitted tr = [txBlob payload; blob]).
Proof.
  intros Hmpt. split.
  - intros schedule' env'. rewrite !run_settle_with.
    by rewrite !fee_check_not_mpt.
  - intros v s1 t1 m s2 t2 blob Hv Hok Hs Hm Hb.
    pose proof (run_verify_submitted _ _ _ _ _ _ _ _ _ Hv) as Ht1.
    pose proof (run_submitAndWait_submitted _ _ _ _ _ _ _ _ _ Hs) as Ht2.
    rewrite run_settle_with, Hv, Hok, fee_check_not_mpt, Hs, Hb, Hm by done.
    cbn [negb].
    destruct (run_settleWithFee L client (set_network m net) blob net s2 Hm)
      as (s3 & t3 & -> & Ht3).
    exists s3, (t1 ++ t2 ++ t3). split; [done|].
    by rewrite !submitted_app, Ht1, Ht2, Ht3.
Qed.

Lemma fee_blob_submitted_unverified_witness :
  verifyFeePayload sample_lib no_facilitator xrp_payload_with_fee (mpt charging_schedule)
  = Some (invalid "fee_facilitator_not_configured")
  ∧ submitted (run (accepting_ledger 7)
                 (settle_with charging_schedule sample_lib no_facilitator
                    xrp_payload_with_fee xrp_requirements XrplClient "xrpl:1") tt).2
    = ["PAY_XRP"; "FEE"].
Proof.
  split; [vm_compute; reflexivity|].
  destruct (fee_blob_submitted_unverified (accepting_ledger 7) tt charging_schedule
              sample_lib no_facilitator xrp_payload_with_fee xrp_requirements
              XrplClient "xrpl:1" eq_refl) as [_ H].
  edestruct H as (s3 & tr & Hrun & Hsub); [vm_compute; reflexivity..|].
  rewrite Hrun. exact Hsub.
Defined.

(** * Further properties of the pipeline *)

(** ** Bit flags *)

Lemma toInt32_mod n : (toInt32 n mod 2 ^ 32 = n mod 2 ^ 32)%Z.
Proof.
  unfold toInt32. rewrite Zminus_mod_idemp_l.
  f_equal. lia.
Qed.

Lemma testbit_toInt32 n k :
  (0 ≤ k < 32)%Z → Z.testbit (toInt32 n) k = Z.testbit n k.
Proof.
  intros Hk.
  rewrite <- (Z.mod_pow2_bits_low (toInt32 n) 32 k) by lia.
  rewrite <- (Z.mod_pow2_bits_low n 32 k) by lia.
  by rewrite toInt32_mod.
Qed.

Lemma land_pow2 a k :
  (0 ≤ k)%Z → Z.land a (2 ^ k) = if Z.testbit a k then (2 ^ k)%Z else 0%Z.
Proof.
  intros Hk. apply Z.bits_inj'. intros i Hi.
  rewrite Z.land_spec, Z.pow2_bits_eqb by lia.
  destruct (Z.eqb_spec k i) as [->|Hne].
  - rewrite andb_true_r. destruct (Z.testbit a i) eqn:E.
    + by rewrite Z.pow2_bits_true.
    + by rewrite Z.bits_0.
  - rewrite andb_false_r. destruct (Z.testbit a k).
    + by rewrite Z.pow2_bits_false.
    + by rewrite Z.bits_0.
Qed.

Lemma bit_and_pow2 n k :
  (0 ≤ k < 31)%Z → (bit_and n (2 ^ k) =? 0)%Z = negb (Z.testbit n k).
Proof.
  intros Hk. unfold bit_and.
  assert (toInt32 (2 ^ k) = 2 ^ k)%Z as ->.
  { unfold toInt32.
    assert (2 ^ k < 2 ^ 31)%Z by (apply Z.pow_lt_mono_r; lia).
    assert (0 < 2 ^ k)%Z by (apply Z.pow_pos_nonneg; lia).
    rewrite Z.mod_small; lia. }
  rewrite land_pow2, testbit_toInt32 by lia.
  destruct (Z.testbit n k); cbn [negb].
  - apply Z.eqb_neq. assert (0 < 2 ^ k)%Z by (apply Z.pow_pos_nonneg; lia). lia.
  - done.
Qed.

Lemma rejectPartialPayment_number tx n :
  tx !! "Flags" = Some (JNum n) →
  rejectPartialPayment tx
  = if Z.testbit n 17 then Some (invalid "partial_payment_not_allowed") else None.
Proof.
  unfold rejectPartialPayment, record_get. intros ->. cbn [default]. unfold id.
  change PARTIAL_PAYMENT_FLAG with (2 ^ 17)%Z.
  rewrite bit_and_pow2 by lia. by destruct (Z.testbit n 17).
Qed.

(** X1.  [rejectPartialPayment] rejects exactly the transactions whose
    [Flags] is a number with bit 17 ([tfPartialPayment]) set, whatever the
    other flags are; a transaction whose [Flags] is absent or not a number
    passes. *)
Theorem rejectPartialPayment_flag_bit (tx : gmap string JsValue) :
  (∀ n, tx !! "Flags" = Some (JNum n) →
        rejectPartialPayment tx
        = if Z.testbit n 17 then Some (invalid "partial_payment_not_allowed") else None)
  ∧ (tx !! "Flags" = None → rejectPartialPayment tx = None)
  ∧ (∀ v, tx !! "Flags" = Some v → typeof v ≠ TyNumber →
          rejectPartialPayment tx = None).
Proof.
  split; [|split].
  - apply rejectPartialPayment_number.
  - unfold rejectPartialPayment, record_get. by intros ->.
  - unfold rejectPartialPayment, record_get. intros v -> Hv. by destruct v.
Qed.

Lemma rejectPartialPayment_flag_bit_witness :
  rejectPartialPayment {[ "Flags" := JNum (0x00020000 + 0x80000000 + 1) ]}
  = Some (invalid "partial_payment_not_allowed")
  ∧ rejectPartialPayment ∅ = None
  ∧ rejectPartialPayment {[ "Flags" := JNull ]} = None.
Proof.
  destruct (rejectPartialPayment_flag_bit {[ "Flags" := JNum (0x00020000 + 0x80000000 + 1) ]})
    as (H1 & _).
  destruct (rejectPartialPayment_flag_bit ∅) as (_ & H2 & _).
  destruct (rejectPartialPayment_flag_bit {[ "Flags" := JNull ]}) as (_ & _ & H3).
  split; [|split].
  - rewrite (H1 _ eq_refl). reflexivity.
  - apply H2. reflexivity.
  - apply (H3 JNull); [reflexivity|discriminate].
Defined.
(** ** The two stages of [verify] *)

Lemma verify_split lib payload requirements client :
  verify lib payload requirements client
  = match offline_verdict lib payload requirements with
    | Thrown msg => Raise msg
    | Returned (Some r) => Ret r
    | Returned None =>
        match client with
        | Some client => network_stage payload client
        | None => Ret valid
        end
    end.
Proof.
  unfold verify, offline_verdict, network_stage.
  destruct (decodeTxBlob _ _) as [tx|r]; [|done].
  destruct (validateTransaction _ _); [done|].
  destruct (verifyTxSignature _ _); [done|].
  destruct (crossCheckAuthorization _ _); [done|].
  destruct (checkDestination _ _); [done|].
  destruct (checkAmount _ _); [done|].
  cbn [or_else].
  destruct (checkAsset _ _) as [[r|]|msg]; [done| |done].
  cbn [lift mbind Prog_mbind Prog_bind or_else].
  destruct (rejectPartialPayment _); [done|]. cbn [or_else].
  destruct (isMPTAmount _); [|done].
  by destruct (checkMptAllowlist _ _) as [[r|]|msg].
Qed.

Ltac returns_done := intros [= <- <- <-]; eauto.

Section NetworkChecks.
Context (L : Ledger).

Lemma checkAccountBalance_returns client a m f sq t (s : ledger_state L) o s' tr :
  run L (checkAccountBalance client a m f sq t) s = (o, s', tr) → ∃ v, o = Returned v.
Proof. unfold checkAccountBalance. run_cases; returns_done. Qed.

Lemma checkLedgerExpiry_returns client lls (s : ledger_state L) o s' tr :
  run L (checkLedgerExpiry client lls) s = (o, s', tr) → ∃ v, o = Returned v.
Proof. unfold checkLedgerExpiry. run_cases; returns_done. Qed.

Lemma checkTrustLine_returns client d a (s : ledger_state L) o s' tr :
  run L (checkTrustLine client d a) s = (o, s', tr) → ∃ v, o = Returned v.
Proof. unfold checkTrustLine. run_cases; returns_done. Qed.

Lemma checkMptIssuance_returns client i (s : ledger_state L) o s' tr :
  run L (checkMptIssuance client i) s = (o, s', tr) → ∃ v, o = Returned v.
Proof. unfold checkMptIssuance. run_cases; returns_done. Qed.

Lemma checkMptHolder_returns client a m (s : ledger_state L) o s' tr :
  run L (checkMptHolder client a m) s = (o, s', tr) → ∃ v, o = Returned v.
Proof. unfold checkMptHolder. run_cases; returns_done. Qed.

Lemma checkMptDestination_returns client d i (s : ledger_state L) o s' tr :
  run L (checkMptDestination client d i) s = (o, s', tr) → ∃ v, o = Returned v.
Proof. unfold checkMptDestination. run_cases; returns_done. Qed.

(** One step of the network stage: a check that always returns, followed
    by the rest. *)
Lemma run_check_then (check : Prog (option VerifyResponse)) (rest : Prog VerifyResponse)
    (s : ledger_state L) :
  (∀ s o s' tr, run L check s = (o, s', tr) → ∃ v, o = Returned v) →
  ∃ v s1 t1,
    run L check s = (Returned v, s1, t1)
    ∧ run L (step ← check; or_else step rest) s
      = match v with
        | Some r => (Returned r, s1, t1)
        | None => let '(o, s2, t2) := run L rest s1 in (o, s2, t1 ++ t2)
        end.
Proof.
  intros Hret. destruct (run L check s) as [[o s1] t1] eqn:E.
  destruct (Hret _ _ _ _ E) as [v ->]. exists v, s1, t1. split; [done|].
  rewrite run_bind, E. destruct v; cbn; [by rewrite app_nil_r|done].
Qed.

(** The network stage never throws. *)
Lemma run_network_stage_returns payload client (s : ledger_state L) o s' tr :
  run L (network_stage payload client) s = (o, s', tr) → ∃ v, o = Returned v.
Proof.
  unfold network_stage.
  assert (∀ (check : Prog (option VerifyResponse)) rest,
            (∀ s o s' tr, run L check s = (o, s', tr) → ∃ v, o = Returned v) →
            (∀ s o s' tr, run L rest s = (o, s', tr) → ∃ v, o = Returned v) →
            ∀ s o s' tr, run L (step ← check; or_else step rest) s = (o, s', tr) →
                         ∃ v, o = Returned v) as Hstep.
  { intros check rest Hc Hr s0 o0 s0' tr0.
    destruct (run_check_then check rest s0 Hc) as (v & s1 & t1 & _ & ->).
    destruct v; [intros [= <- <- <-]; eauto|].
    destruct (run L rest s1) as [[o2 s2] t2] eqn:E. intros [= <- <- <-]. eauto. }
  revert s o s' tr.
  apply Hstep; [apply checkAccountBalance_returns|].
  apply Hstep; [apply checkLedgerExpiry_returns|].
  apply Hstep.
  { destruct (isIssuedCurrencyAmount _); [apply checkTrustLine_returns|].
    cbn. intros ???? [= <- <- <-]. eauto. }
  destruct (isMPTAmount _); [|cbn; intros ???? [= <- <- <-]; eauto].
  apply Hstep; [apply checkMptIssuance_returns|].
  apply Hstep; [apply checkMptHolder_returns|].
  apply Hstep; [apply checkMptDestination_returns|].
  cbn. intros ???? [= <- <- <-]. eauto.
Qed.
End NetworkChecks.

Ltac unreachable_case H :=
  match goal with
  | E : respond ?L ?c ?s = (Returned _, _) |- _ =>
      let Hc := fresh in pose proof (H c s) as Hc; rewrite E in Hc; discriminate Hc
  end.
Ltac unreachable_cases H :=
  cbn; repeat first [unreachable_case H | run_case]; try unreachable_case H.

Section Unreachable.
Context (L : Ledger) (Hun : unreachable L).

Lemma checkAccountBalance_unreachable client a m f sq t (s : ledger_state L) o s' tr :
  run L (checkAccountBalance client a m f sq t) s = (o, s', tr) → o = Returned None.
Proof. unfold checkAccountBalance. unreachable_cases Hun; by intros [= <- <- <-]. Qed.

Lemma checkLedgerExpiry_unreachable client lls (s : ledger_state L) o s' tr :
  run L (checkLedgerExpiry client lls) s = (o, s', tr) → o = Returned None.
Proof. unfold checkLedgerExpiry. unreachable_cases Hun; by intros [= <- <- <-]. Qed.

Lemma checkTrustLine_unreachable client d a (s : ledger_state L) o s' tr :
  run L (checkTrustLine client d a) s = (o, s', tr) → o = Returned None.
Proof. unfold checkTrustLine. unreachable_cases Hun; by intros [= <- <- <-]. Qed.

Lemma checkMptIssuance_unreachable client i (s : ledger_state L) o s' tr :
  run L (checkMptIssuance client i) s = (o, s', tr) → o = Returned None.
Proof. unfold checkMptIssuance. unreachable_cases Hun; by intros [= <- <- <-]. Qed.

Lemma checkMptHolder_unreachable client a m (s : ledger_state L) o s' tr :
  run L (checkMptHolder client a m) s = (o, s', tr) → o = Returned None.
Proof. unfold checkMptHolder. unreachable_cases Hun; by intros [= <- <- <-]. Qed.

Lemma checkMptDestination_unreachable client d i (s : ledger_state L) o s' tr :
  run L (checkMptDestination client d i) s = (o, s', tr) → o = Returned None.
Proof. unfold checkMptDestination. unreachable_cases Hun; by intros [= <- <- <-]. Qed.

Lemma run_network_stage_unreachable payload client (s : ledger_state L) o s' tr :
  run L (network_stage payload client) s = (o, s', tr) → o = Returned valid.
Proof.
  unfold network_stage.
  assert (∀ (check : Prog (option VerifyResponse)) rest,
            (∀ s o s' tr, run L check s = (o, s', tr) → o = Returned None) →
            (∀ s o s' tr, run L rest s = (o, s', tr) → o = Returned valid) →
            ∀ s o s' tr, run L (step ← check; or_else step rest) s = (o, s', tr) →
                         o = Returned valid) as Hstep.
  { intros check rest Hc Hr s0 o0 s0' tr0. rewrite run_bind.
    destruct (run L check s0) as [[o1 s1] t1] eqn:E.
    rewrite (Hc _ _ _ _ E). cbn [or_else].
    destruct (run L rest s1) as [[o2 s2] t2] eqn:E2. intros [= <- <- <-]. eauto. }
  revert s o s' tr.
  apply Hstep; [apply checkAccountBalance_unreachable|].
  apply Hstep; [apply checkLedgerExpiry_unreachable|].
  apply Hstep.
  { destruct (isIssuedCurrencyAmount _); [apply checkTrustLine_unreachable|].
    cbn. by intros ???? [= <- <- <-]. }
  destruct (isMPTAmount _); [|cbn; by intros ???? [= <- <- <-]].
  apply Hstep; [apply checkMptIssuance_unreachable|].
  apply Hstep; [apply checkMptHolder_unreachable|].
  apply Hstep; [apply checkMptDestination_unreachable|].
  cbn. by intros ???? [= <- <- <-].
Qed.
End Unreachable.

(** ** Verdicts of [verify] *)

Lemma crossCheckAuthorization_invalid tx payload r :
  crossCheckAuthorization tx payload = Some r → isValid r = false.
Proof.
  unfold crossCheckAuthorization. intros H.
  repeat case_match; simplify_eq; done.
Qed.

Lemma checkAmount_invalid payload requirements r :
  checkAmount payload requirements = Some r → isValid r = false.
Proof.
  unfold checkAmount.
  destruct (isIssuedCurrencyAmount _); [by case_match; intros [= <-]|].
  destruct (isMPTAmount _); [by case_match; intros [= <-]|].
  destruct (BigInt_of_amount _) as [p|]; destruct (BigInt (JStr _)) as [q|]; cbn;
    try by intros [= <-].
  by case_match; intros [= <-].
Qed.

Lemma checkAsset_invalid payload requirements r :
  checkAsset payload requirements = Returned (Some r) → isValid r = false.
Proof.
  unfold checkAsset. destruct (classifyAsset _) as [[]|]; cbn; [| | |done].
  all: intros [= H]; revert H; repeat case_match; by intros [= <-].
Qed.

(** The allowlist being empty, the lookup throws or finds nothing. *)
Lemma getMptConfig_empty net i :
  getMptConfig net i
  = if inherited net
    then Thrown "TypeError: MPT_ALLOWLIST[network]?.find is not a function"
    else Returned None.
Proof. unfold getMptConfig, MPT_ALLOWLIST. by rewrite lookup_empty. Qed.

Lemma checkMptAllowlist_rejects net a r :
  checkMptAllowlist net a = Returned r → r = Some (invalid "mpt_not_allowlisted").
Proof.
  unfold checkMptAllowlist. rewrite getMptConfig_empty.
  destruct (inherited net); [done|]. by intros [= <-].
Qed.

Lemma checkMptAllowlist_thrown net a msg :
  checkMptAllowlist net a = Thrown msg →
  inherited net = true
  ∧ getMptConfig net (amount_prop a "mpt_issuance_id") = Thrown msg.
Proof.
  unfold checkMptAllowlist. destruct (getMptConfig net _) as [c|m] eqn:E; [done|].
  cbn. intros [= <-]. split; [|done].
  rewrite getMptConfig_empty in E. by destruct (inherited net).
Qed.

(** Every verdict of the offline stage is a rejection. *)
Lemma offline_verdict_invalid lib payload requirements r :
  offline_verdict lib payload requirements = Returned (Some r) → isValid r = false.
Proof.
  unfold offline_verdict.
  destruct (decodeTxBlob _ _) as [tx|r1] eqn:E1.
  2:{ intros [= <-]. unfold decodeTxBlob in E1. by destruct (decode _ _); simplify_eq. }
  destruct (validateTransaction _ _) eqn:E2.
  { intros [= <-]. unfold validateTransaction in E2. by destruct (validate _ _); simplify_eq. }
  destruct (verifyTxSignature _ _) eqn:E3.
  { intros [= <-]. by destruct (verifyTxSignature_reasons _ _ _ E3) as [-> | ->]. }
  destruct (crossCheckAuthorization _ _) eqn:E4.
  { intros [= <-]. by eapply crossCheckAuthorization_invalid. }
  destruct (checkDestination _ _) eqn:E5.
  { intros [= <-]. unfold checkDestination in E5. by case_match; simplify_eq. }
  destruct (checkAmount _ _) eqn:E6.
  { intros [= <-]. by eapply checkAmount_invalid. }
  destruct (checkAsset _ _) as [[r7|]|] eqn:E7; [| |done].
  { intros [= <-]. by eapply checkAsset_invalid. }
  destruct (rejectPartialPayment _) eqn:E8.
  { intros [= <-]. unfold rejectPartialPayment in E8. by case_match; simplify_eq. }
  destruct (isMPTAmount _); [|done].
  intros E12. by apply checkMptAllowlist_rejects in E12 as [= ->].
Qed.

Lemma run_verify_offline (L : Ledger) (s : ledger_state L) lib payload requirements :
  run L (verify lib payload requirements None) s
  = (match offline_verdict lib payload requirements with
     | Thrown msg => Thrown msg
     | Returned (Some r) => Returned r
     | Returned None => Returned valid
     end, s, []).
Proof.
  rewrite verify_split. by destruct (offline_verdict _ _ _) as [[r|]|msg].
Qed.

(** X2.  Without a client [verify] makes no ledger call and leaves the
    ledger as it was. *)
Theorem verify_offline_makes_no_call (L : Ledger) (s : ledger_state L) lib payload
    requirements :
  (run L (verify lib payload requirements None) s).1.2 = s
  ∧ (run L (verify lib payload requirements None) s).2 = [].
Proof. by rewrite run_verify_offline. Qed.

(** X3.  The offline verdict is final: when [verify] without a client
    rejects or throws, [verify] with any client gives the same outcome
    without a single ledger call; and a payload that [verify] with a client
    finds valid is valid without one. *)
Theorem verify_offline_verdict_is_final (L : Ledger) (s : ledger_state L) lib payload
    requirements :
  (∀ o client,
     (run L (verify lib payload requirements None) s).1.1 = o →
     o ≠ Returned valid →
     run L (verify lib payload requirements client) s = (o, s, []))
  ∧ (∀ client v s' tr,
       run L (verify lib payload requirements (Some client)) s = (Returned v, s', tr) →
       isValid v = true →
       (run L (verify lib payload requirements None) s).1.1 = Returned valid).
Proof.
  split.
  - intros o client. rewrite run_verify_offline, verify_split. cbn [fst snd].
    destruct (offline_verdict _ _ _) as [[r|]|msg]; intros <- Hne; done.
  - intros client v s' tr. rewrite run_verify_offline, verify_split. cbn [fst snd].
    destruct (offline_verdict _ _ _) as [[r|]|msg] eqn:E; [|done|done].
    cbn. intros [= <- <- <-] Hv. by rewrite (offline_verdict_invalid _ _ _ _ E) in Hv.
Qed.

Lemma verify_offline_verdict_is_final_witness :
  run (accepting_ledger 7)
    (verify sample_lib forged_low_payload xrp_requirements (Some XrplClient)) tt
  = (Returned (invalid "invalid_signature"), tt, []).
Proof.
  destruct (verify_offline_verdict_is_final (accepting_ledger 7) tt sample_lib
              forged_low_payload xrp_requirements) as [H _].
  apply H; [vm_compute; reflexivity|discriminate].
Defined.

(** X4.  On a ledger whose every call is a transport error, [verify] with a
    client returns exactly what it returns without one: the unreachable
    network never turns a verdict into a rejection. *)
Theorem verify_on_unreachable_ledger (L : Ledger) (s : ledger_state L) lib payload
    requirements client :
  unreachable L →
  (run L (verify lib payload requirements (Some client)) s).1.1
  = (run L (verify lib payload requirements None) s).1.1.
Proof.
  intros Hun. rewrite run_verify_offline, verify_split. cbn [fst snd].
  destruct (offline_verdict _ _ _) as [[r|]|msg]; [done| |done].
  destruct (run L (network_stage payload client) s) as [[o s'] tr] eqn:E.
  by rewrite (run_network_stage_unreachable L Hun _ _ _ _ _ _ E).
Qed.

Lemma verify_on_unreachable_ledger_witness :
  (run unreachable_ledger
     (verify sample_lib xrp_payload xrp_requirements (Some XrplClient)) tt).1.1
  = Returned valid.
Proof.
  rewrite (verify_on_unreachable_ledger unreachable_ledger tt sample_lib xrp_payload
             xrp_requirements XrplClient); [vm_compute; reflexivity|].
  intros c s. reflexivity.
Defined.

Lemma offline_verdict_thrown lib payload requirements msg :
  offline_verdict lib payload requirements = Thrown msg →
  classifyAsset (asset requirements) = Thrown msg
  ∨ (isMPTAmount (amount (authorization payload)) = true
     ∧ inherited (network requirements) = true
     ∧ getMptConfig (network requirements)
         (amount_prop (amount (authorization payload)) "mpt_issuance_id") = Thrown msg).
Proof.
  unfold offline_verdict.
  destruct (decodeTxBlob _ _); [|done].
  destruct (validateTransaction _ _); [done|].
  destruct (verifyTxSignature _ _); [done|].
  destruct (crossCheckAuthorization _ _); [done|].
  destruct (checkDestination _ _); [done|].
  destruct (checkAmount _ _); [done|].
  destruct (checkAsset _ _) as [[r|]|msg'] eqn:E; [done| |].
  - destruct (rejectPartialPayment _); [done|].
    destruct (isMPTAmount _); [|done].
    intros E12. right. by apply checkMptAllowlist_thrown in E12.
  - intros [= <-]. left. unfold checkAsset in E.
    destruct (classifyAsset _); cbn in E; [discriminate E|congruence].
Qed.

Lemma run_verify_thrown (L : Ledger) (s s' : ledger_state L) lib payload requirements
    client msg tr :
  run L (verify lib payload requirements client) s = (Thrown msg, s', tr) →
  offline_verdict lib payload requirements = Thrown msg ∧ s' = s ∧ tr = [].
Proof.
  rewrite verify_split.
  destruct (offline_verdict _ _ _) as [[r|]|msg'] eqn:E; [done| |].
  - destruct client as [client|]; [|done]. intros Hrun.
    by destruct (run_network_stage_returns _ _ _ _ _ _ _ Hrun).
  - cbn. by intros [= <- <- <-].
Qed.

(** X5.  [verify] throws at two places only, both before any ledger call:
    where [classifyAsset] throws on the required asset, and, for an MPT
    amount, where the allowlist lookup throws, which it does for a network
    that is the name of a property every object inherits.  When neither
    can happen [verify] returns a response, on every ledger.  And the
    second throw does happen: with such a network, an MPT payment that
    passes steps 1 to 8 makes [verify] throw instead of rejecting. *)
Theorem verify_throw_sites (L : Ledger) (s : ledger_state L) lib payload requirements
    client :
  let auth := authorization payload in
  (∀ msg s' tr,
     run L (verify lib payload requirements client) s = (Thrown msg, s', tr) →
     tr = []
     ∧ (classifyAsset (asset requirements) = Thrown msg
        ∨ (isMPTAmount (amount auth) = true
           ∧ inherited (network requirements) = true
           ∧ getMptConfig (network requirements)
               (amount_prop (amount auth) "mpt_issuance_id") = Thrown msg)))
  ∧ (∀ t, classifyAsset (asset requirements) = Returned t →
          isMPTAmount (amount auth) = false ∨ inherited (network requirements) = false →
          ∃ v, (run L (verify lib payload requirements client) s).1.1 = Returned v)
  ∧ (∀ tx,
       decode lib (txBlob payload) = Returned tx →
       validate lib tx = Returned tt →
       verifySignature lib (txBlob payload) = Returned true →
       crossCheckAuthorization tx payload = None →
       checkDestination payload requirements = None →
       checkAmount payload requirements = None →
       checkAsset payload requirements = Returned None →
       rejectPartialPayment tx = None →
       isMPTAmount (amount auth) = true →
       inherited (network requirements) = true →
       ∃ msg, run L (verify lib payload requirements client) s = (Thrown msg, s, [])).
Proof.
  intros auth. subst auth. split; [|split].
  - intros msg s' tr Hrun.
    apply run_verify_thrown in Hrun as (E & _ & ->).
    split; [done|]. exact (offline_verdict_thrown _ _ _ _ E).
  - intros t Ht Hsafe. rewrite verify_split.
    destruct (offline_verdict _ _ _) as [[r|]|msg'] eqn:E.
    + cbn. eauto.
    + destruct client as [client|]; [|cbn; eauto].
      destruct (run L (network_stage payload client) s) as [[o s'] tr] eqn:E2.
      destruct (run_network_stage_returns _ _ _ _ _ _ _ E2) as [v ->]. cbn. eauto.
    + apply offline_verdict_thrown in E as [E|(Hm & Hi & _)]; [congruence|].
      destruct Hsafe; congruence.
  - intros tx H1 H2 H3 H4 H5 H6 H7 H8 Hm Hi. rewrite verify_split.
    unfold offline_verdict, decodeTxBlob, validateTransaction, verifyTxSignature.
    rewrite H1, H2, H3. cbn [negb]. rewrite H4, H5, H6, H7, H8, Hm.
    unfold checkMptAllowlist. rewrite getMptConfig_empty, Hi. cbn. eauto.
Qed.

Lemma verify_throw_sites_witness :
  (∃ v, (run (accepting_ledger 7)
           (verify sample_lib xrp_payload xrp_requirements (Some XrplClient)) tt).1.1
        = Returned v)
  ∧ ∃ msg, run (accepting_ledger 7)
             (verify mpt_sample_lib mpt_payload inherited_network_requirements
                (Some XrplClient)) tt
           = (Thrown msg, tt, []).
Proof.
  split.
  - destruct (verify_throw_sites (accepting_ledger 7) tt sample_lib
                xrp_payload xrp_requirements (Some XrplClient)) as (_ & H & _).
    apply (H asset_xrp); [reflexivity|by left].
  - destruct (verify_throw_sites (accepting_ledger 7) tt mpt_sample_lib
                mpt_payload inherited_network_requirements (Some XrplClient))
      as (_ & _ & H).
    apply (H mpt_tx); vm_compute; reflexivity.
Defined.

Lemma offline_verdict_pass lib payload requirements :
  offline_verdict lib payload requirements = Returned None →
  ∃ tx, decode lib (txBlob payload) = Returned tx
        ∧ validate lib tx = Returned tt
        ∧ verifySignature lib (txBlob payload) = Returned true
        ∧ crossCheckAuthorization tx payload = None
        ∧ checkDestination payload requirements = None
        ∧ checkAmount payload requirements = None
        ∧ checkAsset payload requirements = Returned None
        ∧ rejectPartialPayment tx = None
        ∧ isMPTAmount (amount (authorization payload)) = false.
Proof.
  unfold offline_verdict, decodeTxBlob, validateTransaction, verifyTxSignature.
  destruct (decode lib _) as [tx|]; [|done].
  destruct (validate lib tx) as [[]|] eqn:Hval; [|done].
  destruct (verifySignature lib _) as [[]|]; [|done|done]. cbn [negb].
  destruct (crossCheckAuthorization _ _) eqn:Hcross; [done|].
  destruct (checkDestination _ _); [done|].
  destruct (checkAmount _ _); [done|].
  destruct (checkAsset _ _) as [[r|]|]; [done| |done].
  destruct (rejectPartialPayment _) eqn:Hpartial; [done|].
  destruct (isMPTAmount _) eqn:Hm.
  - intros E12. by apply checkMptAllowlist_rejects in E12.
  - intros _. exists tx. repeat split; assumption.
Qed.

(** X6.  A valid verdict means every offline step passed: the blob
    decodes, the decoded transaction validates, the signature verifies,
    the cross-check, the destination, amount and asset checks and the
    partial-payment check all pass, and the amount is not an MPT amount (the
    allowlist being empty). *)
Theorem verify_valid_means_every_step_passed (L : Ledger) (s : ledger_state L) lib
    payload requirements client v s' tr :
  run L (verify lib payload requirements client) s = (Returned v, s', tr) →
  isValid v = true →
  ∃ tx, decode lib (txBlob payload) = Returned tx
        ∧ validate lib tx = Returned tt
        ∧ verifySignature lib (txBlob payload) = Returned true
        ∧ crossCheckAuthorization tx payload = None
        ∧ checkDestination payload requirements = None
        ∧ checkAmount payload requirements = None
        ∧ checkAsset payload requirements = Returned None
        ∧ rejectPartialPayment tx = None
        ∧ isMPTAmount (amount (authorization payload)) = false.
Proof.
  rewrite verify_split.
  destruct (offline_verdict _ _ _) as [[r|]|msg] eqn:E; [| |done].
  - cbn. intros [= <- <- <-] Hv. by rewrite (offline_verdict_invalid _ _ _ _ E) in Hv.
  - intros _ _. by apply offline_verdict_pass.
Qed.

Lemma verify_valid_means_every_step_passed_witness :
  ∃ tx, decode sample_lib (txBlob xrp_payload) = Returned tx
        ∧ validate sample_lib tx = Returned tt
        ∧ verifySignature sample_lib (txBlob xrp_payload) = Returned true
        ∧ crossCheckAuthorization tx xrp_payload = None
        ∧ checkDestination xrp_payload xrp_requirements = None
        ∧ checkAmount xrp_payload xrp_requirements = None
        ∧ checkAsset xrp_payload xrp_requirements = Returned None
        ∧ rejectPartialPayment tx = None
        ∧ isMPTAmount (amount (authorization xrp_payload)) = false.
Proof.
  eapply (verify_valid_means_every_step_passed (accepting_ledger 7) tt sample_lib
            xrp_payload xrp_requirements (Some XrplClient)); vm_compute; reflexivity.
Defined.

(** X7.  With the allowlist as shipped, empty, a payload whose amount is an
    MPT amount is never found valid, and its verification never reaches the
    ledger: [verify] returns a rejection or throws without a call. *)
Theorem verify_never_valid_for_mpt (L : Ledger) (s : ledger_state L) lib payload
    requirements client :
  isMPTAmount (amount (authorization payload)) = true →
  (∀ v, (run L (verify lib payload requirements client) s).1.1 = Returned v →
        isValid v = false)
  ∧ (run L (verify lib payload requirements client) s).2 = [].
Proof.
  intros Hm. rewrite verify_split.
  destruct (offline_verdict _ _ _) as [[r|]|msg] eqn:E.
  - split; [|done]. cbn. intros v [= <-]. by eapply offline_verdict_invalid.
  - apply offline_verdict_pass in E as (tx & _ & _ & _ & _ & _ & _ & _ & _ & E).
    congruence.
  - done.
Qed.

Lemma verify_never_valid_for_mpt_witness :
  (run (accepting_ledger 7)
     (verify mpt_sample_lib mpt_payload mpt_requirements (Some XrplClient)) tt).1.1
  = Returned (invalid "mpt_not_allowlisted")
  ∧ (run (accepting_ledger 7)
       (verify mpt_sample_lib mpt_payload mpt_requirements (Some XrplClient)) tt).2
    = [].
Proof.
  destruct (verify_never_valid_for_mpt (accepting_ledger 7) tt mpt_sample_lib
              mpt_payload mpt_requirements (Some XrplClient) eq_refl) as [_ H].
  split; [vm_compute; reflexivity|exact H].
Defined.

(** X8.  A decoded payment carrying the partial-payment flag is rejected
    with [partial_payment_not_allowed] when steps 1 to 7 all pass, for any
    client and without a ledger call. *)
Theorem verify_rejects_partial_payment (L : Ledger) (s : ledger_state L) lib payload
    requirements client tx n :
  decode lib (txBlob payload) = Returned tx →
  validate lib tx = Returned tt →
  verifySignature lib (txBlob payload) = Returned true →
  crossCheckAuthorization tx payload = None →
  checkDestination payload requirements = None →
  checkAmount payload requirements = None →
  checkAsset payload requirements = Returned None →
  tx !! "Flags" = Some (JNum n) →
  Z.testbit n 17 = true →
  run L (verify lib payload requirements client) s
  = (Returned (invalid "partial_payment_not_allowed"), s, []).
Proof.
  intros H1 H2 H3 H4 H5 H6 H7 Hf Hb.
  rewrite verify_split.
  unfold offline_verdict, decodeTxBlob, validateTransaction, verifyTxSignature.
  rewrite H1, H2, H3. cbn [negb]. rewrite H4, H5, H6, H7, (rejectPartialPayment_number tx n Hf), Hb. done.
Qed.

Lemma verify_rejects_partial_payment_witness :
  run unreachable_ledger
    (verify flagged_lib xrp_payload xrp_requirements None) tt
  = (Returned (invalid "partial_payment_not_allowed"), tt, []).
Proof.
  eapply verify_rejects_partial_payment; vm_compute; reflexivity.
Defined.

(** ** The cross-check and the asset check *)

(** X9.  A cross-check that passes guarantees that the decoded transaction
    agrees with every claimed field: account, destination, fee, the
    sequence (or, for a ticket, a zero sequence and that ticket), the last
    ledger sequence when one is claimed, and the amount: the same string
    for a native amount; for an issued-currency or MPT amount a decoded
    object with the same identifying fields and the same number as value.
    An amount object that is neither never passes. *)
Theorem crossCheckAuthorization_pass_sound tx payload :
  crossCheckAuthorization tx payload = None →
  let auth := authorization payload in
  let txAmount := record_get tx "Amount" in
  record_get tx "Account" = JStr (account auth)
  ∧ record_get tx "Destination" = JStr (destination auth)
  ∧ record_get tx "Fee" = JStr (fee auth)
  ∧ match ticketSequence auth with
    | Some ticket => record_get tx "Sequence" = JNum 0
                     ∧ record_get tx "TicketSequence" = JNum ticket
    | None => record_get tx "Sequence" = JNum (sequence auth)
    end
  ∧ match lastLedgerSequence auth with
    | Some lls => record_get tx "LastLedgerSequence" = JNum lls
    | None => True
    end
  ∧ match amount auth with
    | AmtString drops => txAmount = JStr drops
    | AmtObject _ =>
        is_object txAmount = true ∧ txAmount ≠ JNull
        ∧ num_neq (parseFloat (to_string (js_get txAmount "value")))
                  (parseFloat (to_string (amount_prop (amount auth) "value"))) = false
        ∧ ((isIssuedCurrencyAmount (amount auth) = true
            ∧ js_get txAmount "currency" = amount_prop (amount auth) "currency"
            ∧ js_get txAmount "issuer" = amount_prop (amount auth) "issuer")
           ∨ (isMPTAmount (amount auth) = true
              ∧ js_get txAmount "mpt_issuance_id"
                = amount_prop (amount auth) "mpt_issuance_id"))
    end.
Proof.
  intros H auth txAmount. unfold crossCheckAuthorization in H. fold auth txAmount in H.
  destruct (strict_neq (record_get tx "Account") _) eqn:Ha; [done|].
  destruct (strict_neq (record_get tx "Destination") _) eqn:Hd; [done|].
  destruct (strict_neq (record_get tx "Fee") _) eqn:Hf; [done|].
  apply strict_neq_false in Ha, Hd, Hf.
  split; [done|]. split; [done|]. split; [done|].
  match type of H with
  | match ?c with _ => _ end = None => destruct c as [r|] eqn:Hamount; [done|]
  end.
  match type of H with
  | match ?c with _ => _ end = None => destruct c as [r|] eqn:Hseq; [done|]
  end.
  split; [|split].
  - revert Hseq. destruct (ticketSequence auth) as [ticket|].
    + destruct (strict_neq (record_get tx "Sequence") _) eqn:H1; cbn; [done|].
      destruct (strict_neq (record_get tx "TicketSequence") _) eqn:H2; cbn; [done|].
      by apply strict_neq_false in H1, H2.
    + destruct (strict_neq (record_get tx "Sequence") _) eqn:H1; cbn; [done|].
      by apply strict_neq_false in H1.
  - revert H. destruct (lastLedgerSequence auth) as [lls|]; [|done].
    destruct (strict_neq (record_get tx "LastLedgerSequence") _) eqn:H1; cbn; [done|].
    by apply strict_neq_false in H1.
  - revert Hamount. destruct (amount auth) as [drops|o] eqn:Hamt.
    + cbn. destruct (strict_neq txAmount _) eqn:H1; cbn; [done|].
      by apply strict_neq_false in H1.
    + destruct (isIssuedCurrencyAmount _) eqn:Hiss.
      * destruct (negb (is_object txAmount) || strict_eq txAmount JNull) eqn:Hobj; cbn; [done|].
        apply orb_false_elim in Hobj as [Ho Hn]. apply negb_false_iff in Ho.
        destruct (strict_neq _ _ || strict_neq _ _ || num_neq _ _) eqn:Hcmp; cbn; [done|].
        apply orb_false_elim in Hcmp as [Hcmp Hnum].
        apply orb_false_elim in Hcmp as [Hc Hi].
        apply strict_neq_false in Hc, Hi. intros _.
        split; cbn; [done|]. split; [by intros Hnull; rewrite Hnull in Hn|].
        split; cbn; [done|]. left. done.
      * destruct (isMPTAmount _) eqn:Hmpt; [|done].
        destruct (negb (is_object txAmount) || strict_eq txAmount JNull) eqn:Hobj; cbn; [done|].
        apply orb_false_elim in Hobj as [Ho Hn]. apply negb_false_iff in Ho.
        destruct (strict_neq _ _ || num_neq _ _) eqn:Hcmp; cbn; [done|].
        apply orb_false_elim in Hcmp as [Hc Hnum].
        apply strict_neq_false in Hc. intros _.
        split; cbn; [done|]. split; [by intros Hnull; rewrite Hnull in Hn|].
        split; cbn; [done|]. right. done.
Qed.

Lemma crossCheckAuthorization_pass_sound_witness :
  record_get usd_tx "Account" = JStr "rSender"
  ∧ js_get (record_get usd_tx "Amount") "issuer" = JStr "rIssuer".
Proof.
  destruct (crossCheckAuthorization_pass_sound usd_tx
              (sample_payload "PAY_USD" (IssuedCurrencyAmount "USD" "rIssuer" "25.50") None))
    as (H1 & _ & _ & _ & _ & H6); [vm_compute; reflexivity|].
  split; [exact H1|].
  destruct H6 as (_ & _ & _ & [(_ & _ & Hi)|(Hm & _)]); [exact Hi|].
  vm_compute in Hm. discriminate Hm.
Defined.

Lemma startsWith_r_not_XRP s : startsWith s "r" = true → s ≠ "XRP".
Proof. by intros H ->. Qed.

Lemma startsWith_mpt_not_r s : startsWith s "mpt:" = true → startsWith s "r" = false.
Proof.
  destruct s as [|a s]; [done|]. unfold startsWith.
  assert (∀ a s1 b s2, String.prefix (String a s1) (String b s2)
                       = if ascii_dec a b then String.prefix s1 s2 else false) as Hp
    by reflexivity.
  rewrite !Hp. destruct (ascii_dec "m" a) as [<-|]; [|done]. intros _.
  by destruct (ascii_dec "r" "m").
Qed.

(** X10.  The asset check passes in exactly three situations: the required
    asset is ["XRP"] and the claimed amount is a string; the required asset
    starts with ["r"], the claimed amount is an issued-currency object and
    its issuer is the required asset; the required asset starts with
    ["mpt:"], the claimed amount is an MPT object and its issuance id is the
    required asset without its first four characters. *)
Theorem checkAsset_pass_iff payload requirements :
  let a := amount (authorization payload) in
  let required := asset requirements in
  checkAsset payload requirements = Returned None ↔
    (required = "XRP" ∧ amount_is_string a = true)
    ∨ (startsWith required "r" = true ∧ isIssuedCurrencyAmount a = true
       ∧ amount_prop a "issuer" = JStr required)
    ∨ (startsWith required "mpt:" = true ∧ isMPTAmount a = true
       ∧ amount_prop a "mpt_issuance_id" = JStr (slice 4 required)).
Proof.
  intros a required. unfold checkAsset, classifyAsset. fold a required.
  destruct (String.eqb required "XRP") eqn:Hxrp.
  { apply String.eqb_eq in Hxrp. cbn. split.
    - destruct (amount_is_string a) eqn:Hs; cbn; [by left|done].
    - intros [[_ ->]|[(Hr & _)|(Hm & _)]]; [done| |].
      + by apply startsWith_r_not_XRP in Hr.
      + by rewrite Hxrp in Hm. }
  apply String.eqb_neq in Hxrp.
  destruct (startsWith required "r") eqn:Hr.
  { cbn. split.
    - destruct (isIssuedCurrencyAmount a) eqn:Hi; cbn; [|done].
      destruct (strict_neq (amount_prop a "issuer") _) eqn:Hs; [done|].
      apply strict_neq_str_false in Hs. intros _. right. left. done.
    - intros [[? _]|[(_ & -> & Hs)|(Hm & _)]]; [done| |].
      + apply strict_neq_str_false in Hs. cbn. by rewrite Hs.
      + apply startsWith_mpt_not_r in Hm. congruence. }
  destruct (startsWith required "mpt:") eqn:Hm.
  { cbn. split.
    - destruct (isMPTAmount a) eqn:Hi; cbn; [|done].
      destruct (strict_neq (amount_prop a "mpt_issuance_id") _) eqn:Hs; [done|].
      apply strict_neq_str_false in Hs. intros _. right. right. done.
    - intros [[? _]|[(? & _)|(_ & -> & Hs)]]; [done|done|].
      apply strict_neq_str_false in Hs. cbn. by rewrite Hs. }
  cbn. split; [done|]. intros [[? _]|[(? & _)|(? & _)]]; done.
Qed.

(** X11.  The asset string [getSupported] advertises for an issuance,
    ["mpt:"] followed by the issuance id, is read back by the asset check as
    that issuance: against it, an MPT amount passes when it names the same
    issuance id and is rejected with [asset_mismatch_issuance_id] when it
    names another one, whatever the id looks like. *)
Theorem advertised_mpt_asset_round_trip mpt payload requirements id value :
  asset requirements = supported_asset (supportedMpt mpt) →
  amount (authorization payload) = MPTAmount id value →
  checkAsset payload requirements
  = Returned (if String.eqb id (issuanceId mpt) then None
              else Some (invalid "asset_mismatch_issuance_id")).
Proof.
  intros Hasset Hamount. unfold checkAsset, classifyAsset.
  rewrite Hasset, Hamount. cbn [supportedMpt supported_asset].
  destruct (issuanceId mpt) as [|c s] eqn:Hid.
  - vm_compute. by destruct id.
  - assert (String.eqb ("mpt:" +:+ String c s) "XRP" = false) as -> by done.
    assert (startsWith ("mpt:" +:+ String c s) "r" = false) as -> by done.
    assert (startsWith ("mpt:" +:+ String c s) "mpt:" = true) as ->.
    { unfold startsWith. rewrite !append_cons, append_nil_l.
      cbn. by repeat destruct (ascii_dec _ _). }
    cbn -[String.eqb]. unfold strict_neq. cbn -[String.eqb].
    rewrite !append_cons, append_nil_l. cbn -[String.eqb].
    assert (isMPTAmount (MPTAmount id value) = true) as -> by (by vm_compute).
    assert (({["mpt_issuance_id" := JStr id; "value" := JStr value]} : gmap string JsValue)
            !! "mpt_issuance_id" = Some (JStr id)) as -> by (by vm_compute).
    cbn -[String.eqb]. by destruct (String.eqb id (String c s)).
Qed.

Lemma advertised_mpt_asset_round_trip_witness :
  checkAsset mpt_payload mpt_requirements = Returned None.
Proof.
  exact (advertised_mpt_asset_round_trip
           {| issuanceId := "00000001A407AF58"; name := "Token"; issuer := "rIssuer"; assetScale := 6 |}
           mpt_payload mpt_requirements "00000001A407AF58" "25.5" eq_refl eq_refl).
Defined.

(** ** Amounts that are not integers *)

Lemma is_ws2_high c1 c2 :
  is_ws2 c1 c2 = true → (128 ≤ ascii_code c1 ∧ 128 ≤ ascii_code c2)%Z.
Proof.
  unfold is_ws2. rewrite andb_true_iff, !Z.eqb_eq. lia.
Qed.

Lemma is_ws3_high c1 c2 c3 :
  is_ws3 c1 c2 c3 = true →
  (128 ≤ ascii_code c1 ∧ 128 ≤ ascii_code c2 ∧ 128 ≤ ascii_code c3)%Z.
Proof.
  unfold is_ws3.
  rewrite !orb_true_iff, !andb_true_iff, !orb_true_iff, !andb_true_iff, !Z.eqb_eq,
    !Z.leb_le.
  lia.
Qed.

Lemma high_not_point c : (128 ≤ ascii_code c)%Z → Ascii.eqb "." c = false.
Proof. intros H. by destruct (Ascii.eqb_spec "." c) as [<-|]. Qed.

Lemma is_ws_not_point c : is_ws c = true → Ascii.eqb "." c = false.
Proof. intros H. by destruct (Ascii.eqb_spec "." c) as [<-|]. Qed.

Lemma trim_start_has_point s : has_point s = true → has_point (trim_start s) = true.
Proof.
  unfold has_point.
  assert (∀ n s, (String.length s ≤ n)%nat →
                 string_exists (Ascii.eqb ".") s = true →
                 string_exists (Ascii.eqb ".") (trim_start s) = true) as Haux;
    [|by apply (Haux (String.length s))].
  clear s. induction n as [|n IH]; intros [|c1 r1] Hlen; try done; [cbn in Hlen; lia|].
  cbn [trim_start]. cbn [String.length] in Hlen.
  destruct (is_ws c1) eqn:H1.
  { cbn [string_exists]. rewrite is_ws_not_point by done. apply IH. lia. }
  destruct r1 as [|c2 r2]; [done|]. cbn [String.length] in Hlen.
  destruct (is_ws2 c1 c2) eqn:H2.
  { apply is_ws2_high in H2 as [??]. cbn [string_exists].
    rewrite !high_not_point by done. apply IH. lia. }
  destruct r2 as [|c3 r3]; [done|]. cbn [String.length] in Hlen.
  destruct (is_ws3 c1 c2 c3) eqn:H3; [|done].
  apply is_ws3_high in H3 as (? & ? & ?). cbn [string_exists].
  rewrite !high_not_point by done. apply IH. lia.
Qed.

Lemma trim_end_has_point s : has_point s = true → has_point (trim_end s) = true.
Proof.
  unfold has_point. induction s as [|c r IH]; [done|]. cbn [trim_end string_exists].
  destruct (Ascii.eqb "." c) eqn:Hc; cbn [orb].
  - apply Ascii.eqb_eq in Hc as <-. intros _.
    rewrite is_ws_char_ascii by done. cbn [string_exists]. done.
  - intros H. specialize (IH H).
    destruct (is_ws_char (String c (trim_end r))) eqn:Hws.
    + destruct (trim_end r) as [|c2 [|c3 [|c4 r4]]]; cbn [is_ws_char] in Hws; try done.
      * apply is_ws2_high in Hws as [??]. cbn [string_exists] in IH.
        by rewrite high_not_point in IH.
      * apply is_ws3_high in Hws as (? & ? & ?). cbn [string_exists] in IH.
        by rewrite !high_not_point in IH.
    + cbn [string_exists]. by rewrite Hc.
Qed.

Lemma digits_acc_has_point digit base s acc :
  digit "."%char = None → has_point s = true → digits_acc digit base s acc = None.
Proof.
  intros Hd. unfold has_point. revert acc. induction s as [|c r IH]; [done|].
  intros acc. cbn [string_exists digits_acc].
  destruct (Ascii.eqb "." c) eqn:Hc.
  - apply Ascii.eqb_eq in Hc as <-. by rewrite Hd.
  - cbn. intros H. destruct (digit c); [by apply IH|done].
Qed.

Lemma parse_digits_has_point digit base s :
  digit "."%char = None → has_point s = true → parse_digits digit base s = None.
Proof.
  intros Hd H. destruct s; [done|]. by apply digits_acc_has_point.
Qed.

Lemma StringToBigInt_has_point s : has_point s = true → StringToBigInt s = None.
Proof.
  intros H. apply trim_start_has_point, trim_end_has_point in H.
  unfold StringToBigInt. fold (trim s) in H. destruct (trim s) as [|c r]; [done|].
  destruct (Ascii.eqb c "+") eqn:Hplus.
  { apply Ascii.eqb_eq in Hplus as ->. by apply parse_digits_has_point. }
  destruct (Ascii.eqb c "-") eqn:Hminus.
  { apply Ascii.eqb_eq in Hminus as ->. by rewrite parse_digits_has_point. }
  destruct r as [|x r']; [by apply parse_digits_has_point|].
  destruct (Ascii.eqb c "0") eqn:Hzero; cbn [andb];
    [|by apply parse_digits_has_point].
  apply Ascii.eqb_eq in Hzero as ->.
  unfold ascii_in.
  destruct (Ascii.eqb x "x") eqn:H1; [apply Ascii.eqb_eq in H1 as ->|];
    [by apply parse_digits_has_point|].
  destruct (Ascii.eqb x "X") eqn:H2; [apply Ascii.eqb_eq in H2 as ->|];
    [by apply parse_digits_has_point|].
  destruct (Ascii.eqb x "o") eqn:H3; [apply Ascii.eqb_eq in H3 as ->|];
    [by apply parse_digits_has_point|].
  destruct (Ascii.eqb x "O") eqn:H4; [apply Ascii.eqb_eq in H4 as ->|];
    [by apply parse_digits_has_point|].
  destruct (Ascii.eqb x "b") eqn:H5; [apply Ascii.eqb_eq in H5 as ->|];
    [by apply parse_digits_has_point|].
  destruct (Ascii.eqb x "B") eqn:H6; [apply Ascii.eqb_eq in H6 as ->|];
    [by apply parse_digits_has_point|].
  by apply parse_digits_has_point.
Qed.

(** X12.  Outside the issued-currency and MPT branches the amount is read
    as a whole number of drops: a claimed amount that is a string with a
    decimal point, or an object that is neither an issued-currency nor an
    MPT amount, is rejected with [invalid_amount_format], whatever the
    requirement is. *)
Theorem checkAmount_not_an_integer payload requirements :
  let a := amount (authorization payload) in
  isIssuedCurrencyAmount a = false →
  isMPTAmount a = false →
  amount_is_object a = true ∨ (∃ drops, a = AmtString drops ∧ has_point drops = true) →
  checkAmount payload requirements = Some (invalid "invalid_amount_format").
Proof.
  intros a Hiss Hmpt Hcase. subst a. unfold checkAmount. rewrite Hiss, Hmpt.
  destruct Hcase as [Hobj|(drops & -> & Hpoint)].
  - by destruct (amount (authorization payload)) as [|o].
  - cbn. unfold BigInt_of_string. by rewrite (StringToBigInt_has_point drops Hpoint).
Qed.

Lemma checkAmount_not_an_integer_witness :
  checkAmount (sample_payload "PAY_XRP" (AmtString "1000000.5") None)
              (sample_requirements "1000000" "XRP")
  = Some (invalid "invalid_amount_format").
Proof.
  apply checkAmount_not_an_integer; [reflexivity|reflexivity|].
  right. exists "1000000.5". split; reflexivity.
Defined.

(** ** The network checks on a ledger that answers *)

Lemma BigInt_of_object o : BigInt_of_amount (AmtObject o) = Thrown
  ("SyntaxError: Cannot convert " +:+ "[object Object]" +:+ " to a BigInt").
Proof. reflexivity. Qed.

(** X13.  For a claimed amount that is an object but not an issued-currency
    amount, an MPT amount in particular, the balance step passes whatever
    the ledger answers: converting the object to a number of drops throws,
    the error is swallowed, and neither the balance nor the sequence or the
    ticket is checked.  The step makes its one [account_info] request and
    nothing else. *)
Theorem checkAccountBalance_passes_on_objects (L : Ledger) (s : ledger_state L)
    client account' amount' fee' sequence' ticketSequence' :
  amount_is_object amount' = true →
  isIssuedCurrencyAmount amount' = false →
  let r := run L (checkAccountBalance client account' amount' fee' sequence'
                    ticketSequence') s in
  r.1.1 = Returned None ∧ calls r.2 = 1%nat.
Proof.
  intros Hobj Hiss. destruct amount' as [|o]; [done|].
  unfold checkAccountBalance. rewrite Hiss, BigInt_of_object.
  run_cases; done.
Qed.

Lemma checkAccountBalance_passes_on_objects_witness :
  (run (accepting_ledger 99) (checkAccountBalance XrplClient "rSender"
          (MPTAmount "00000001A407AF58" "25.5") "12" 7 None) tt).1.1 = Returned None.
Proof.
  exact (proj1 (checkAccountBalance_passes_on_objects (accepting_ledger 99) tt XrplClient
                  "rSender" (MPTAmount "00000001A407AF58" "25.5") "12" 7 None
                  eq_refl eq_refl)).
Defined.

Lemma js_get_defined v k : js_get v k ≠ JUndefined → ∃ o, v = JObj o.
Proof. destruct v; try done. by eexists. Qed.

(** X14.  The balance step on a native payment, when [account_info]
    answers with a balance: the balance must cover the amount, the fee and
    a reserve of 10000000 drops, compared as integers, a balance of exactly
    that sum being enough; only then is the claimed sequence compared with
    the account's, and a difference is [invalid_sequence]. *)
Theorem checkAccountBalance_native (L : Ledger) (s s' : ledger_state L) client
    account' drops fee' sequence' info Balance balance amountDrops feeDrops :
  respond L (CallRequest {[ "command" := JStr "account_info";
                            "account" := JStr account';
                            "ledger_index" := JStr "current" ]}) s
  = (Returned info, s') →
  let account_data := js_get (js_get info "result") "account_data" in
  js_get account_data "Balance" = JStr Balance →
  StringToBigInt Balance = Some balance →
  StringToBigInt drops = Some amountDrops →
  StringToBigInt fee' = Some feeDrops →
  (run L (checkAccountBalance client account' (AmtString drops) fee' sequence' None) s).1
  = (Returned
       (if (balance <? amountDrops + feeDrops + 10000000)%Z
        then Some (invalid "insufficient_balance")
        else if strict_neq (JNum sequence') (js_get account_data "Sequence")
             then Some (invalid "invalid_sequence")
             else None), s').
Proof.
  intros Hresp account_data HBalance Hbalance Hdrops Hfee.
  destruct (js_get_defined account_data "Balance") as [data Hdata];
    [by rewrite HBalance|].
  subst account_data.
  destruct (js_get_defined (js_get info "result") "account_data") as [result Hresult];
    [by rewrite Hdata|].
  destruct (js_get_defined info "result") as [reply Hreply]; [by rewrite Hresult|].
  unfold checkAccountBalance, request, await.
  cbn [try_catch Prog_bind mbind Prog_mbind run]. rewrite Hresp.
  subst info. rewrite Hresult in Hdata, HBalance. rewrite Hdata in HBalance.
  cbn -[js_get Z.add Z.ltb StringToBigInt]. rewrite !Hresult.
  cbn -[js_get Z.add Z.ltb StringToBigInt]. rewrite !Hdata.
  cbn -[js_get Z.add Z.ltb StringToBigInt]. rewrite HBalance.
  cbn -[js_get Z.add Z.ltb StringToBigInt]. unfold BigInt_of_string.
  rewrite Hbalance, Hfee, Hdrops. cbn -[js_get Z.add Z.ltb].
  by destruct (balance <? amountDrops + feeDrops + 10000000)%Z.
Qed.

Lemma checkAccountBalance_native_witness :
  (run (accepting_ledger 8) (checkAccountBalance XrplClient "rSender"
          (AmtString "89999988") "12" 7 None) tt).1
  = (Returned (Some (invalid "invalid_sequence")), tt).
Proof.
  exact (checkAccountBalance_native (accepting_ledger 8) tt tt XrplClient "rSender"
           "89999988" "12" 7 _ "100000000" 100000000 89999988 12
           eq_refl eq_refl eq_refl eq_refl eq_refl).
Defined.


(** X16.  The issuance step on a ledger that returns an issuance node:
    the step passes exactly when the node's [Flags] is a number with bit 5
    ([tfMPTCanTransfer]) set, whatever the other flags are; a node without
    numeric flags is [mpt_not_transferable]. *)
Theorem checkMptIssuance_transfer_flag (L : Ledger) (s s' : ledger_state L) client
    issuanceId' reply node :
  respond L (CallRequest {[ "command" := JStr "ledger_entry";
                            "mpt_issuance" := issuanceId' ]}) s
  = (Returned reply, s') →
  js_get (js_get reply "result") "node" = JObj node →
  (run L (checkMptIssuance client issuanceId') s).1
  = (Returned match node !! "Flags" with
              | Some (JNum flags) =>
                  if Z.testbit flags 5 then None
                  else Some (invalid "mpt_not_transferable")
              | _ => Some (invalid "mpt_not_transferable")
              end, s').
Proof.
  intros Hresp Hnode.
  destruct (js_get_defined (js_get reply "result") "node") as [result Hresult];
    [by rewrite Hnode|].
  destruct (js_get_defined reply "result") as [o Hreply]; [by rewrite Hresult|].
  subst reply. rewrite Hresult in Hnode.
  unfold checkMptIssuance, request, await.
  cbn [try_catch Prog_bind mbind Prog_mbind run]. rewrite Hresp.
  unfold ledger_entry_node.
  cbn -[js_get bit_and Z.testbit]. rewrite Hresult.
  cbn -[js_get bit_and Z.testbit]. rewrite Hnode.
  cbn -[bit_and Z.testbit]. unfold flags_of. cbn -[bit_and Z.testbit].
  change tfMPTCanTransfer with (2 ^ 5)%Z.
  destruct (node !! "Flags") as [[| | |flags| | |]|]; cbn -[bit_and Z.testbit];
    try done.
  rewrite bit_and_pow2 by lia. by destruct (Z.testbit flags 5); cbn.
Qed.


Lemma checkMptIssuance_transfer_flag_witness :
  (run (replying_ledger 100 (fun _ => ledger_entry_reply (JObj {[ "Flags" := JNum 0x62 ]})))
       (checkMptIssuance XrplClient (JStr "00000001A407AF58")) tt).1
  = (Returned None, tt).
Proof.
  exact (checkMptIssuance_transfer_flag
           (replying_ledger 100 (fun _ => ledger_entry_reply (JObj {[ "Flags" := JNum 0x62 ]})))
           tt tt XrplClient (JStr "00000001A407AF58") _ {[ "Flags" := JNum 0x62 ]}
           eq_refl eq_refl).
Defined.

Lemma js_find_objects l (p : JsValue → bool) (cb : JsValue → Outcome bool) :
  Forall (fun line => cb line = Returned (p line)) l →
  js_find (JArr l) cb = Returned (default JUndefined (List.find p l)).
Proof.
  cbn. induction 1 as [|x r Hx _ IH]; [done|].
  cbn. rewrite Hx. cbn. by destruct (p x).
Qed.

(** What the comparisons make of a value that is not a number. *)
Lemma num_le_NaN x y : isNaN x = true → num_le x y = false.
Proof. by destruct x. Qed.

Lemma run_checkTrustLine (L : Ledger) (s s' : ledger_state L) client
    destination' amount' reply lines :
  respond L (CallRequest {[ "command" := JStr "account_lines";
                            "account" := JStr destination';
                            "peer" := amount_prop amount' "issuer";
                            "ledger_index" := JStr "current" ]}) s
  = (Returned reply, s') →
  js_get (js_get reply "result") "lines" = JArr lines →
  Forall (fun line => is_object line = true ∧ line ≠ JNull) lines →
  (run L (checkTrustLine client destination' amount') s).1
  = (Returned
       match List.find (fun line => strict_eq (js_get line "currency")
                                      (amount_prop amount' "currency")) lines with
       | None => Some (invalid "no_trust_line")
       | Some line =>
           if num_le (parseFloat (to_string (js_get line "limit"))) float_zero
           then Some (invalid "trust_line_limit_zero")
           else if truthy (js_get line "freeze_peer")
                then Some (invalid "trust_line_frozen")
                else None
       end, s').
Proof.
  intros Hresp Hlines Hobjects.
  destruct (js_get_defined (js_get reply "result") "lines") as [result Hresult];
    [by rewrite Hlines|].
  destruct (js_get_defined reply "result") as [o Hreply]; [by rewrite Hresult|].
  subst reply. rewrite Hresult in Hlines.
  unfold checkTrustLine, request, await.
  cbn [try_catch Prog_bind mbind Prog_mbind run]. rewrite Hresp.
  cbn -[js_get js_find parseFloat]. rewrite Hresult.
  cbn -[js_get js_find parseFloat]. rewrite Hlines.
  rewrite (js_find_objects lines
             (fun line => strict_eq (js_get line "currency")
                            (amount_prop amount' "currency"))).
  2:{ eapply Forall_impl; [exact Hobjects|]. intros line [Ho Hn]. by destruct line. }
  destruct (List.find _ lines) as [line|] eqn:Hfind; cbn -[js_get parseFloat].
  - apply find_some in Hfind as [Hin _]. apply list_elem_of_In in Hin.
    rewrite Forall_forall in Hobjects. destruct (Hobjects _ Hin) as [Ho Hn].
    assert (truthy line = true) as -> by by destruct line.
    cbn -[js_get parseFloat].
    destruct (num_le _ _); cbn -[js_get parseFloat]; [done|].
    by destruct (truthy (js_get line "freeze_peer")).
  - done.
Qed.

(** X17.  The trust-line step on a ledger that returns the destination's
    lines, all of them objects: the first line in the claimed currency
    decides.  Without such a line the verdict is [no_trust_line]; a limit
    that parses to a number at or below zero is [trust_line_limit_zero];
    then a truthy [freeze_peer] is [trust_line_frozen]; later lines are not
    looked at.  A limit that is missing or does not parse is not a number,
    is not at or below zero, and is not rejected as a zero limit. *)
Theorem checkTrustLine_first_line_decides (L : Ledger) (s s' : ledger_state L) client
    destination' amount' reply lines :
  respond L (CallRequest {[ "command" := JStr "account_lines";
                            "account" := JStr destination';
                            "peer" := amount_prop amount' "issuer";
                            "ledger_index" := JStr "current" ]}) s
  = (Returned reply, s') →
  js_get (js_get reply "result") "lines" = JArr lines →
  Forall (fun line => is_object line = true ∧ line ≠ JNull) lines →
  let first := List.find (fun line => strict_eq (js_get line "currency")
                                        (amount_prop amount' "currency")) lines in
  (run L (checkTrustLine client destination' amount') s).1
  = (Returned
       match first with
       | None => Some (invalid "no_trust_line")
       | Some line =>
           if num_le (parseFloat (to_string (js_get line "limit"))) float_zero
           then Some (invalid "trust_line_limit_zero")
           else if truthy (js_get line "freeze_peer")
                then Some (invalid "trust_line_frozen")
                else None
       end, s')
  ∧ (∀ line, first = Some line →
             isNaN (parseFloat (to_string (js_get line "limit"))) = true →
             (run L (checkTrustLine client destination' amount') s).1
             = (Returned (if truthy (js_get line "freeze_peer")
                          then Some (invalid "trust_line_frozen")
                          else None), s')).
Proof.
  intros Hresp Hlines Hobjects first.
  pose proof (run_checkTrustLine L s s' client destination' amount' reply lines
                Hresp Hlines Hobjects) as Hrun.
  fold first in Hrun. split; [exact Hrun|].
  intros line Hfirst Hnan. rewrite Hrun, Hfirst. by rewrite num_le_NaN.
Qed.

Lemma checkTrustLine_first_line_decides_witness :
  (run (replying_ledger 100
          (fun _ => account_lines_reply [trust_line "EUR" "0" false;
                                         trust_line "USD" "1000" true;
                                         trust_line "USD" "1000" false]))
       (checkTrustLine XrplClient "rMerchant" (IssuedCurrencyAmount "USD" "rIssuer" "25.5"))
       tt).1
  = (Returned (Some (invalid "trust_line_frozen")), tt)
  ∧ (run (replying_ledger 100
            (fun _ => account_lines_reply [trust_line "USD" "unlimited" false]))
         (checkTrustLine XrplClient "rMerchant"
            (IssuedCurrencyAmount "USD" "rIssuer" "25.5")) tt).1
    = (Returned None, tt).
Proof.
  split.
  - refine (eq_trans
      (proj1 (checkTrustLine_first_line_decides
         (replying_ledger 100
            (fun _ => account_lines_reply [trust_line "EUR" "0" false;
                                           trust_line "USD" "1000" true;
                                           trust_line "USD" "1000" false]))
         tt tt XrplClient "rMerchant" (IssuedCurrencyAmount "USD" "rIssuer" "25.5") _
         [trust_line "EUR" "0" false; trust_line "USD" "1000" true;
          trust_line "USD" "1000" false] eq_refl eq_refl _)) _).
    + repeat constructor; discriminate.
    + vm_compute. reflexivity.
  - refine (proj2 (checkTrustLine_first_line_decides
         (replying_ledger 100
            (fun _ => account_lines_reply [trust_line "USD" "unlimited" false]))
         tt tt XrplClient "rMerchant" (IssuedCurrencyAmount "USD" "rIssuer" "25.5") _
         [trust_line "USD" "unlimited" false] eq_refl eq_refl _)
         (trust_line "USD" "unlimited" false) eq_refl eq_refl).
    repeat constructor; discriminate.
Defined.

(** ** Submission and polling *)

Lemma mapEngineResult_not_timeout v : mapEngineResult v ≠ Reason "settlement_timeout".
Proof.
  unfold mapEngineResult.
  destruct (_ !! to_string v) as [reason|] eqn:E.
  - apply elem_of_list_to_map_2 in E.
    repeat (apply elem_of_cons in E as [[= _ ->]|E]; [done|]).
    by apply elem_of_nil in E.
  - by destruct (inherited (to_string v)).
Qed.

Lemma inspect_tx_found txHash txResult res :
  inspect_tx txHash txResult = Returned (Some res) →
  transaction res = Some txHash
  ∧ errorReason res ≠ Some (Reason "settlement_timeout")
  ∧ (success res = true → errorReason res = None).
Proof.
  unfold inspect_tx.
  destruct (js_prop txResult "result") as [result|]; [cbn|done].
  destruct (js_prop result "validated") as [validated|]; [cbn|done].
  destruct (truthy validated); [|done].
  destruct (js_prop result "meta") as [meta|]; [cbn|done].
  destruct (if is_object meta && negb (strict_eq meta JNull)
            then js_in "TransactionResult" meta else Returned false) as [present|];
    [cbn|done].
  destruct (strict_eq _ (JStr "tesSUCCESS")).
  - intros [= <-]. done.
  - intros [= <-]. cbn. split; [done|]. split; [|done].
    destruct (truthy _); [|done].
    intros [= H]. by apply mapEngineResult_not_timeout in H.
Qed.

Section Polling.
Context (L : Ledger).

(** One attempt of the loop: one [tx] request, and a result or none. *)
Lemma run_poll_attempt client txHash (s : ledger_state L) :
  ∃ found s' rej,
    run L (try_catch
             (txResult ← request client {[ "command" := JStr "tx";
                                          "transaction" := txHash ]};
              lift (inspect_tx txHash txResult))
             (fun _ => Ret None)) s
    = (Returned found, s', [EvCall (tx_request txHash) rej])
    ∧ (rej = true → found = None)
    ∧ ∀ res, found = Some res →
             transaction res = Some txHash
             ∧ errorReason res ≠ Some (Reason "settlement_timeout")
             ∧ (success res = true → errorReason res = None).
Proof.
  unfold request, await, tx_request. cbn.
  destruct (respond L _ s) as [[txResult|err] s1]; cbn.
  - destruct (inspect_tx txHash txResult) as [found|] eqn:E; cbn.
    + eexists _, _, _. split; [reflexivity|]. split; [done|].
      intros res ->. by apply inspect_tx_found in E.
    + eexists _, _, _. split; [reflexivity|]. done.
  - eexists _, _, _. split; [reflexivity|]. done.
Qed.

Lemma calls_app t1 t2 : calls (t1 ++ t2) = (calls t1 + calls t2)%nat.
Proof. unfold calls. by rewrite List.filter_app, length_app. Qed.

Lemma sleeps_app t1 t2 : sleeps (t1 ++ t2) = (sleeps t1 + sleeps t2)%nat.
Proof. unfold sleeps. by rewrite List.filter_app, length_app. Qed.

(** The loop: every run returns, carries the hash, and polls and sleeps at
    most [attempts] times; it reports a timeout only after polling and
    sleeping exactly that often; it reports success only right after an
    answered poll. *)
Lemma run_poll client txHash ms attempts (s : ledger_state L) :
  ∃ res s' tr,
    run L (poll client txHash ms attempts) s = (Returned res, s', tr)
    ∧ transaction res = Some txHash
    ∧ (calls tr ≤ attempts)%nat ∧ (sleeps tr ≤ attempts)%nat
    ∧ submitted tr = []
    ∧ (errorReason res = Some (Reason "settlement_timeout") →
       success res = false ∧ calls tr = attempts ∧ sleeps tr = attempts)
    ∧ (success res = true →
       errorReason res = None ∧ last tr = Some (EvCall (tx_request txHash) false)).
Proof.
  revert s. induction attempts as [|n IH]; intros s.
  - eexists _, _, _. split; [reflexivity|]. cbn. repeat split; done.
  - cbn [poll]. rewrite run_bind.
    destruct (run_poll_attempt client txHash s) as (found & s1 & rej & -> & Hrej & Hfound).
    destruct found as [res|].
    + destruct (Hfound res eq_refl) as (Htx & Htimeout & Hsuccess).
      eexists _, _, _. split; [reflexivity|]. cbn.
      split; [done|]. split; [lia|]. split; [lia|]. split; [done|].
      split; [done|]. intros Hs. split; [by apply Hsuccess|].
      destruct rej; [by specialize (Hrej eq_refl)|done].
    + cbn [run].
      destruct (IH s1) as (res & s2 & tr & -> & Htx & Hcalls & Hsleeps & Hsub & Htimeout
                           & Hsuccess).
      eexists _, _, _. split; [reflexivity|].
      split; [done|]. cbn -[last]. unfold calls, sleeps in *. cbn -[last].
      split; [lia|]. split; [lia|]. split; [done|].
      split.
      * intros Ht. destruct (Htimeout Ht) as (? & ? & ?). repeat split; [done|lia|lia].
      * intros Hs. destruct (Hsuccess Hs) as [? Hlast]. split; [done|].
        destruct tr as [|e tr]; [done|]. exact Hlast.
Qed.
End Polling.

Ltac poll_case :=
  match goal with
  | |- context [run ?L (poll ?c ?h ?ms ?n) ?s] =>
      let res := fresh "res" in
      destruct (run_poll L c h ms n s)
        as (res & ? & ? & -> & Htx & Hcalls & Hsleeps & Hsub & Htimeout & Hsuccess)
  end.

(** X18.  [submitAndWait] makes one [submit] call and then at most
    [maxAttempts] [tx] requests, sleeping at most [maxAttempts] times,
    whatever the ledger answers. *)
Theorem submitAndWait_is_bounded (L : Ledger) (s : ledger_state L) client txBlob'
    maxAttempts pollIntervalMs :
  let tr := (run L (submitAndWait client txBlob' maxAttempts pollIntervalMs) s).2 in
  (1 ≤ calls tr ≤ S maxAttempts)%nat ∧ (sleeps tr ≤ maxAttempts)%nat.
Proof.
  unfold submitAndWait, submit, await. cbn.
  destruct (respond L (CallSubmit txBlob') s) as [[submitResult|err] s1]; cbn.
  2:{ unfold calls, sleeps. cbn. lia. }
  repeat run_case; try poll_case; unfold calls, sleeps in *; cbn; lia.
Qed.

Lemma submitAndWait_is_bounded_witness :
  (1 ≤ calls (run (validating_ledger "tesSUCCESS")
                (submitAndWait XrplClient "PAY_XRP" 3 1000) 5%nat).2 ≤ 4)%nat
  ∧ (sleeps (run (validating_ledger "tesSUCCESS")
               (submitAndWait XrplClient "PAY_XRP" 3 1000) 5%nat).2 ≤ 3)%nat.
Proof.
  exact (submitAndWait_is_bounded (validating_ledger "tesSUCCESS") 5%nat XrplClient
           "PAY_XRP" 3 1000).
Defined.

(** X19.  [submitAndWait] reports [settlement_timeout] only after the
    submission and exactly [maxAttempts] polls, each one followed by a
    sleep; no engine result, mapped or not, is reported under that name. *)
Theorem submitAndWait_timeout_exact (L : Ledger) (s s' : ledger_state L) client txBlob'
    maxAttempts pollIntervalMs res tr :
  run L (submitAndWait client txBlob' maxAttempts pollIntervalMs) s
  = (Returned res, s', tr) →
  errorReason res = Some (Reason "settlement_timeout") →
  success res = false ∧ calls tr = S maxAttempts ∧ sleeps tr = maxAttempts.
Proof.
  unfold submitAndWait, submit, await. cbn.
  destruct (respond L (CallSubmit txBlob') s) as [[submitResult|err] s1]; cbn; [|done].
  repeat run_case; try poll_case; intros [= <- <- <-]; cbn; try done;
    try (intros [= H]; by apply mapEngineResult_not_timeout in H).
  all: intros Ht; destruct (Htimeout Ht) as (? & ? & ?).
  all: unfold calls, sleeps in *; cbn; split; [done|]; split; lia.
Qed.

Lemma submitAndWait_timeout_exact_witness :
  calls (run (validating_ledger "tesSUCCESS")
           (submitAndWait XrplClient "PAY_XRP" 3 1000) 5%nat).2 = 4%nat
  ∧ sleeps (run (validating_ledger "tesSUCCESS")
              (submitAndWait XrplClient "PAY_XRP" 3 1000) 5%nat).2 = 3%nat.
Proof.
  destruct (run (validating_ledger "tesSUCCESS")
              (submitAndWait XrplClient "PAY_XRP" 3 1000) 5%nat) as [[o s'] tr] eqn:E.
  vm_compute in E. injection E as <- <- <-.
  refine (proj2 (submitAndWait_timeout_exact (validating_ledger "tesSUCCESS") 5%nat _
                   XrplClient "PAY_XRP" 3 1000 _ _ eq_refl eq_refl)).
Defined.

Lemma js_prop_get v k w : js_prop v k = Returned w → w = js_get v k.
Proof. unfold js_prop. destruct (nullish v); [done|]. by intros [= <-]. Qed.

Lemma submit_hash_get submitResult txHash :
  (result ← js_prop submitResult "result";
   tx_json ← js_prop result "tx_json";
   js_prop tx_json "hash") = Returned txHash →
  txHash = js_get (js_get (js_get submitResult "result") "tx_json") "hash".
Proof.
  destruct (js_prop submitResult "result") as [result|] eqn:E1; [cbn|done].
  destruct (js_prop result "tx_json") as [tx_json|] eqn:E2; [cbn|done].
  intros E3. apply js_prop_get in E1, E2, E3. by subst.
Qed.

(** X20.  [submitAndWait] reports success only in one way: the submission
    was answered with a truthy hash, and the last thing that happened is an
    answered [tx] request for that hash; the result then carries the hash
    and no error reason. *)
Theorem submitAndWait_success_sound (L : Ledger) (s s' : ledger_state L) client txBlob'
    maxAttempts pollIntervalMs res tr :
  run L (submitAndWait client txBlob' maxAttempts pollIntervalMs) s
  = (Returned res, s', tr) →
  success res = true →
  ∃ submitResult s1,
    let txHash := js_get (js_get (js_get submitResult "result") "tx_json") "hash" in
    respond L (CallSubmit txBlob') s = (Returned submitResult, s1)
    ∧ truthy txHash = true
    ∧ transaction res = Some txHash
    ∧ errorReason res = None
    ∧ last tr = Some (EvCall (tx_request txHash) false).
Proof.
  unfold submitAndWait, submit, await. cbn.
  destruct (respond L (CallSubmit txBlob') s) as [[submitResult|err] s1]; cbn; [|done].
  repeat run_case; try poll_case; intros [= <- <- <-]; cbn -[last]; try done.
  intros Hs. destruct (Hsuccess Hs) as [Herr Hlast].
  match goal with
  | H : _ = Returned ?h |- _ => apply submit_hash_get in H; subst h
  end.
  eexists _, _. split; [reflexivity|]. cbn -[last].
  match goal with H : negb (truthy _) = false |- _ => apply negb_false_iff in H end.
  repeat (split; [done|]).
  match goal with |- last (_ :: ?t) = _ => destruct t; [done|exact Hlast] end.
Qed.

Lemma submitAndWait_success_sound_witness :
  last (run (validating_ledger "tesSUCCESS")
          (submitAndWait XrplClient "PAY_XRP" 3 1000) 2%nat).2
  = Some (EvCall (tx_request (JStr "HASH")) false).
Proof.
  destruct (run (validating_ledger "tesSUCCESS")
              (submitAndWait XrplClient "PAY_XRP" 3 1000) 2%nat) as [[o s'] tr] eqn:E.
  vm_compute in E. injection E as <- <- <-.
  destruct (submitAndWait_success_sound (validating_ledger "tesSUCCESS") 2%nat _
              XrplClient "PAY_XRP" 3 1000 _ _ eq_refl eq_refl)
    as (submitResult & s1 & Hresp & _ & _ & _ & Hlast).
  injection Hresp as <- <-. exact Hlast.
Defined.

(** X21.  An engine result whose code starts with [tef], [tem] or [tec] is
    final: [submitAndWait] returns the failure with the mapped reason and
    the submitted hash (or the empty string) right after the submission,
    without polling or sleeping, whatever [maxAttempts] is. *)
Theorem submitAndWait_final_engine_result (L : Ledger) (s s1 : ledger_state L) client
    txBlob' maxAttempts pollIntervalMs submitResult code tx_json :
  respond L (CallSubmit txBlob') s = (Returned submitResult, s1) →
  js_get (js_get submitResult "result") "engine_result" = JStr code →
  js_get (js_get submitResult "result") "tx_json" = JObj tx_json →
  startsWith code "tef" || startsWith code "tem" || startsWith code "tec" = true →
  run L (submitAndWait client txBlob' maxAttempts pollIntervalMs) s
  = (Returned {| success := false;
                 errorReason := Some (mapEngineResult (JStr code));
                 transaction := Some (nullish_or (js_get (JObj tx_json) "hash")
                                        (JStr EmptyString));
                 settledNetwork := Some EmptyString;
                 payer := None |},
     s1, [EvCall (CallSubmit txBlob') false]).
Proof.
  intros Hresp Hcode Htx Hfinal.
  destruct (js_get_defined (js_get submitResult "result") "engine_result")
    as [result Hresult]; [by rewrite Hcode|].
  destruct (js_get_defined submitResult "result") as [o Ho]; [by rewrite Hresult|].
  subst submitResult. rewrite Hresult in Hcode, Htx.
  unfold submitAndWait, submit, await.
  cbn [try_catch Prog_bind mbind Prog_mbind run]. rewrite Hresp.
  cbn -[js_get mapEngineResult startsWith]. rewrite Hresult.
  cbn -[js_get mapEngineResult startsWith]. rewrite Hcode, Htx.
  cbn -[js_get mapEngineResult startsWith].
  destruct (startsWith code "tef"); cbn -[js_get mapEngineResult startsWith]; [done|].
  destruct (startsWith code "tem"); cbn -[js_get mapEngineResult startsWith]; [done|].
  cbn in Hfinal. rewrite Hfinal. done.
Qed.

Lemma submitAndWait_final_engine_result_witness :
  (run unfunded_ledger (submitAndWait XrplClient "PAY_XRP" 10 1000) tt).2
  = [EvCall (CallSubmit "PAY_XRP") false].
Proof.
  rewrite (submitAndWait_final_engine_result unfunded_ledger tt tt XrplClient "PAY_XRP"
             10 1000 (submit_reply "tecUNFUNDED_PAYMENT" "HASH") "tecUNFUNDED_PAYMENT"
             {[ "hash" := JStr "HASH" ]} eq_refl eq_refl eq_refl eq_refl).
  reflexivity.
Defined.

(** ** Settlement *)

Lemma run_verify_mpt (L : Ledger) (s s' : ledger_state L) lib payload requirements
    client v tr :
  isMPTAmount (amount (authorization payload)) = true →
  run L (verify lib payload requirements client) s = (Returned v, s', tr) →
  isValid v = false.
Proof.
  intros Hm. rewrite verify_split.
  destruct (offline_verdict _ _ _) as [[r|]|msg] eqn:E; [| |done].
  - cbn. intros [= <- <- <-]. by eapply offline_verdict_invalid.
  - apply offline_verdict_pass in E as (tx & _ & _ & _ & _ & _ & _ & _ & _ & E).
    congruence.
Qed.

(** X22.  Every result [settle] returns carries the network it was called
    for, and [settle] throws only where [verify] does, before any ledger
    call: where [classifyAsset] throws on the required asset, or, for an MPT
    amount, where the allowlist lookup throws on a network named after an
    inherited property.  An error of the submission, of the polling or of
    the fee settlement never escapes. *)
Theorem settle_result_shape (L : Ledger) (s : ledger_state L) lib env payload
    requirements client net :
  let auth := authorization payload in
  (∀ res s' tr,
     run L (settle lib env payload requirements client net) s = (Returned res, s', tr) →
     settledNetwork res = Some net)
  ∧ (∀ msg s' tr,
       run L (settle lib env payload requirements client net) s = (Thrown msg, s', tr) →
       tr = []
       ∧ run L (verify lib payload requirements (Some client)) s = (Thrown msg, s, [])
       ∧ (classifyAsset (asset requirements) = Thrown msg
          ∨ (isMPTAmount (amount auth) = true
             ∧ inherited (network requirements) = true
             ∧ getMptConfig (network requirements)
                 (amount_prop (amount auth) "mpt_issuance_id") = Thrown msg))).
Proof.
  intros auth. subst auth. unfold settle. rewrite run_settle_with.
  destruct (run L (verify _ _ _ _) s) as [[[v|m] s1] t1] eqn:Ev.
  2:{ split; [done|]. intros msg s' tr [= <- <- <-].
      apply run_verify_thrown in Ev as (E & -> & ->).
      split; [done|]. split; [done|]. exact (offline_verdict_thrown _ _ _ _ E). }
  destruct (negb (isValid v)); [by split; [intros res s' tr [= <- <- <-]|]|].
  destruct (fee_check _ _ _ _); [by split; [intros res s' tr [= <- <- <-]|]|].
  destruct (run L (submitAndWait _ _ _ _) s1) as [[[m|err] s2] t2];
    [|by split; [intros res s' tr [= <- <- <-]|]].
  destruct (truthy_string (feeTxBlob payload)) as [blob|];
    [|by split; [intros res s' tr [= <- <- <-]|]].
  destruct (success m) eqn:Hm; [|by split; [intros res s' tr [= <- <- <-]|]].
  destruct (run_settleWithFee L client (set_network m net) blob net s2 Hm)
    as (s3 & t3 & -> & _).
  by split; [intros res s' tr [= <- <- <-]|].
Qed.

Lemma settle_result_shape_witness :
  (∃ res, (run unfunded_ledger
             (settle sample_lib no_facilitator xrp_payload xrp_requirements
                XrplClient "xrpl:1") tt).1.1 = Returned res
          ∧ settledNetwork res = Some "xrpl:1")
  ∧ ∃ msg, run (accepting_ledger 7)
             (settle mpt_sample_lib facilitator_env mpt_payload_with_fee
                inherited_network_requirements XrplClient "constructor") tt
           = (Thrown msg, tt, []).
Proof.
  split.
  - destruct (run unfunded_ledger
                (settle sample_lib no_facilitator xrp_payload xrp_requirements
                   XrplClient "xrpl:1") tt) as [[[res|msg] s'] tr] eqn:E.
    + exists res. split; [reflexivity|].
      exact (proj1 (settle_result_shape unfunded_ledger tt sample_lib no_facilitator
                      xrp_payload xrp_requirements XrplClient "xrpl:1") res s' tr E).
    + vm_compute in E. discriminate E.
  - destruct (run (accepting_ledger 7)
                (settle mpt_sample_lib facilitator_env mpt_payload_with_fee
                   inherited_network_requirements XrplClient "constructor") tt)
      as [[[res|msg] s'] tr] eqn:E.
    + vm_compute in E. discriminate E.
    + exists msg.
      destruct (proj2 (settle_result_shape (accepting_ledger 7) tt mpt_sample_lib
                         facilitator_env mpt_payload_with_fee
                         inherited_network_requirements XrplClient "constructor")
                  msg s' tr E) as (-> & _ & _).
      by destruct s'.
Defined.

(** X23.  What [settle] submits, in order: nothing; or the payment blob;
    or the payment blob and then the fee blob of the payload, a non-empty
    string.  Nothing else is ever submitted, and a successful result means
    the payment blob was submitted first. *)
Theorem settle_submission_order (L : Ledger) (s s' : ledger_state L) lib env payload
    requirements client net o tr :
  run L (settle lib env payload requirements client net) s = (o, s', tr) →
  (submitted tr = []
   ∨ submitted tr = [txBlob payload]
   ∨ ∃ blob, feeTxBlob payload = Some blob ∧ blob ≠ EmptyString
             ∧ submitted tr = [txBlob payload; blob])
  ∧ (∀ res, o = Returned res → success res = true →
            ∃ rest, submitted tr = txBlob payload :: rest).
Proof.
  intros Hrun. apply run_settle_cases in Hrun
    as [[Hnone Hfail]|(v & s1 & t1 & o2 & s2 & t2 & t3 & Hv & _ & _ & Hs & -> & Hrest)].
  - split; [by left|]. intros res -> Hres.
    destruct Hfail as [[m [=]]|(r & [= <-] & Hr)]. congruence.
  - apply run_verify_submitted in Hv. apply run_submitAndWait_submitted in Hs.
    rewrite !submitted_app, Hv, Hs. cbn [app].
    destruct Hrest as [[-> _]|(m & blob & _ & _ & Hblob & _ & ->)].
    + split; [right; by left|]. eauto.
    + split; [|eauto]. right. right. exists blob.
      unfold truthy_string in Hblob.
      destruct (feeTxBlob payload) as [b|]; [|done].
      destruct (String.eqb b EmptyString) eqn:Hb; [done|].
      apply String.eqb_neq in Hb. by simplify_eq.
Qed.

Lemma settle_submission_order_witness :
  ∃ rest, submitted (run (accepting_ledger 7)
                       (settle sample_lib no_facilitator xrp_payload_with_fee
                          xrp_requirements XrplClient "xrpl:1") tt).2
          = "PAY_XRP" :: rest.
Proof.
  destruct (run (accepting_ledger 7)
              (settle sample_lib no_facilitator xrp_payload_with_fee xrp_requirements
                 XrplClient "xrpl:1") tt) as [[o s'] tr] eqn:E.
  destruct (settle_submission_order _ _ _ _ _ _ _ _ _ _ _ E) as [_ H].
  vm_compute in E. injection E as <- <- <-.
  exact (H _ eq_refl eq_refl).
Defined.

(** X24.  With the allowlist as shipped, [settle] on a payload whose amount
    is an MPT amount never succeeds and submits nothing, neither the
    payment nor a fee: verification stops it before the fee check. *)
Theorem settle_never_submits_mpt (L : Ledger) (s s' : ledger_state L) lib env payload
    requirements client net o tr :
  isMPTAmount (amount (authorization payload)) = true →
  run L (settle lib env payload requirements client net) s = (o, s', tr) →
  submitted tr = [] ∧ ∀ res, o = Returned res → success res = false.
Proof.
  intros Hm. unfold settle. rewrite run_settle_with.
  destruct (run L (verify _ _ _ _) s) as [[[v|m] s1] t1] eqn:Ev.
  - rewrite (run_verify_mpt _ _ _ _ _ _ _ _ _ Hm Ev). cbn [negb].
    intros [= <- <- <-]. split; [exact (run_verify_submitted _ _ _ _ _ _ _ _ _ Ev)|]. by intros res [= <-].
  - intros [= <- <- <-]. split; [exact (run_verify_submitted _ _ _ _ _ _ _ _ _ Ev)|done].
Qed.

Lemma settle_never_submits_mpt_witness :
  submitted (run (accepting_ledger 7)
               (settle mpt_sample_lib facilitator_env mpt_payload_with_fee
                  mpt_requirements XrplClient "xrpl:1") tt).2 = [].
Proof.
  destruct (run (accepting_ledger 7)
              (settle mpt_sample_lib facilitator_env mpt_payload_with_fee
                 mpt_requirements XrplClient "xrpl:1") tt) as [[o s'] tr] eqn:E.
  exact (proj1 (settle_never_submits_mpt (accepting_ledger 7) tt s' mpt_sample_lib
                  facilitator_env mpt_payload_with_fee mpt_requirements XrplClient
                  "xrpl:1" o tr eq_refl E)).
Defined.

(** ** The fee transaction *)

(** X25.  When a fee is charged (the expected amount is neither absent
    nor ["0"]), [verifyFeePayload] passes in two situations only.  Either
    no facilitator address is configured and the payload carries neither a
    fee blob nor a fee authorization.  Or the payload carries both, the
    fee blob decodes and its signature verifies, and the decoded fee
    transaction is from the payer of the payment, to the facilitator, for
    exactly the expected amount. *)
Theorem verifyFeePayload_pass_sound lib env payload expected :
  expected ≠ "0" →
  verifyFeePayload lib env payload (Some expected) = None →
  (present (getFacilitatorAddress env) = false
   ∧ present (feeTxBlob payload) = false
   ∧ feeAuthorization payload = None)
  ∨ (∃ facilitator blob feeAuth feeTx,
       getFacilitatorAddress env = Some facilitator ∧ facilitator ≠ EmptyString
       ∧ feeTxBlob payload = Some blob ∧ blob ≠ EmptyString
       ∧ feeAuthorization payload = Some feeAuth
       ∧ decode lib blob = Returned feeTx
       ∧ verifySignature lib blob = Returned true
       ∧ record_get feeTx "Account" = JStr (account (authorization payload))
       ∧ record_get feeTx "Destination" = JStr facilitator
       ∧ record_get feeTx "Amount" = JStr expected).
Proof.
  intros Hexpected. unfold verifyFeePayload.
  destruct (String.eqb expected "0") eqn:Hzero; [by apply String.eqb_eq in Hzero|].
  destruct (present (getFacilitatorAddress env)) eqn:Hfac; cbn [negb].
  - destruct (feeTxBlob payload) as [blob|]; [|done].
    destruct (feeAuthorization payload) as [feeAuth|]; [|done].
    destruct (present (Some blob)) eqn:Hblob; [cbn [negb]|done].
    destruct (decode lib blob) as [feeTx|] eqn:Hdecode; [|done].
    destruct (verifySignature lib blob) as [[]|] eqn:Hsig; [|done|done].
    destruct (strict_neq (record_get feeTx "Account") _) eqn:Ha; [done|].
    destruct (strict_neq (record_get feeTx "Destination") _) eqn:Hd; [done|].
    destruct (strict_neq (record_get feeTx "Amount") _) eqn:Hm; [done|].
    apply strict_neq_false in Ha, Hd, Hm.
    case_bool_decide as Hdest; [cbn [negb]|done].
    destruct (String.eqb (feeAmount feeAuth) expected) eqn:Hamt; [cbn [negb]|done].
    destruct (String.eqb (feeAccount feeAuth) _) eqn:Hacc; [cbn [negb]|done].
    apply String.eqb_eq in Hamt, Hacc. intros _. right.
    exists (feeDestination feeAuth), blob, feeAuth, feeTx.
    unfold present in Hfac, Hblob. rewrite <- Hdest in Hfac.
    apply negb_true_iff, String.eqb_neq in Hfac, Hblob.
    repeat split; try done; congruence.
  - case_bool_decide as Hauth; cbn [negb].
    + rewrite andb_false_r. done.
    + rewrite andb_true_r. destruct (present (feeTxBlob payload)) eqn:Hblob; [done|].
      intros _. left. split; [done|]. split; [done|].
      destruct (feeAuthorization payload); [|done]. by destruct Hauth.
Qed.

Lemma verifyFeePayload_pass_sound_witness :
  ∃ feeTx, decode mpt_sample_lib "FEE" = Returned feeTx
           ∧ record_get feeTx "Destination" = JStr "rMerchant"
           ∧ record_get feeTx "Amount" = JStr "1000".
Proof.
  destruct (verifyFeePayload_pass_sound mpt_sample_lib facilitator_env
              mpt_payload_with_fee "1000")
    as [(H & _)|(facilitator & blob & feeAuth & feeTx & Hf & _ & Hb & _ & _ & Hd & _ & _
                 & Hdest & Hamt)];
    [discriminate|vm_compute; reflexivity|discriminate H|].
  injection Hf as <-. injection Hb as <-. exists feeTx. done.
Defined.

(** ** How often [verify] calls the ledger *)

Ltac calls_done := intros [= <- <- <-]; unfold calls, sleeps; cbn; lia.

Section CallBounds.
Context (L : Ledger).

Lemma checkAccountBalance_calls client a m f sq t (s : ledger_state L) o s' tr :
  run L (checkAccountBalance client a m f sq t) s = (o, s', tr) →
  (calls tr ≤ 2 ∧ sleeps tr = 0)%nat.
Proof. unfold checkAccountBalance. run_cases; calls_done. Qed.

Lemma checkLedgerExpiry_calls client lls (s : ledger_state L) o s' tr :
  run L (checkLedgerExpiry client lls) s = (o, s', tr) →
  (calls tr ≤ 1 ∧ sleeps tr = 0)%nat.
Proof. unfold checkLedgerExpiry. run_cases; calls_done. Qed.

Lemma checkTrustLine_calls client d a (s : ledger_state L) o s' tr :
  run L (checkTrustLine client d a) s = (o, s', tr) →
  (calls tr ≤ 1 ∧ sleeps tr = 0)%nat.
Proof. unfold checkTrustLine. run_cases; calls_done. Qed.

Lemma run_check_then_calls (check : Prog (option VerifyResponse))
    (rest : Prog VerifyResponse) (a b : nat) :
  (∀ s o s' tr, run L check s = (o, s', tr) → (calls tr ≤ a ∧ sleeps tr = 0)%nat) →
  (∀ s o s' tr, run L rest s = (o, s', tr) → (calls tr ≤ b ∧ sleeps tr = 0)%nat) →
  ∀ s o s' tr, run L (step ← check; or_else step rest) s = (o, s', tr) →
               (calls tr ≤ a + b ∧ sleeps tr = 0)%nat.
Proof.
  intros Hc Hr s o s' tr. rewrite run_bind.
  destruct (run L check s) as [[[v|m] s1] t1] eqn:E; apply Hc in E.
  - destruct (run L (or_else v rest) s1) as [[o2 s2] t2] eqn:E2.
    intros [= <- <- <-]. rewrite calls_app, sleeps_app.
    destruct v as [r|]; cbn in E2.
    + injection E2 as <- <- <-. unfold calls, sleeps in *. cbn. lia.
    + apply Hr in E2. lia.
  - intros [= <- <- <-]. lia.
Qed.

Lemma run_network_stage_calls payload client (s : ledger_state L) o s' tr :
  isMPTAmount (amount (authorization payload)) = false →
  run L (network_stage payload client) s = (o, s', tr) →
  (calls tr ≤ (if isIssuedCurrencyAmount (amount (authorization payload)) then 4 else 3)
   ∧ sleeps tr = 0)%nat.
Proof.
  intros Hm. unfold network_stage. rewrite Hm. revert s o s' tr.
  destruct (isIssuedCurrencyAmount _).
  - apply (run_check_then_calls _ _ 2 2); [apply checkAccountBalance_calls|].
    apply (run_check_then_calls _ _ 1 1); [apply checkLedgerExpiry_calls|].
    apply (run_check_then_calls _ _ 1 0); [apply checkTrustLine_calls|].
    intros ????. cbn. calls_done.
  - apply (run_check_then_calls _ _ 2 1); [apply checkAccountBalance_calls|].
    apply (run_check_then_calls _ _ 1 0); [apply checkLedgerExpiry_calls|].
    apply (run_check_then_calls _ _ 0 0); intros ????; cbn; calls_done.
Qed.
End CallBounds.

(** X26.  A run of [verify] calls the ledger at most three times, and at
    most four times when the claimed amount is an issued-currency amount;
    it never sleeps and never submits.  With the allowlist empty the three
    MPT requests are never made. *)
Theorem verify_call_bound (L : Ledger) (s : ledger_state L) lib payload requirements
    client :
  let tr := (run L (verify lib payload requirements client) s).2 in
  (calls tr ≤ if isIssuedCurrencyAmount (amount (authorization payload)) then 4 else 3)%nat
  ∧ sleeps tr = 0%nat
  ∧ submitted tr = [].
Proof.
  cbn zeta. split; [|split].
  3:{ destruct (run L (verify _ _ _ _) s) as [[o s'] tr] eqn:E.
      exact (run_verify_submitted _ _ _ _ _ _ _ _ _ E). }
  all: rewrite verify_split.
  all: destruct (offline_verdict _ _ _) as [[r|]|msg] eqn:E;
    [cbn; unfold calls, sleeps; cbn; try lia; by destruct (isIssuedCurrencyAmount _)| |
     cbn; unfold calls, sleeps; cbn; try lia; by destruct (isIssuedCurrencyAmount _)].
  all: destruct client as [client|];
    [|cbn; unfold calls, sleeps; cbn; try lia; by destruct (isIssuedCurrencyAmount _)].
  all: apply offline_verdict_pass in E as (tx & _ & _ & _ & _ & _ & _ & _ & _ & Hm).
  all: destruct (run L (network_stage payload client) s) as [[o s'] tr] eqn:E2.
  all: by destruct (run_network_stage_calls _ _ _ _ _ _ _ Hm E2).
Qed.

(** ** The MPT entries of the sender and of the destination *)

Lemma bit_and_one n : negb (bit_and n 1 =? 0)%Z = Z.testbit n 0.
Proof.
  change 1%Z with (2 ^ 0)%Z. rewrite bit_and_pow2 by lia. by destruct (Z.testbit n 0).
Qed.

(** X27.  The destination step on a ledger that answers the [ledger_entry]
    request: a missing or falsy node is [mpt_destination_not_authorized];
    a node whose [Flags] is a number with bit 0 ([lsfMPTLocked]) set is
    [mpt_destination_locked]; any other node passes, one without numeric
    flags included. *)
Theorem checkMptDestination_verdict (L : Ledger) (s s' : ledger_state L) client
    destination' issuanceId' reply result :
  respond L (CallRequest
               {[ "command" := JStr "ledger_entry";
                  "mptoken" := JObj {[ "mpt_issuance_id" := issuanceId';
                                       "account" := JStr destination' ]} ]}) s
  = (Returned reply, s') →
  js_get reply "result" = JObj result →
  let node := js_get (JObj result) "node" in
  (run L (checkMptDestination client destination' issuanceId') s).1
  = (Returned (if negb (truthy node) then Some (invalid "mpt_destination_not_authorized")
               else match js_get node "Flags" with
                    | JNum flags =>
                        if Z.testbit flags 0
                        then Some (invalid "mpt_destination_locked") else None
                    | _ => None
                    end), s').
Proof.
  intros Hresp Hresult node.
  destruct (js_get_defined reply "result") as [o Ho]; [by rewrite Hresult|].
  subst reply.
  unfold checkMptDestination, request, await.
  cbn [try_catch Prog_bind mbind Prog_mbind run]. rewrite Hresp.
  unfold ledger_entry_node.
  cbn -[js_get bit_and Z.testbit truthy]. rewrite Hresult.
  cbn -[js_get bit_and Z.testbit truthy]. fold node.
  destruct (truthy node); cbn -[js_get bit_and Z.testbit]; [|done].
  unfold flags_of. rewrite bit_and_one.
  destruct (js_get node "Flags") as [| | |flags| | |]; cbn -[Z.testbit]; try done.
  by destruct (Z.testbit flags 0).
Qed.

Lemma checkMptDestination_verdict_witness :
  (run (replying_ledger 100 (fun _ => ledger_entry_reply (JObj {[ "Flags" := JNum 3 ]})))
       (checkMptDestination XrplClient "rMerchant" (JStr "00000001A407AF58")) tt).1
  = (Returned (Some (invalid "mpt_destination_locked")), tt).
Proof.
  exact (checkMptDestination_verdict
           (replying_ledger 100 (fun _ => ledger_entry_reply (JObj {[ "Flags" := JNum 3 ]})))
           tt tt XrplClient "rMerchant" (JStr "00000001A407AF58") _
           {[ "node" := JObj {[ "Flags" := JNum 3 ]} ]} eq_refl eq_refl).
Defined.

(** X28.  The holder step on a ledger that returns the sender's MPT entry:
    an entry whose [Flags] is a number with bit 0 set is
    [mpt_holder_locked]; otherwise the entry's [MPTAmount], read as a
    number when it is a string and as zero when it is not, must not be
    below the claimed value, else the verdict is
    [mpt_insufficient_balance]. *)
Theorem checkMptHolder_verdict (L : Ledger) (s s' : ledger_state L) client account'
    mptAmount reply node :
  respond L (CallRequest
               {[ "command" := JStr "ledger_entry";
                  "mptoken" := JObj {[ "mpt_issuance_id"
                                         := amount_prop mptAmount "mpt_issuance_id";
                                       "account" := JStr account' ]} ]}) s
  = (Returned reply, s') →
  js_get (js_get reply "result") "node" = JObj node →
  let locked := match node !! "Flags" with
                | Some (JNum flags) => Z.testbit flags 0
                | _ => false
                end in
  let balance := match node !! "MPTAmount" with
                 | Some (JStr held) => parseFloat held
                 | _ => float_zero
                 end in
  (run L (checkMptHolder client account' mptAmount) s).1
  = (Returned (if locked then Some (invalid "mpt_holder_locked")
               else if num_lt balance
                         (parseFloat (to_string (amount_prop mptAmount "value")))
                    then Some (invalid "mpt_insufficient_balance")
                    else None), s').
Proof.
  intros Hresp Hnode locked balance.
  destruct (js_get_defined (js_get reply "result") "node") as [result Hresult];
    [by rewrite Hnode|].
  destruct (js_get_defined reply "result") as [o Ho]; [by rewrite Hresult|].
  subst reply. rewrite Hresult in Hnode.
  unfold checkMptHolder, request, await.
  cbn [try_catch Prog_bind mbind Prog_mbind run]. rewrite Hresp.
  unfold ledger_entry_node.
  cbn -[js_get bit_and Z.testbit parseFloat num_lt]. rewrite Hresult.
  cbn -[js_get bit_and Z.testbit parseFloat num_lt]. rewrite Hnode.
  cbn -[bit_and Z.testbit parseFloat num_lt]. unfold flags_of. rewrite bit_and_one.
  cbn -[bit_and Z.testbit parseFloat num_lt]. subst locked balance.
  destruct (node !! "Flags") as [[| | |flags| | |]|]; cbn -[Z.testbit parseFloat num_lt];
    try destruct (Z.testbit flags 0); cbn -[parseFloat num_lt]; try done.
  all: destruct (node !! "MPTAmount") as [[]|]; cbn -[parseFloat num_lt].
  all: by destruct (num_lt _ _).
Qed.

Lemma checkMptHolder_verdict_witness :
  (run (replying_ledger 100
          (fun _ => ledger_entry_reply (JObj {[ "Flags" := JNum 0;
                                                "MPTAmount" := JStr "25.50" ]})))
       (checkMptHolder XrplClient "rSender" (MPTAmount "00000001A407AF58" "25.5")) tt).1
  = (Returned None, tt).
Proof.
  refine (eq_trans
    (checkMptHolder_verdict
       (replying_ledger 100
          (fun _ => ledger_entry_reply (JObj {[ "Flags" := JNum 0;
                                                "MPTAmount" := JStr "25.50" ]})))
       tt tt XrplClient "rSender" (MPTAmount "00000001A407AF58" "25.5") _
       {[ "Flags" := JNum 0; "MPTAmount" := JStr "25.50" ]} eq_refl eq_refl) _).
  vm_compute. reflexivity.
Defined.
